(** * The threaded incremental render scheduler of rprblender/render/scene.py

  A shallow embedding of [UpdateBlock], [UpdateData], [SceneRenderer],
  [RenderThread] and [SceneRendererThreaded], and the properties of the
  scheduler that follow from the code. *)

From Stdlib Require Import ZArith Lia.
From stdpp Require Import gmap strings list fin_maps.

Local Open Scope string_scope.
Local Open Scope Z_scope.
Local Open Scope list_scope.

(** ** UpdateBlock: the single-slot pending-value cell *)

Section Block.

(** The values a block holds are arbitrary Python objects. *)
Context {V : Type}.

Record UpdateBlock := mkUpdateBlock {
  value : V;
  has_value : bool;
  equal : V -> V -> bool
}.

Definition set_value (b : UpdateBlock) (v : V) : UpdateBlock :=
  {| value := v; has_value := true; equal := equal b |}.

(** [pop_value] returns the stored value and clears the flag; the value
    itself stays in the slot. *)
Definition pop_value (b : UpdateBlock) : V * UpdateBlock :=
  (value b, {| value := value b; has_value := false; equal := equal b |}).

Definition del_value (b : UpdateBlock) : UpdateBlock :=
  {| value := value b; has_value := false; equal := equal b |}.

(** [UpdateData.update_block]. *)
Definition update_block (block : UpdateBlock)
    (block_value_current block_value_new : V) : UpdateBlock :=
  if has_value block && equal block (value block) block_value_new then block
  else if equal block block_value_current block_value_new then
    (if has_value block then del_value block else block)
  else set_value block block_value_new.

(** The method calls [update_block] issues on the block it is given. *)
Inductive BlockCall :=
| Call_set_value (v : V)
| Call_del_value.

Definition apply_call (b : UpdateBlock) (c : BlockCall) : UpdateBlock :=
  match c with
  | Call_set_value v => set_value b v
  | Call_del_value => del_value b
  end.

Definition update_block_calls (block : UpdateBlock)
    (block_value_current block_value_new : V) : list BlockCall :=
  if has_value block && equal block (value block) block_value_new then []
  else if equal block block_value_current block_value_new then
    (if has_value block then [Call_del_value] else [])
  else [Call_set_value block_value_new].

(** A sequence of [update_block] calls on one block, each with the value
    in effect and the new value, and no [pop_value] in between. *)
Definition update_blocks (block : UpdateBlock) (calls : list (V * V))
  : UpdateBlock :=
  foldl (fun b c => update_block b c.1 c.2) block calls.

Fixpoint update_blocks_calls (block : UpdateBlock) (calls : list (V * V))
  : list BlockCall :=
  match calls with
  | [] => []
  | c :: rest =>
      update_block_calls block c.1 c.2
        ++ update_blocks_calls (update_block block c.1 c.2) rest
  end.

(** The values handed to [set_value], oldest first. *)
Definition stored_values (cs : list BlockCall) : list V :=
  omap (fun c => match c with Call_set_value v => Some v | Call_del_value => None end) cs.

(** The pending values of a block: none or one. *)
Definition pending (b : UpdateBlock) : list V :=
  if has_value b then [value b] else [].

End Block.

Arguments UpdateBlock V : clear implicits.
Arguments BlockCall V : clear implicits.

(** ** The state-and-exception monad of the embedding

    Python code mutates objects, calls its collaborators and raises; a
    computation takes the state and returns either a value or the
    exception raised, with the state as the code left it. *)

Inductive Exn :=
| StopIteration
| AttributeError
| TypeError
| ZeroDivisionError
| AssertionError
| CoreError.

Inductive Res (A : Type) :=
| Ok (a : A)
| Raise (e : Exn).
Arguments Ok {A} a.
Arguments Raise {A} e.

(** A computation also gives the events it caused, oldest first. *)
Definition M (E W A : Type) : Type := W -> Res A * W * list E.

Definition ret {E W A} (a : A) : M E W A := fun w => (Ok a, w, []).

Definition bind {E W A B} (c : M E W A) (k : A -> M E W B) : M E W B :=
  fun w =>
    match c w with
    | (Ok a, w', evs) =>
        match k a w' with
        | (r, w'', evs') => (r, w'', evs ++ evs')
        end
    | (Raise e, w', evs) => (Raise e, w', evs)
    end.

Definition raise {E W A} (e : Exn) : M E W A := fun w => (Raise e, w, []).
Definition gets {E W A} (f : W -> A) : M E W A := fun w => (Ok (f w), w, []).
Definition modify {E W} (f : W -> W) : M E W unit :=
  fun w => (Ok tt, f w, []).
Definition emit {E W} (ev : E) : M E W unit := fun w => (Ok tt, w, [ev]).

(** The result of a computation that came after the events [evs]. *)
Definition emitted {E W A} (evs : list E) (r : Res A * W * list E)
  : Res A * W * list E :=
  (r.1, evs ++ r.2).

Declare Scope py_scope.
Delimit Scope py_scope with py.
Notation "x <- c1 ;; c2" := (bind c1 (fun x => c2))
  (at level 100, c1 at next level, right associativity) : py_scope.
Notation "c1 ;; c2" := (bind c1 (fun _ => c2))
  (at level 100, right associativity) : py_scope.

(** ** Settings objects (read-only snapshots owned by the host) *)

Record RenderingLimits := mkRenderingLimits {
  limits_enable : bool;
  limits_type : string;
  limits_iterations : Z;
  limits_time : Z
}.

Record ToneMapping := mkToneMapping {
  tm_enable : bool;
  tm_type : string
}.

Record WhiteBalance := mkWhiteBalance {
  wb_enable : bool;
  wb_color_space_value : Z
}.

Record GammaCorrection := mkGammaCorrection {
  gm_enable : bool;
  gm_viewport_only : bool
}.

(** [rs]: the fields of the render settings that scene.py reads. Float
    parameters (clamp value, filter radius, tone-mapping numbers) are only
    passed on to the engine and are not represented. *)
Record RenderSettings := mkRenderSettings {
  rendering_limits : RenderingLimits;
  render_mode : string;
  use_clamp_irradiance : bool;
  get_max_ray_depth : bool -> Z;
  aa_filter : string;
  tone_mapping : ToneMapping;
  white_balance : WhiteBalance;
  gamma_correction : GammaCorrection
}.

(** [helpers.get_user_settings()], with [used_gpu_count] the result of
    [helpers.get_used_gpu_count(settings.gpu_states)]. *)
Record UserSettings := mkUserSettings {
  samples : Z;
  device_type : string;
  device_type_plus_cpu : bool;
  used_gpu_count : Z
}.

(** An unsigned engine parameter: a number or a named pyrpr constant. *)
Inductive UInt :=
| U_int (z : Z)
| U_pyrpr (constant : string).

Inductive SleepDelay :=
| sleep_delay_interactive
| sleep_delay_noninteractive.

(** [RenderThread]: the thread object; [alive] is what [is_alive()]
    reports. *)
Record RenderThread := mkRenderThread {
  alive : bool;
  terminate_event : bool
}.

Inductive BlockId :=
| B_render_region
| B_render_resolution
| B_aov
| B_render_camera.


(** ** [int(a / b)] on integers

    Python divides two integers into the double nearest to their quotient,
    ties going to the even mantissa, and raises [OverflowError] when that
    is beyond the doubles; [int] then truncates the double toward zero. *)

(** The integer nearest to [n / d], ties to even, for [0 <= n], [0 < d]. *)
Definition round_half_even (n d : Z) : Z :=
  let q := n / d in
  let r := n mod d in
  if 2 * r <? d then q
  else if d <? 2 * r then q + 1
  else if Z.even q then q else q + 1.

(** The integer part of the binary logarithm of [n / d], for [0 < n],
    [0 < d]. *)
Definition quotient_log2 (n d : Z) : Z :=
  let l := Z.log2 n - Z.log2 d in
  if (if 0 <=? l then n <? d * 2 ^ l else n * 2 ^ (- l) <? d)
  then l - 1 else l.

(** The double nearest to [n / d], as mantissa and exponent [(m, e)] of
    the value [m * 2 ^ e]: 53 bits of mantissa, and no exponent below that
    of the subnormal numbers. *)
Definition double_of_quotient (n d : Z) : Z * Z :=
  let e := Z.max (-1074) (quotient_log2 n d - 52) in
  (if 0 <=? e then round_half_even n (d * 2 ^ e)
   else round_half_even (n * 2 ^ (- e)) d,
   e).

(** [int(a / b)] for [b <> 0]; [None] is [OverflowError]. *)
Definition py_int_truediv (a b : Z) : option Z :=
  let '(m, e) := double_of_quotient (Z.abs a) (Z.abs b) in
  if 0 <=? e then
    if 2 ^ 1024 <=? m * 2 ^ e then None
    else Some (Z.sgn a * Z.sgn b * (m * 2 ^ e))
  else Some (Z.sgn a * Z.sgn b * (m / 2 ^ (- e))).
(** ** External collaborators

    What scene.py calls but does not define. *)
Class Externals (Obj : Type) := {
  (** [np.array_equal], the predicate of the region and resolution
      blocks *)
  array_equal : option Obj -> option Obj -> bool;
  (** [old == new] on AOV settings *)
  py_eq : Obj -> option Obj -> bool;
  (** [old.is_same(new)] on cameras *)
  is_same : Obj -> option Obj -> bool;
  (** [scene_synced.camera_zoom] once the camera has been set *)
  camera_zoom_of : option Obj -> option Obj;
  (** [time.perf_counter()]: what its n-th call returns, as a whole number
      of the unit the time limit is given in *)
  perf_counter : nat -> Z;
  (** whether the n-th call into the render engine succeeds *)
  core_ok : nat -> bool;
  (** [render_targets.get_frame_buffer(aov_name)], after so many engine
      calls, for a target set and a channel; [None] when it is falsy *)
  get_frame_buffer : nat -> nat -> string -> option Obj;
  (** [render_targets.get_resolved_image(frame_buffer)], after so many
      engine calls *)
  get_resolved_image : nat -> Obj -> option Obj;
  (** the tables of [rprblender.properties] *)
  rendermode_remap : string -> Z;
  filter_remap : string -> Z;
  radius_params : string -> option string;
  (** [helpers.get_user_settings()] *)
  get_user_settings : UserSettings
}.

Section Model.

Context {Obj : Type}.

(** [tile_image]: [(camera_zoom, camera_zoom)] or [(1, 1)]. *)
Inductive TileImage :=
| Tile_zoom (zoom : Obj)
| Tile_unit.

(** Modelled from the spec: an image built by
    [render_layers.prepare_image_by_layer] is a new object on every call;
    [img_id] is its identity. *)
Record Image := mkImage {
  img_id : nat;
  img_aov : string;
  img_data : Obj
}.

Record RenderLayers := mkRenderLayers {
  layers_aov : option Obj;
  layers_targets : nat
}.

Record SceneSynced := mkSceneSynced {
  synced_camera : option Obj;
  camera_zoom : option Obj
}.

(** What the code does to its collaborators, and the calls recorded by the
    [call_logger.logged] decorator. *)
Inductive Event :=
| ContextSetParameter1u (name : string) (v : UInt)
| ContextSetParameter1f (name : string)
| ContextRender
| ContextRenderTile (render_region resolution : Obj)
| RenderTargets_clear (rt : nat)
| RenderTargets_get_resolved_image (rt : nat) (frame_buffer : Obj)
| PostEffect_start_update
| PostEffect_enable (effect : string)
| PostEffect_set_param (param : string)
| detach_render_target (rt : nat)
| attach_render_target (rt : nat)
| RenderTargets_init (rt : nat) (resolution : option Obj)
| RenderLayers_init (aov_settings : option Obj) (rt : nat)
| RenderLayers_update (aov : option Obj)
| prepare_image_by_layer (aov_name : string) (im : Obj)
| SceneSynced_set_render_camera (camera : option Obj)
| Called (function : string) (arg : option Obj).

(** The attributes of a [SceneRenderer] that its methods read or write.
    [render_targets] is the identity of the target set, [None] while there
    is none; the device and the post-effect chain are reached through the
    events. *)
Record SceneRenderer := mkSceneRenderer {
  im_tile : option TileImage;
  im_iteration : option nat;
  im_prepared : gmap string Image;
  iteration_in_progress : option nat;
  cache_generated : bool;
  time_in_progress : option Z;
  resolution : option Obj;
  region : option Obj;
  time_render_start : option Z;
  render_settings : RenderSettings;
  production_render : bool;
  aov_settings : option Obj;
  tile_image : option TileImage;
  is_production : bool;
  used_iterations : Z;
  iteration_divider : Z * Z;
  render_targets : option nat;
  render_layers : option RenderLayers
}.

Definition with_im_tile (x : option TileImage) (r : SceneRenderer)
  : SceneRenderer :=
  mkSceneRenderer x (im_iteration r) (im_prepared r) (iteration_in_progress r)
    (cache_generated r) (time_in_progress r) (resolution r) (region r)
    (time_render_start r) (render_settings r) (production_render r)
    (aov_settings r) (tile_image r) (is_production r) (used_iterations r)
    (iteration_divider r) (render_targets r) (render_layers r).
Definition with_im_iteration (x : option nat) (r : SceneRenderer)
  : SceneRenderer :=
  mkSceneRenderer (im_tile r) x (im_prepared r) (iteration_in_progress r)
    (cache_generated r) (time_in_progress r) (resolution r) (region r)
    (time_render_start r) (render_settings r) (production_render r)
    (aov_settings r) (tile_image r) (is_production r) (used_iterations r)
    (iteration_divider r) (render_targets r) (render_layers r).
Definition with_im_prepared (x : gmap string Image) (r : SceneRenderer)
  : SceneRenderer :=
  mkSceneRenderer (im_tile r) (im_iteration r) x (iteration_in_progress r)
    (cache_generated r) (time_in_progress r) (resolution r) (region r)
    (time_render_start r) (render_settings r) (production_render r)
    (aov_settings r) (tile_image r) (is_production r) (used_iterations r)
    (iteration_divider r) (render_targets r) (render_layers r).
Definition with_iteration_in_progress (x : option nat) (r : SceneRenderer)
  : SceneRenderer :=
  mkSceneRenderer (im_tile r) (im_iteration r) (im_prepared r) x
    (cache_generated r) (time_in_progress r) (resolution r) (region r)
    (time_render_start r) (render_settings r) (production_render r)
    (aov_settings r) (tile_image r) (is_production r) (used_iterations r)
    (iteration_divider r) (render_targets r) (render_layers r).
Definition with_cache_generated (x : bool) (r : SceneRenderer)
  : SceneRenderer :=
  mkSceneRenderer (im_tile r) (im_iteration r) (im_prepared r)
    (iteration_in_progress r) x (time_in_progress r) (resolution r) (region r)
    (time_render_start r) (render_settings r) (production_render r)
    (aov_settings r) (tile_image r) (is_production r) (used_iterations r)
    (iteration_divider r) (render_targets r) (render_layers r).
Definition with_time_in_progress (x : option Z) (r : SceneRenderer)
  : SceneRenderer :=
  mkSceneRenderer (im_tile r) (im_iteration r) (im_prepared r)
    (iteration_in_progress r) (cache_generated r) x (resolution r) (region r)
    (time_render_start r) (render_settings r) (production_render r)
    (aov_settings r) (tile_image r) (is_production r) (used_iterations r)
    (iteration_divider r) (render_targets r) (render_layers r).
Definition with_resolution (x : option Obj) (r : SceneRenderer)
  : SceneRenderer :=
  mkSceneRenderer (im_tile r) (im_iteration r) (im_prepared r)
    (iteration_in_progress r) (cache_generated r) (time_in_progress r) x
    (region r) (time_render_start r) (render_settings r) (production_render r)
    (aov_settings r) (tile_image r) (is_production r) (used_iterations r)
    (iteration_divider r) (render_targets r) (render_layers r).
Definition with_region (x : option Obj) (r : SceneRenderer) : SceneRenderer :=
  mkSceneRenderer (im_tile r) (im_iteration r) (im_prepared r)
    (iteration_in_progress r) (cache_generated r) (time_in_progress r)
    (resolution r) x (time_render_start r) (render_settings r)
    (production_render r) (aov_settings r) (tile_image r) (is_production r)
    (used_iterations r) (iteration_divider r) (render_targets r)
    (render_layers r).
Definition with_time_render_start (x : option Z) (r : SceneRenderer)
  : SceneRenderer :=
  mkSceneRenderer (im_tile r) (im_iteration r) (im_prepared r)
    (iteration_in_progress r) (cache_generated r) (time_in_progress r)
    (resolution r) (region r) x (render_settings r) (production_render r)
    (aov_settings r) (tile_image r) (is_production r) (used_iterations r)
    (iteration_divider r) (render_targets r) (render_layers r).
Definition with_render_settings (x : RenderSettings) (r : SceneRenderer)
  : SceneRenderer :=
  mkSceneRenderer (im_tile r) (im_iteration r) (im_prepared r)
    (iteration_in_progress r) (cache_generated r) (time_in_progress r)
    (resolution r) (region r) (time_render_start r) x (production_render r)
    (aov_settings r) (tile_image r) (is_production r) (used_iterations r)
    (iteration_divider r) (render_targets r) (render_layers r).
Definition with_production_render (x : bool) (r : SceneRenderer)
  : SceneRenderer :=
  mkSceneRenderer (im_tile r) (im_iteration r) (im_prepared r)
    (iteration_in_progress r) (cache_generated r) (time_in_progress r)
    (resolution r) (region r) (time_render_start r) (render_settings r) x
    (aov_settings r) (tile_image r) (is_production r) (used_iterations r)
    (iteration_divider r) (render_targets r) (render_layers r).
Definition with_aov_settings (x : option Obj) (r : SceneRenderer)
  : SceneRenderer :=
  mkSceneRenderer (im_tile r) (im_iteration r) (im_prepared r)
    (iteration_in_progress r) (cache_generated r) (time_in_progress r)
    (resolution r) (region r) (time_render_start r) (render_settings r)
    (production_render r) x (tile_image r) (is_production r)
    (used_iterations r) (iteration_divider r) (render_targets r)
    (render_layers r).
Definition with_tile_image (x : option TileImage) (r : SceneRenderer)
  : SceneRenderer :=
  mkSceneRenderer (im_tile r) (im_iteration r) (im_prepared r)
    (iteration_in_progress r) (cache_generated r) (time_in_progress r)
    (resolution r) (region r) (time_render_start r) (render_settings r)
    (production_render r) (aov_settings r) x (is_production r)
    (used_iterations r) (iteration_divider r) (render_targets r)
    (render_layers r).
Definition with_is_production (x : bool) (r : SceneRenderer) : SceneRenderer :=
  mkSceneRenderer (im_tile r) (im_iteration r) (im_prepared r)
    (iteration_in_progress r) (cache_generated r) (time_in_progress r)
    (resolution r) (region r) (time_render_start r) (render_settings r)
    (production_render r) (aov_settings r) (tile_image r) x
    (used_iterations r) (iteration_divider r) (render_targets r)
    (render_layers r).
Definition with_used_iterations (x : Z) (r : SceneRenderer) : SceneRenderer :=
  mkSceneRenderer (im_tile r) (im_iteration r) (im_prepared r)
    (iteration_in_progress r) (cache_generated r) (time_in_progress r)
    (resolution r) (region r) (time_render_start r) (render_settings r)
    (production_render r) (aov_settings r) (tile_image r) (is_production r) x
    (iteration_divider r) (render_targets r) (render_layers r).
Definition with_iteration_divider (x : Z * Z) (r : SceneRenderer)
  : SceneRenderer :=
  mkSceneRenderer (im_tile r) (im_iteration r) (im_prepared r)
    (iteration_in_progress r) (cache_generated r) (time_in_progress r)
    (resolution r) (region r) (time_render_start r) (render_settings r)
    (production_render r) (aov_settings r) (tile_image r) (is_production r)
    (used_iterations r) x (render_targets r) (render_layers r).
Definition with_render_targets (x : option nat) (r : SceneRenderer)
  : SceneRenderer :=
  mkSceneRenderer (im_tile r) (im_iteration r) (im_prepared r)
    (iteration_in_progress r) (cache_generated r) (time_in_progress r)
    (resolution r) (region r) (time_render_start r) (render_settings r)
    (production_render r) (aov_settings r) (tile_image r) (is_production r)
    (used_iterations r) (iteration_divider r) x (render_layers r).
Definition with_render_layers (x : option RenderLayers) (r : SceneRenderer)
  : SceneRenderer :=
  mkSceneRenderer (im_tile r) (im_iteration r) (im_prepared r)
    (iteration_in_progress r) (cache_generated r) (time_in_progress r)
    (resolution r) (region r) (time_render_start r) (render_settings r)
    (production_render r) (aov_settings r) (tile_image r) (is_production r)
    (used_iterations r) (iteration_divider r) (render_targets r) x.

(** The four blocks of the inbox. *)
Record UpdateData := mkUpdateData {
  ud_render_region : UpdateBlock (option Obj);
  ud_render_resolution : UpdateBlock (option Obj);
  ud_aov : UpdateBlock (option Obj);
  ud_render_camera : UpdateBlock (option Obj)
}.

Definition with_ud_render_region (x : UpdateBlock (option Obj)) (r : UpdateData)
  : UpdateData :=
  mkUpdateData x (ud_render_resolution r) (ud_aov r) (ud_render_camera r).
Definition with_ud_render_resolution (x : UpdateBlock (option Obj)) (r : UpdateData)
  : UpdateData :=
  mkUpdateData (ud_render_region r) x (ud_aov r) (ud_render_camera r).
Definition with_ud_aov (x : UpdateBlock (option Obj)) (r : UpdateData)
  : UpdateData :=
  mkUpdateData (ud_render_region r) (ud_render_resolution r) x
    (ud_render_camera r).
Definition with_ud_render_camera (x : UpdateBlock (option Obj)) (r : UpdateData)
  : UpdateData :=
  mkUpdateData (ud_render_region r) (ud_render_resolution r) (ud_aov r) x.

(** The coordinator. [thread] is the handle of its worker, an index into
    the thread objects of the state; [render_completed_event] is whether
    the event is set; [sleep_delay] and [stop_requested] are [None] until
    the attribute is first assigned. The three locks are not represented:
    the steps of the two threads are taken one after the other. *)
Record SceneRendererThreaded := mkSceneRendererThreaded {
  _need_scene_redraw : bool;
  thread : option nat;
  render_completed_event : bool;
  update_data : UpdateData;
  render_resolution : option Obj;
  aov : option Obj;
  render_region : option Obj;
  render_camera : option Obj;
  scene_synced : option SceneSynced;
  sleep_delay : option SleepDelay;
  stop_requested : option bool
}.

Definition with_need_scene_redraw (x : bool) (r : SceneRendererThreaded)
  : SceneRendererThreaded :=
  mkSceneRendererThreaded x (thread r) (render_completed_event r)
    (update_data r) (render_resolution r) (aov r) (render_region r)
    (render_camera r) (scene_synced r) (sleep_delay r) (stop_requested r).
Definition with_thread (x : option nat) (r : SceneRendererThreaded)
  : SceneRendererThreaded :=
  mkSceneRendererThreaded (_need_scene_redraw r) x (render_completed_event r)
    (update_data r) (render_resolution r) (aov r) (render_region r)
    (render_camera r) (scene_synced r) (sleep_delay r) (stop_requested r).
Definition with_render_completed_event (x : bool) (r : SceneRendererThreaded)
  : SceneRendererThreaded :=
  mkSceneRendererThreaded (_need_scene_redraw r) (thread r) x (update_data r)
    (render_resolution r) (aov r) (render_region r) (render_camera r)
    (scene_synced r) (sleep_delay r) (stop_requested r).
Definition with_update_data (x : UpdateData) (r : SceneRendererThreaded)
  : SceneRendererThreaded :=
  mkSceneRendererThreaded (_need_scene_redraw r) (thread r)
    (render_completed_event r) x (render_resolution r) (aov r)
    (render_region r) (render_camera r) (scene_synced r) (sleep_delay r)
    (stop_requested r).
Definition with_render_resolution (x : option Obj) (r : SceneRendererThreaded)
  : SceneRendererThreaded :=
  mkSceneRendererThreaded (_need_scene_redraw r) (thread r)
    (render_completed_event r) (update_data r) x (aov r) (render_region r)
    (render_camera r) (scene_synced r) (sleep_delay r) (stop_requested r).
Definition with_aov (x : option Obj) (r : SceneRendererThreaded)
  : SceneRendererThreaded :=
  mkSceneRendererThreaded (_need_scene_redraw r) (thread r)
    (render_completed_event r) (update_data r) (render_resolution r) x
    (render_region r) (render_camera r) (scene_synced r) (sleep_delay r)
    (stop_requested r).
Definition with_render_region (x : option Obj) (r : SceneRendererThreaded)
  : SceneRendererThreaded :=
  mkSceneRendererThreaded (_need_scene_redraw r) (thread r)
    (render_completed_event r) (update_data r) (render_resolution r) (aov r) x
    (render_camera r) (scene_synced r) (sleep_delay r) (stop_requested r).
Definition with_render_camera (x : option Obj) (r : SceneRendererThreaded)
  : SceneRendererThreaded :=
  mkSceneRendererThreaded (_need_scene_redraw r) (thread r)
    (render_completed_event r) (update_data r) (render_resolution r) (aov r)
    (render_region r) x (scene_synced r) (sleep_delay r) (stop_requested r).
Definition with_scene_synced (x : option SceneSynced) (r : SceneRendererThreaded)
  : SceneRendererThreaded :=
  mkSceneRendererThreaded (_need_scene_redraw r) (thread r)
    (render_completed_event r) (update_data r) (render_resolution r) (aov r)
    (render_region r) (render_camera r) x (sleep_delay r) (stop_requested r).
Definition with_sleep_delay (x : option SleepDelay) (r : SceneRendererThreaded)
  : SceneRendererThreaded :=
  mkSceneRendererThreaded (_need_scene_redraw r) (thread r)
    (render_completed_event r) (update_data r) (render_resolution r) (aov r)
    (render_region r) (render_camera r) (scene_synced r) x (stop_requested r).
Definition with_stop_requested (x : option bool) (r : SceneRendererThreaded)
  : SceneRendererThreaded :=
  mkSceneRendererThreaded (_need_scene_redraw r) (thread r)
    (render_completed_event r) (update_data r) (render_resolution r) (aov r)
    (render_region r) (render_camera r) (scene_synced r) (sleep_delay r) x.

(** The whole state: the renderer, its coordinator, the thread objects
    ever started, the target sets attached to the render device, the
    identity of the next object built, and how often the clock and the
    engine have been used. *)
Record World := mkWorld {
  sr : SceneRenderer;
  srt : SceneRendererThreaded;
  threads : list RenderThread;
  attached : list nat;
  next_id : nat;
  clock_reads : nat;
  native_calls : nat
}.

Definition with_sr (x : SceneRenderer) (r : World) : World :=
  mkWorld x (srt r) (threads r) (attached r) (next_id r) (clock_reads r)
    (native_calls r).
Definition with_srt (x : SceneRendererThreaded) (r : World) : World :=
  mkWorld (sr r) x (threads r) (attached r) (next_id r) (clock_reads r)
    (native_calls r).
Definition with_threads (x : list RenderThread) (r : World) : World :=
  mkWorld (sr r) (srt r) x (attached r) (next_id r) (clock_reads r)
    (native_calls r).
Definition with_attached (x : list nat) (r : World) : World :=
  mkWorld (sr r) (srt r) (threads r) x (next_id r) (clock_reads r)
    (native_calls r).
Definition with_next_id (x : nat) (r : World) : World :=
  mkWorld (sr r) (srt r) (threads r) (attached r) x (clock_reads r)
    (native_calls r).
Definition with_clock_reads (x : nat) (r : World) : World :=
  mkWorld (sr r) (srt r) (threads r) (attached r) (next_id r) x
    (native_calls r).
Definition with_native_calls (x : nat) (r : World) : World :=
  mkWorld (sr r) (srt r) (threads r) (attached r) (next_id r) (clock_reads r)
    x.

Definition block_of (blk : BlockId) (ud : UpdateData)
  : UpdateBlock (option Obj) :=
  match blk with
  | B_render_region => ud_render_region ud
  | B_render_resolution => ud_render_resolution ud
  | B_aov => ud_aov ud
  | B_render_camera => ud_render_camera ud
  end.

Definition with_block (blk : BlockId) (b : UpdateBlock (option Obj))
    (ud : UpdateData) : UpdateData :=
  match blk with
  | B_render_region => with_ud_render_region b ud
  | B_render_resolution => with_ud_render_resolution b ud
  | B_aov => with_ud_aov b ud
  | B_render_camera => with_ud_render_camera b ud
  end.

Local Open Scope py_scope.

Abbreviation Py := (M Event World).

Definition upd_sr (f : SceneRenderer -> SceneRenderer) : Py unit :=
  modify (fun w => with_sr (f (sr w)) w).

Definition upd_srt (f : SceneRendererThreaded -> SceneRendererThreaded)
  : Py unit :=
  modify (fun w => with_srt (f (srt w)) w).

Definition the_block (blk : BlockId) : Py (UpdateBlock (option Obj)) :=
  gets (fun w => block_of blk (update_data (srt w))).

Definition upd_block (blk : BlockId) (b : UpdateBlock (option Obj))
  : Py unit :=
  upd_srt (fun c => with_update_data (with_block blk b (update_data c)) c).

(** A new object and its identity. *)
Definition new_object : Py nat :=
  fun w => (Ok (next_id w), with_next_id (S (next_id w)) w, []).

(** Modelled from the spec: the render device keeps the target sets that
    are attached to it; attaching adds one, detaching removes it. *)
Definition device_attach (rt : nat) : Py unit :=
  emit (attach_render_target rt);;
  modify (fun w => with_attached (attached w ++ [rt]) w).

Definition device_detach (rt : nat) : Py unit :=
  emit (detach_render_target rt);;
  modify (fun w =>
    with_attached (filter (fun x => x <> rt) (attached w)) w).

(** The attached target sets after a run of events. *)
Definition attached_step (att : list nat) (ev : Event) : list nat :=
  match ev with
  | attach_render_target rt => att ++ [rt]
  | detach_render_target rt => filter (fun x => x <> rt) att
  | _ => att
  end.

Definition attached_after (att : list nat) (evs : list Event) : list nat :=
  foldl attached_step att evs.

(** ** SceneRenderer *)

Definition SceneRenderer_init (rs : RenderSettings) (is_production : bool)
  : SceneRenderer :=
  {| im_tile := None;
     im_iteration := None;
     im_prepared := ∅;
     iteration_in_progress := None;
     cache_generated := false;
     time_in_progress := None;
     resolution := None;
     region := None;
     time_render_start := None;
     render_settings := rs;
     production_render := false;
     aov_settings := None;
     tile_image := None;
     is_production := is_production;
     used_iterations := 1;
     iteration_divider := (1, 1);
     render_targets := None;
     render_layers := None |}.

Definition SceneRenderer_update_render_resolution
    (render_resolution : option Obj) : Py unit :=
  emit (Called "SceneRenderer.update_render_resolution" render_resolution);;
  upd_sr (with_render_layers None);;
  old <- gets (fun w => render_targets (sr w));;
  match old with
  | Some rt =>
      device_detach rt;;
      upd_sr (with_render_targets None)
  | None => ret tt
  end;;
  upd_sr (with_resolution render_resolution);;
  res <- gets (fun w => resolution (sr w));;
  rt <- new_object;;
  emit (RenderTargets_init rt res);;
  upd_sr (with_render_targets (Some rt));;
  aov <- gets (fun w => aov_settings (sr w));;
  emit (RenderLayers_init aov rt);;
  upd_sr (with_render_layers (Some (mkRenderLayers aov rt)));;
  device_attach rt.

Definition SceneRenderer_update_render_region (render_region : option Obj)
  : Py unit :=
  emit (Called "SceneRenderer.update_render_region" render_region);;
  upd_sr (with_region render_region).

Definition SceneRenderer_update_aov (aov : option Obj) : Py unit :=
  emit (Called "SceneRenderer.update_aov" aov);;
  upd_sr (with_aov_settings aov).

Context {ext : Externals Obj}.

(** [time.perf_counter()]: the next reading of the clock. *)
Definition time_perf_counter : Py Z :=
  fun w =>
    (Ok (perf_counter (clock_reads w)),
     with_clock_reads (S (clock_reads w)) w, []).

(** A call into the engine made under [core_operations(raise_error=True)]:
    it happens, or the engine's error is raised. *)
Definition core_call (ev : Event) : Py unit :=
  fun w =>
    let w' := with_native_calls (S (native_calls w)) w in
    if core_ok (native_calls w)
    then (Ok tt, w', [ev])
    else (Raise CoreError, w', []).

Definition update_tone_mapping (settings : RenderSettings) : Py bool :=
  let tm := tone_mapping settings in
  if negb (tm_enable tm) then ret false
  else if String.eqb (tm_type tm) "simplified" then
    core_call (PostEffect_enable "POST_EFFECT_SIMPLE_TONEMAP");;
    core_call (PostEffect_set_param "exposure");;
    core_call (PostEffect_set_param "contrast");;
    core_call (ContextSetParameter1u "tonemapping.type"
                 (U_pyrpr "TONEMAPPING_OPERATOR_NONE"));;
    ret true
  else if String.eqb (tm_type tm) "linear" then
    core_call (PostEffect_enable "POST_EFFECT_TONE_MAP");;
    core_call (ContextSetParameter1u "tonemapping.type"
                 (U_pyrpr "TONEMAPPING_OPERATOR_PHOTOLINEAR"));;
    core_call (ContextSetParameter1f "tonemapping.photolinear.sensitivity");;
    core_call (ContextSetParameter1f "tonemapping.photolinear.exposure");;
    core_call (ContextSetParameter1f "tonemapping.photolinear.fstop");;
    ret true
  else if String.eqb (tm_type tm) "non_linear" then
    core_call (PostEffect_enable "POST_EFFECT_TONE_MAP");;
    core_call (ContextSetParameter1u "tonemapping.type"
                 (U_pyrpr "TONEMAPPING_OPERATOR_REINHARD02"));;
    core_call (ContextSetParameter1f "tonemapping.reinhard02.prescale");;
    core_call (ContextSetParameter1f "tonemapping.reinhard02.postscale");;
    core_call (ContextSetParameter1f "tonemapping.reinhard02.burn");;
    ret true
  else raise AssertionError.

Definition update_white_balance (settings : RenderSettings) : Py bool :=
  let wb := white_balance settings in
  if negb (wb_enable wb) then ret false
  else
    core_call (PostEffect_enable "POST_EFFECT_WHITE_BALANCE");;
    core_call (PostEffect_set_param "colorspace");;
    core_call (PostEffect_set_param "colortemp");;
    ret true.

Definition update_gamma_correction (settings : RenderSettings)
  : Py bool :=
  let gm := gamma_correction settings in
  if negb (gm_enable gm) then ret false
  else
    production_render <- gets (fun w => production_render (sr w));;
    if gm_viewport_only gm && production_render then ret false
    else
      core_call (PostEffect_enable "POST_EFFECT_GAMMA_CORRECTION");;
      core_call (ContextSetParameter1f "displaygamma");;
      ret true.

(** *** The refine generator [_render_proc] *)

(** The local variables of a suspended [_render_proc]. [render_region]
    keeps the region and the resolution it is scaled by. *)
Record Frame := mkFrame {
  f_rs : RenderSettings;
  f_samples : Z;
  f_time_start : Z;
  f_time_local_total : Z;
  f_timestamp_operation_last : Z;
  f_render_region : option (Obj * Obj);
  f_i : nat
}.

Inductive Generator :=
| Gen_created
| Gen_suspended (f : Frame)
| Gen_finished.

(** The effective sample count of an 'ITER' cycle. *)
Definition effective_samples (is_production : bool) (settings : UserSettings)
  : Z :=
  let numGPUs := used_gpu_count settings in
  let user_set_samples := samples settings in
  if is_production && String.eqb (device_type settings) "gpu"
     && device_type_plus_cpu settings
  then 100
  else if (user_set_samples <? numGPUs) && is_production then numGPUs
  else user_set_samples.

(** The sample count of the cycle, with the iteration limit recomputed
    for an 'ITER' limit. The quotient
    [int(iterations * user_set_samples / samples)] is taken on integers,
    rounding toward zero. The code takes it through a double
    ([py_int_truediv]), which gives the same number as long as the product
    is below 2^53 in absolute value; every statement about the iteration
    count is made under that bound. [iteration_divider] keeps the two
    numbers it is the quotient of. *)
Definition render_proc_samples (rs : RenderSettings) : Py Z :=
  let settings := get_user_settings in
  let user_set_samples := samples settings in
  if limits_enable (rendering_limits rs) then
    if String.eqb "ITER" (limits_type (rendering_limits rs)) then
      is_production <- gets (fun w => is_production (sr w));;
      let samples := effective_samples is_production settings in
      (if samples =? 0 then raise ZeroDivisionError else ret tt);;
      upd_sr (with_used_iterations
        (Z.quot (limits_iterations (rendering_limits rs) * user_set_samples)
                samples));;
      upd_sr (with_iteration_divider (user_set_samples, samples));;
      used <- gets (fun w => used_iterations (sr w));;
      (if used <? 1 then
         upd_sr (with_used_iterations 1);;
         upd_sr (with_iteration_divider (1, 1))
       else ret tt);;
      ret samples
    else ret user_set_samples
  else ret user_set_samples.

(** The rest of the code before the loop: the clock is read, the region
    scaled, the settings handed to the engine in one batch, and the
    accumulation buffers cleared. *)
Definition render_proc_apply (rs : RenderSettings) (samples : Z) : Py Frame :=
  time_start <- time_perf_counter;;
  upd_sr (with_time_render_start (Some time_start));;
  let time_local_total := 0 in
  upd_sr (with_iteration_in_progress None);;
  render_resolution <- gets (fun w => resolution (sr w));;
  region <- gets (fun w => region (sr w));;
  render_region <-
    match region with
    | Some r =>
        match render_resolution with
        | Some res => ret (Some (r, res))
        | None => raise TypeError
        end
    | None => ret None
    end;;
  timestamp_operation_last <- time_perf_counter;;
  core_call (ContextSetParameter1u "rendermode"
               (U_int (rendermode_remap (render_mode rs))));;
  core_call (ContextSetParameter1u "aasamples" (U_int samples));;
  core_call (ContextSetParameter1f "radianceclamp");;
  production_render <- gets (fun w => production_render (sr w));;
  core_call (ContextSetParameter1u "maxRecursion"
               (U_int (get_max_ray_depth rs production_render)));;
  core_call (ContextSetParameter1u "imagefilter.type"
               (U_int (filter_remap (aa_filter rs))));;
  match radius_params (aa_filter rs) with
  | Some param => core_call (ContextSetParameter1f param)
  | None => ret tt
  end;;
  timstamp_operation <- time_perf_counter;;
  let time_local_total :=
    time_local_total + (timstamp_operation - timestamp_operation_last) in
  let timestamp_operation_last := timstamp_operation in
  targets <- gets (fun w => render_targets (sr w));;
  match targets with
  | Some rt => core_call (RenderTargets_clear rt)
  | None => raise AttributeError
  end;;
  ret {| f_rs := rs;
         f_samples := samples;
         f_time_start := time_start;
         f_time_local_total := time_local_total;
         f_timestamp_operation_last := timestamp_operation_last;
         f_render_region := render_region;
         f_i := 0 |}.

(** The part of [_render_proc] before its loop. *)
Definition render_proc_setup : Py Frame :=
  rs <- gets (fun w => render_settings (sr w));;
  samples <- render_proc_samples rs;;
  render_proc_apply rs samples.

(** The code after the loop only logs; its last message divides by the
    time the cycle took. The generator then returns, which [next] reports
    as [StopIteration]. *)
Definition render_proc_finish {A} (f : Frame) : Py A :=
  now <- time_perf_counter;;
  let time_delta := now - f_time_start f in
  if time_delta =? 0 then raise ZeroDivisionError
  else raise StopIteration.

(** The limit test at the top of the loop: [true] is [break]. *)
Definition limit_reached (f : Frame) (i : nat) : Py bool :=
  let rendering_limits := rendering_limits (f_rs f) in
  if limits_enable rendering_limits then
    if String.eqb "TIME" (limits_type rendering_limits) then
      if negb (limits_time rendering_limits =? 0) then
        now <- time_perf_counter;;
        ret (limits_time rendering_limits <=? now - f_time_start f)
      else ret false
    else if String.eqb "ITER" (limits_type rendering_limits) then
      used <- gets (fun w => used_iterations (sr w));;
      ret (negb (used =? 0) && (used <=? Z.of_nat i))
    else ret false
  else ret false.

(** The body of the loop after the limit test, up to its [yield]. *)
Definition render_proc_render (f : Frame) (i : nat) : Py Generator :=
  upd_sr (with_iteration_in_progress (Some i));;
  now <- time_perf_counter;;
  upd_sr (with_time_in_progress (Some (now - f_time_start f)));;
  timestamp_operation_last <- time_perf_counter;;
  match f_render_region f with
  | None => core_call ContextRender
  | Some (r, res) => core_call (ContextRenderTile r res)
  end;;
  upd_sr (with_cache_generated true);;
  tile_image <- gets (fun w => tile_image (sr w));;
  upd_sr (with_im_tile tile_image);;
  upd_sr (with_im_iteration (Some i));;
  upd_sr (with_im_prepared ∅);;
  timstamp_operation <- time_perf_counter;;
  ret (Gen_suspended
    {| f_rs := f_rs f;
       f_samples := f_samples f;
       f_time_start := f_time_start f;
       f_time_local_total :=
         f_time_local_total f
           + (timstamp_operation - timestamp_operation_last);
       f_timestamp_operation_last := timstamp_operation;
       f_render_region := f_render_region f;
       f_i := i |}).

(** One pass of [for i in itertools.count()] up to its [yield]. *)
Definition render_proc_iteration (f : Frame) (i : nat) : Py Generator :=
  stop <- limit_reached f i;;
  if stop : bool then render_proc_finish f
  else render_proc_render f i.

(** [next(render_iter)]: run the generator to its next [yield]. [Ok false]
    is the value yielded; an exception, [StopIteration] included, finishes
    the generator. *)
Definition next (g : Generator) (w : World)
  : Res bool * Generator * World * list Event :=
  let body :=
    match g with
    | Gen_created => f <- render_proc_setup;; render_proc_iteration f 0
    | Gen_suspended f => render_proc_iteration f (S (f_i f))
    | Gen_finished => raise StopIteration
    end in
  match body w with
  | (Ok g', w', evs) => (Ok false, g', w', evs)
  | (Raise e, w', evs) => (Raise e, Gen_finished, w', evs)
  end.

(** [render_proc()] is [yield from self._render_proc()]: a new generator,
    nothing run yet. *)
Definition SceneRenderer_render_proc : Generator := Gen_created.

(** Drive a generator: the number of values it yields within [fuel] calls
    of [next], the exception that ended it (none when the fuel ran out
    first), and what is left. *)
Fixpoint drive (fuel : nat) (g : Generator) (w : World)
  : nat * option Exn * Generator * World :=
  match fuel with
  | O => (O, None, g, w)
  | S fuel' =>
      match next g w with
      | (Ok _, g', w', _) =>
          let '(n, e, g'', w'') := drive fuel' g' w' in (S n, e, g'', w'')
      | (Raise e, g', w', _) => (O, Some e, g', w')
      end
  end.

(** The tone-mapping types [update_tone_mapping] knows. *)
Definition tone_mapping_known (tm : ToneMapping) : bool :=
  negb (tm_enable tm)
  || String.eqb (tm_type tm) "simplified"
  || String.eqb (tm_type tm) "linear"
  || String.eqb (tm_type tm) "non_linear".

Definition get_image_tile : Py (option TileImage) :=
  gets (fun w => im_tile (sr w)).

(** The post-effect chain is rebuilt for the channel that is resolved:
    normalization always, and for the default channel tone mapping, white
    balance and gamma. *)
Definition rebuild_post_effects (aov_name : string) : Py unit :=
  core_call PostEffect_start_update;;
  core_call (PostEffect_enable "POST_EFFECT_NORMALIZATION");;
  if String.eqb aov_name "default" then
    settings <- gets (fun w => render_settings (sr w));;
    update_tone_mapping settings;;
    update_white_balance settings;;
    update_gamma_correction settings;;
    ret tt
  else ret tt.

Definition get_image (aov_name : string) : Py (option Image) :=
  cache <- gets (fun w => im_prepared (sr w));;
  match cache !! aov_name with
  | Some im => ret (Some im)
  | None =>
      targets <- gets (fun w => render_targets (sr w));;
      match targets with
      | None => raise AttributeError
      | Some rt =>
          calls <- gets native_calls;;
          match get_frame_buffer calls rt aov_name with
          | None => ret None
          | Some frame_buffer =>
              rebuild_post_effects aov_name;;
              calls <- gets native_calls;;
              core_call (RenderTargets_get_resolved_image rt frame_buffer);;
              match get_resolved_image calls frame_buffer with
              | Some im =>
                  layers <- gets (fun w => render_layers (sr w));;
                  match layers with
                  | None => raise AttributeError
                  | Some _ =>
                      id <- new_object;;
                      emit (prepare_image_by_layer aov_name im);;
                      upd_sr (fun r =>
                        with_im_prepared
                          (<[aov_name := mkImage id aov_name im]>
                             (im_prepared r)) r)
                  end
              | None => ret tt
              end;;
              cache <- gets (fun w => im_prepared (sr w));;
              ret (cache !! aov_name)
          end
      end
  end.

(** ** UpdateData and SceneRendererThreaded *)

(** [UpdateBlock.__init__(value=None, has_value=True, equal=operator.eq)]:
    a block built without [has_value] starts with its value pending. *)
Definition UpdateBlock_default_has_value : bool := true.

Definition UpdateBlock_init (value : option Obj) (has_value : bool)
    (equal : option Obj -> option Obj -> bool) : UpdateBlock (option Obj) :=
  {| value := value; has_value := has_value; equal := equal |}.

(** [lambda old, new: old is not None and old == new]. *)
Definition aov_equal (old new : option Obj) : bool :=
  match old with
  | None => false
  | Some o => py_eq o new
  end.

(** [lambda old, new: old is not None and old.is_same(new)]. *)
Definition camera_equal (old new : option Obj) : bool :=
  match old with
  | None => false
  | Some o => is_same o new
  end.

Definition UpdateData_init : UpdateData :=
  {| ud_render_region :=
       UpdateBlock_init None UpdateBlock_default_has_value array_equal;
     ud_render_resolution := UpdateBlock_init None false array_equal;
     ud_aov := UpdateBlock_init None false aov_equal;
     ud_render_camera := UpdateBlock_init None false camera_equal |}.

(** [sleep_delay] and [stop_requested] are attributes only [start] and
    [_start] (or [stop]) create. *)
Definition SceneRendererThreaded_init : SceneRendererThreaded :=
  {| _need_scene_redraw := false;
     thread := None;
     render_completed_event := false;
     update_data := UpdateData_init;
     render_resolution := None;
     aov := None;
     render_region := None;
     render_camera := None;
     scene_synced := None;
     sleep_delay := None;
     stop_requested := None |}.

(** A coordinator and the renderer it wraps, nothing run yet. *)
Definition World_init (scene_renderer : SceneRenderer) : World :=
  {| sr := scene_renderer;
     srt := SceneRendererThreaded_init;
     threads := [];
     attached := [];
     next_id := 0;
     clock_reads := 0;
     native_calls := 0 |}.

Definition UpdateBlock_pop_value (blk : BlockId) : Py (option Obj) :=
  emit (Called "UpdateBlock.pop_value" None);;
  b <- the_block blk;;
  upd_block blk (pop_value b).2;;
  ret (pop_value b).1.

(** Of the calls [update_block] makes on a block, [set_value] is recorded
    by the call logger and [del_value] is not. *)
Definition block_call_event (c : BlockCall (option Obj)) : option Event :=
  match c with
  | Call_set_value v => Some (Called "UpdateBlock.set_value" v)
  | Call_del_value => None
  end.

(** [SceneRendererThreaded.update_block], on the block of [update_data]
    the caller names. *)
Definition SceneRendererThreaded_update_block (blk : BlockId)
    (block_value_current block_value_new : option Obj) : Py unit :=
  b <- the_block blk;;
  (fun w =>
     (Ok tt, w,
      omap block_call_event
        (update_block_calls b block_value_current block_value_new)));;
  upd_block blk (update_block b block_value_current block_value_new).

(** The setter of the [need_scene_redraw] property. *)
Definition set_need_scene_redraw (v : bool) : Py unit :=
  upd_srt (with_render_completed_event false);;
  upd_srt (with_need_scene_redraw v).

Definition _set_render_camera (camera : option Obj) : Py unit :=
  upd_srt (with_render_camera camera);;
  synced <- gets (fun w => scene_synced (srt w));;
  match synced with
  | None => raise AttributeError
  | Some _ =>
      emit (SceneSynced_set_render_camera camera);;
      upd_srt (with_scene_synced
        (Some (mkSceneSynced camera (camera_zoom_of camera))));;
      match camera_zoom_of camera with
      | Some zoom => upd_sr (with_tile_image (Some (Tile_zoom zoom)))
      | None => upd_sr (with_tile_image (Some Tile_unit))
      end
  end.

Definition consume_aov : Py unit :=
  a <- UpdateBlock_pop_value B_aov;;
  upd_srt (with_aov a);;
  a <- gets (fun w => aov (srt w));;
  upd_sr (with_aov_settings a).

Definition check_updates : Py unit :=
  resolution_block <- the_block B_render_resolution;;
  (if has_value resolution_block then
     r <- UpdateBlock_pop_value B_render_resolution;;
     upd_srt (with_render_resolution r);;
     aov_block <- the_block B_aov;;
     (if has_value aov_block then consume_aov else ret tt);;
     r <- gets (fun w => render_resolution (srt w));;
     SceneRenderer_update_render_resolution r;;
     set_need_scene_redraw true
   else
     aov_block <- the_block B_aov;;
     if has_value aov_block then
       consume_aov;;
       layers <- gets (fun w => render_layers (sr w));;
       a <- gets (fun w => aov (srt w));;
       match layers with
       | None => raise AttributeError
       | Some l =>
           emit (RenderLayers_update a);;
           upd_sr (with_render_layers
             (Some (mkRenderLayers a (layers_targets l))))
       end;;
       set_need_scene_redraw true
     else ret tt);;
  region_block <- the_block B_render_region;;
  (if has_value region_block then
     r <- UpdateBlock_pop_value B_render_region;;
     upd_srt (with_render_region r);;
     r <- gets (fun w => render_region (srt w));;
     SceneRenderer_update_render_region r;;
     set_need_scene_redraw true
   else ret tt);;
  camera_block <- the_block B_render_camera;;
  (if has_value camera_block then
     c <- UpdateBlock_pop_value B_render_camera;;
     _set_render_camera c;;
     set_need_scene_redraw true
   else ret tt).

Definition SceneRendererThreaded_set_render_resolution
    (render_resolution' : option Obj) : Py unit :=
  emit (Called "SceneRendererThreaded.set_render_resolution"
          render_resolution');;
  upd_srt (with_render_resolution render_resolution');;
  r <- gets (fun w => render_resolution (srt w));;
  SceneRenderer_update_render_resolution r.

Definition SceneRendererThreaded_update_render_resolution
    (render_resolution' : option Obj) : Py unit :=
  emit (Called "SceneRendererThreaded.update_render_resolution"
          render_resolution');;
  current <- gets (fun w => render_resolution (srt w));;
  SceneRendererThreaded_update_block B_render_resolution current
    render_resolution'.

Definition SceneRendererThreaded_set_render_region
    (render_region' : option Obj) : Py unit :=
  emit (Called "SceneRendererThreaded.set_render_region" render_region');;
  upd_srt (with_render_region render_region');;
  r <- gets (fun w => render_region (srt w));;
  SceneRenderer_update_render_region r.

Definition SceneRendererThreaded_update_render_region
    (render_region' : option Obj) : Py unit :=
  emit (Called "SceneRendererThreaded.update_render_region" render_region');;
  current <- gets (fun w => render_region (srt w));;
  SceneRendererThreaded_update_block B_render_region current render_region'.

Definition SceneRendererThreaded_set_aov (aov' : option Obj) : Py unit :=
  emit (Called "SceneRendererThreaded.set_aov" aov');;
  SceneRenderer_update_aov aov'.

Definition SceneRendererThreaded_update_aov (aov' : option Obj)
  : Py unit :=
  emit (Called "SceneRendererThreaded.update_aov" aov');;
  current <- gets (fun w => aov (srt w));;
  SceneRendererThreaded_update_block B_aov current aov'.

Definition SceneRendererThreaded_update_render_camera
    (render_camera' : option Obj) : Py unit :=
  current <- gets (fun w => render_camera (srt w));;
  SceneRendererThreaded_update_block B_render_camera current render_camera'.

Definition set_scene_synced (synced : SceneSynced) : Py unit :=
  upd_srt (with_scene_synced (Some synced)).

(** *** The worker thread and the tick

    The worker is run as a function of the state: a tick is the body of
    [SceneRendererThreaded.render_proc], run without the host thread
    stepping in between; [None] means the fuel ran out before it
    returned. *)

Definition thread_alive (tid : nat) (w : World) : bool :=
  match threads w !! tid with
  | Some th => alive th
  | None => false
  end.

Definition thread_terminate_event (tid : nat) (w : World) : bool :=
  match threads w !! tid with
  | Some th => terminate_event th
  | None => false
  end.

Definition upd_thread (tid : nat) (f : RenderThread -> RenderThread)
    (w : World) : World :=
  match threads w !! tid with
  | Some th => with_threads (<[tid := f th]> (threads w)) w
  | None => w
  end.

(** The thread's [run] has returned or raised. *)
Definition thread_exit (tid : nat) (w : World) : World :=
  upd_thread tid (fun th => mkRenderThread false (terminate_event th)) w.

(** [RenderThread.terminate]. *)
Definition RenderThread_terminate (tid : nat) (w : World) : World :=
  upd_thread tid (fun th => mkRenderThread (alive th) true) w.

Definition render_completed (w : World) : World :=
  with_srt (with_render_completed_event true (srt w)) w.

(** The result of a run that may not return within its fuel. *)
Definition Run (A : Type) : Type := option (Res A * World * list Event).

Definition after {A} (evs : list Event) (r : Run A) : Run A :=
  match r with
  | Some (x, w, evs') => Some (x, w, evs ++ evs')
  | None => None
  end.

(** [while not self.stop_requested: ...] of the tick. *)
Fixpoint render_proc_loop (fuel : nat) (render_iter : Generator) (w : World)
  : Run unit :=
  match fuel with
  | O => None
  | S fuel' =>
      match stop_requested (srt w) with
      | None => Some (Raise AttributeError, w, [])
      | Some true => Some (Ok tt, render_completed w, [])
      | Some false =>
          match check_updates w with
          | (Raise e, w1, evs1) => Some (Raise e, w1, evs1)
          | (Ok _, w1, evs1) =>
              if _need_scene_redraw (srt w1) then Some (Ok tt, w1, evs1)
              else
                match next render_iter w1 with
                | (Ok _, render_iter', w2, evs2) =>
                    match sleep_delay (srt w2) with
                    | None => Some (Raise AttributeError, w2, evs1 ++ evs2)
                    | Some _ =>
                        after (evs1 ++ evs2)
                          (render_proc_loop fuel' render_iter' w2)
                    end
                | (Raise StopIteration, _, w2, evs2) =>
                    Some (Ok tt, render_completed w2, evs1 ++ evs2)
                | (Raise e, _, w2, evs2) => Some (Raise e, w2, evs1 ++ evs2)
                end
          end
      end
  end.

Definition SceneRendererThreaded_render_proc (fuel : nat) (w : World)
  : Run unit :=
  let render_iter := SceneRenderer_render_proc in
  match check_updates w with
  | (Raise e, w1, evs1) => Some (Raise e, w1, evs1)
  | (Ok _, w1, evs1) =>
      if negb (_need_scene_redraw (srt w1)) then Some (Ok tt, w1, evs1)
      else
        let w2 :=
          with_srt
            (with_render_completed_event false
               (with_need_scene_redraw false (srt w1))) w1 in
        after evs1 (render_proc_loop fuel render_iter w2)
  end.

(** [RenderThread.run]: tick until the terminate event is set; an
    exception out of a tick ends the thread. *)
Fixpoint RenderThread_run (fuel tick_fuel : nat) (tid : nat) (w : World)
  : Run unit :=
  match fuel with
  | O => None
  | S fuel' =>
      if thread_terminate_event tid w then Some (Ok tt, thread_exit tid w, [])
      else
        match SceneRendererThreaded_render_proc tick_fuel w with
        | None => None
        | Some (Ok _, w', evs) =>
            after evs (RenderThread_run fuel' tick_fuel tid w')
        | Some (Raise e, w', evs) => Some (Raise e, thread_exit tid w', evs)
        end
  end.

Definition is_alive : Py bool :=
  t <- gets (fun w => thread (srt w));;
  match t with
  | None => raise AttributeError
  | Some tid => gets (thread_alive tid)
  end.

Definition is_render_completed : Py bool :=
  a <- is_alive;;
  if negb a then ret true
  else gets (fun w => render_completed_event (srt w)).

Definition _start : Py unit :=
  emit (Called "SceneRendererThreaded._start" None);;
  upd_srt (with_stop_requested (Some false));;
  tid <- gets (fun w => length (threads w));;
  modify (fun w => with_threads (threads w ++ [mkRenderThread true false]) w);;
  upd_srt (with_thread (Some tid)).

Definition start : Py unit :=
  upd_srt (with_sleep_delay (Some sleep_delay_interactive));;
  _start.

Definition start_noninteractive : Py unit :=
  upd_srt (with_sleep_delay (Some sleep_delay_noninteractive));;
  set_need_scene_redraw true;;
  _start.

(** [thread.join()]: returns at once for a thread that is not alive, and
    otherwise when the worker has left [run] (its exception, if any, stays
    in the worker). Here the worker is between two ticks, at the head of
    the loop of [run]; [RenderThread_run_from] and [stop_from] take a
    worker that is inside a tick. *)
Definition RenderThread_join (fuel tick_fuel : nat) (tid : nat) (w : World)
  : Run unit :=
  if thread_alive tid w then
    match RenderThread_run fuel tick_fuel tid w with
    | None => None
    | Some (_, w', evs) => Some (Ok tt, w', evs)
    end
  else Some (Ok tt, w, []).

(** [stop]. With [fuel = 0] the worker is given no step at all: a result
    then means that [stop] did not have to wait. *)
Definition stop (fuel tick_fuel : nat) (w : World) : Run unit :=
  let w1 := with_srt (with_stop_requested (Some true) (srt w)) w in
  after [Called "SceneRendererThreaded.stop" None]
    match thread (srt w1) with
    | Some tid =>
        match RenderThread_join fuel tick_fuel tid
                (RenderThread_terminate tid w1) with
        | Some (_, w2, evs) =>
            Some (Ok tt, with_srt (with_thread None (srt w2)) w2, evs)
        | None => None
        end
    | None => Some (Ok tt, w1, [])
    end.

(** *** What a run of events applied

    The changes handed to the renderer and its collaborators, read off the
    events: a resolution change is a call of
    [SceneRenderer.update_render_resolution], an incremental AOV change a
    call of [render_layers.update], a region change a call of
    [SceneRenderer.update_render_region], a camera change a call of
    [scene_synced.set_render_camera]. *)
Inductive Change :=
| Change_resolution (v : option Obj)
| Change_aov (v : option Obj)
| Change_region (v : option Obj)
| Change_camera (v : option Obj).

Definition applied_change (ev : Event) : option Change :=
  match ev with
  | Called f v =>
      if String.eqb f "SceneRenderer.update_render_resolution"
      then Some (Change_resolution v)
      else if String.eqb f "SceneRenderer.update_render_region"
      then Some (Change_region v)
      else None
  | RenderLayers_update a => Some (Change_aov a)
  | SceneSynced_set_render_camera c => Some (Change_camera c)
  | _ => None
  end.

Definition applied (evs : list Event) : list Change :=
  omap applied_change evs.

(** The resolution changes among them: each one rebuilds the render
    targets and restarts the refine cycle. *)
Definition resolution_changes (evs : list Event) : list (option Obj) :=
  omap (fun c => match c with Change_resolution v => Some v | _ => None end)
       (applied evs).

(** Two states with the same coordinator, device and object counter, and
    the same settings, targets and layers in the renderer. *)
Definition same_scene (w w' : World) : Prop :=
  srt w' = srt w
  /\ threads w' = threads w
  /\ attached w' = attached w
  /\ next_id w' = next_id w
  /\ render_settings (sr w') = render_settings (sr w)
  /\ production_render (sr w') = production_render (sr w)
  /\ is_production (sr w') = is_production (sr w)
  /\ resolution (sr w') = resolution (sr w)
  /\ region (sr w') = region (sr w)
  /\ aov_settings (sr w') = aov_settings (sr w)
  /\ render_targets (sr w') = render_targets (sr w)
  /\ render_layers (sr w') = render_layers (sr w).

(** What holds of a generator suspended in a cycle with an iteration
    limit: the frame keeps the settings, the renderer the iteration count,
    and the cycle started at an earlier reading of the clock. *)
Definition iter_cycle (rs : RenderSettings) (U : Z) (f : Frame)
    (w : World) : Prop :=
  f_rs f = rs
  /\ used_iterations (sr w) = U
  /\ exists k0, f_time_start f = perf_counter k0 /\ (k0 < clock_reads w)%nat.

(** What holds of a generator suspended in a cycle that began at clock
    reading [k]: three readings went into the code before the loop and
    four into every pass of it. *)
Definition clocked_cycle (rs : RenderSettings) (k : nat) (f : Frame)
    (w : World) : Prop :=
  f_rs f = rs
  /\ f_time_start f = perf_counter k
  /\ clock_reads w = (k + 3 + 4 * S (f_i f))%nat.

(** The time elapsed since the cycle began at reading [k], as the limit
    test of pass [i] finds it. *)
Definition elapsed_at (k i : nat) : Z :=
  perf_counter (k + 3 + 4 * i) - perf_counter k.

(** ** More of scene.py: teardown and the non-interactive render *)

(** [SceneRenderer.__del__]; the attributes [posteffect_chain] and
    [render_device] it deletes last are not represented. *)
Definition SceneRenderer_del : Py unit :=
  emit (Called "SceneRenderer.__del__" None);;
  upd_sr (with_render_layers None);;
  targets <- gets (fun w => render_targets (sr w));;
  match targets with
  | Some rt =>
      device_detach rt;;
      upd_sr (with_render_targets None)
  | None => ret tt
  end.

(** The render device has attached exactly the target set the renderer
    holds. *)
Definition targets_attached (w : World) : Prop :=
  attached w
  = match render_targets (sr w) with
    | Some rt => [rt]
    | None => []
    end.

(** [for _ in self.scene_renderer.render_proc(): ...] of
    [render_proc_noninteractive]: the generator is advanced first, then
    [stop_requested] is looked at. *)
Fixpoint render_noninteractive_loop (fuel : nat) (render_iter : Generator)
    (w : World) : Run unit :=
  match fuel with
  | O => None
  | S fuel' =>
      match next render_iter w with
      | (Ok _, render_iter', w1, evs) =>
          match stop_requested (srt w1) with
          | None => Some (Raise AttributeError, w1, evs)
          | Some true => Some (Ok tt, render_completed w1, evs)
          | Some false =>
              after evs (render_noninteractive_loop fuel' render_iter' w1)
          end
      | (Raise StopIteration, _, w1, evs) =>
          Some (Ok tt, render_completed w1, evs)
      | (Raise e, _, w1, evs) => Some (Raise e, w1, evs)
      end
  end.

Definition render_proc_noninteractive (fuel : nat) (w : World) : Run unit :=
  render_noninteractive_loop fuel SceneRenderer_render_proc
    (with_srt (with_render_completed_event false (srt w)) w).

(** Nothing is pending in the inbox. *)
Definition inbox_empty (w : World) : Prop :=
  forall blk, has_value (block_of blk (update_data (srt w))) = false.

(** The settings under which the limit test of [_render_proc] never says
    stop: limits disabled, a time limit of zero, or a limit type that is
    neither 'TIME' nor 'ITER'. *)
Definition limit_off (rs : RenderSettings) : bool :=
  let limits := rendering_limits rs in
  negb (limits_enable limits)
  || (String.eqb "TIME" (limits_type limits) && (limits_time limits =? 0))
  || (negb (String.eqb "TIME" (limits_type limits))
      && negb (String.eqb "ITER" (limits_type limits))).

(** The number of render calls among the events. *)
Definition is_render_call (ev : Event) : bool :=
  match ev with
  | ContextRender | ContextRenderTile _ _ => true
  | _ => false
  end.

Definition render_calls (evs : list Event) : nat :=
  length (List.filter is_render_call evs).


(** The state in which the loop of the tick does nothing but advance the
    generator: nothing pending, no redraw wanted, no stop requested, and a
    pacing delay to sleep for. *)
Definition steady (w : World) : Prop :=
  inbox_empty w
  /\ _need_scene_redraw (srt w) = false
  /\ stop_requested (srt w) = Some false
  /\ sleep_delay (srt w) <> None.

(** The state the loop of a tick starts from. *)
Definition tick_entry (w : World) : World :=
  let w1 := (check_updates w).1.2 in
  with_srt (with_render_completed_event false
              (with_need_scene_redraw false (srt w1))) w1.


(** The calls a host makes on the coordinator and its renderer, and the
    work of the tick: [Call_render n] is a new refine generator advanced
    [n] times. *)
Inductive HostCall :=
| Call_set_render_resolution (v : option Obj)
| Call_update_render_resolution (v : option Obj)
| Call_set_render_region (v : option Obj)
| Call_update_render_region (v : option Obj)
| Call_set_aov (v : option Obj)
| Call_update_aov (v : option Obj)
| Call_update_render_camera (v : option Obj)
| Call_set_scene_synced (s : SceneSynced)
| Call_check_updates
| Call_get_image (aov_name : string)
| Call_render (n : nat).

(** The state a call leaves, whether it returns or raises. *)
Definition run_call (c : HostCall) (w : World) : World :=
  match c with
  | Call_set_render_resolution v =>
      (SceneRendererThreaded_set_render_resolution v w).1.2
  | Call_update_render_resolution v =>
      (SceneRendererThreaded_update_render_resolution v w).1.2
  | Call_set_render_region v =>
      (SceneRendererThreaded_set_render_region v w).1.2
  | Call_update_render_region v =>
      (SceneRendererThreaded_update_render_region v w).1.2
  | Call_set_aov v => (SceneRendererThreaded_set_aov v w).1.2
  | Call_update_aov v => (SceneRendererThreaded_update_aov v w).1.2
  | Call_update_render_camera v =>
      (SceneRendererThreaded_update_render_camera v w).1.2
  | Call_set_scene_synced s => (set_scene_synced s w).1.2
  | Call_check_updates => (check_updates w).1.2
  | Call_get_image aov_name => (get_image aov_name w).1.2
  | Call_render n => (drive n SceneRenderer_render_proc w).2
  end.

Definition run_calls (cs : list HostCall) (w : World) : World :=
  foldl (fun w c => run_call c w) w cs.

(** ** The first [check_updates], and a worker caught inside a tick *)

(** The region block is still as [UpdateData()] made it: pending, with
    value [None]. *)
Definition region_as_constructed (w : World) : Prop :=
  has_value (ud_render_region (update_data (srt w))) = true
  /\ value (ud_render_region (update_data (srt w))) = None.

(** The calls that leave the region block alone: all but
    [update_render_region], which writes it, and [check_updates], which
    pops it. *)
Definition leaves_region_block (c : HostCall) : bool :=
  match c with
  | Call_update_render_region _ | Call_check_updates => false
  | _ => true
  end.

(** Where the worker is when the host thread steps in: between two ticks,
    at the head of [while not self.terminate_event.wait(...)]; inside a
    tick at the head of [while not self.stop_requested], holding the
    refine generator of that tick; or inside that loop, past the test and
    before [check_updates]. *)
Inductive WorkerAt :=
| At_run
| At_loop (render_iter : Generator)
| In_pass (render_iter : Generator).

(** How one pass of the loop of the tick ends: the loop goes on with the
    generator advanced, the tick returns from inside the loop (a redraw
    was requested), or the generator returned and the loop is left. *)
Inductive PassResult :=
| Pass_continue (render_iter : Generator)
| Pass_return
| Pass_break.

(** The body of [while not self.stop_requested] in the tick. *)
Definition render_proc_pass (render_iter : Generator) (w : World)
  : Res PassResult * World * list Event :=
  match check_updates w with
  | (Raise e, w1, evs1) => (Raise e, w1, evs1)
  | (Ok _, w1, evs1) =>
      if _need_scene_redraw (srt w1) then (Ok Pass_return, w1, evs1)
      else
        match next render_iter w1 with
        | (Ok _, render_iter', w2, evs2) =>
            match sleep_delay (srt w2) with
            | None => (Raise AttributeError, w2, evs1 ++ evs2)
            | Some _ => (Ok (Pass_continue render_iter'), w2, evs1 ++ evs2)
            end
        | (Raise StopIteration, _, w2, evs2) =>
            (Ok Pass_break, w2, evs1 ++ evs2)
        | (Raise e, _, w2, evs2) => (Raise e, w2, evs1 ++ evs2)
        end
  end.

(** The rest of the tick the worker is in. *)
Definition tick_from (fuel : nat) (p : WorkerAt) (w : World) : Run unit :=
  match p with
  | At_run => Some (Ok tt, w, [])
  | At_loop render_iter => render_proc_loop fuel render_iter w
  | In_pass render_iter =>
      match render_proc_pass render_iter w with
      | (Raise e, w1, evs) => Some (Raise e, w1, evs)
      | (Ok Pass_return, w1, evs) => Some (Ok tt, w1, evs)
      | (Ok Pass_break, w1, evs) => Some (Ok tt, render_completed w1, evs)
      | (Ok (Pass_continue render_iter'), w1, evs) =>
          after evs (render_proc_loop fuel render_iter' w1)
      end
  end.

(** [RenderThread.run] from where the worker is: the rest of its tick,
    then [run] from the head of its loop. *)
Definition RenderThread_run_from (fuel tick_fuel : nat) (tid : nat)
    (p : WorkerAt) (w : World) : Run unit :=
  match tick_from tick_fuel p w with
  | None => None
  | Some (Ok _, w', evs) => after evs (RenderThread_run fuel tick_fuel tid w')
  | Some (Raise e, w', evs) => Some (Raise e, thread_exit tid w', evs)
  end.

(** [stop] called while the worker is at [p]: [join] waits for the worker
    to come out of its tick and leave [run]. With the worker between two
    ticks this is [stop]. *)
Definition stop_from (fuel tick_fuel : nat) (p : WorkerAt) (w : World)
  : Run unit :=
  let w1 := with_srt (with_stop_requested (Some true) (srt w)) w in
  after [Called "SceneRendererThreaded.stop" None]
    match thread (srt w1) with
    | Some tid =>
        let w2 := RenderThread_terminate tid w1 in
        match (if thread_alive tid w2
               then RenderThread_run_from fuel tick_fuel tid p w2
               else Some (Ok tt, w2, [])) with
        | Some (_, w3, evs) =>
            Some (Ok tt, with_srt (with_thread None (srt w3)) w3, evs)
        | None => None
        end
    | None => Some (Ok tt, w1, [])
    end.
End Model.

Arguments TileImage Obj : clear implicits.
Arguments Image Obj : clear implicits.
Arguments RenderLayers Obj : clear implicits.
Arguments SceneSynced Obj : clear implicits.
Arguments Event Obj : clear implicits.
Arguments SceneRenderer Obj : clear implicits.
Arguments UpdateData Obj : clear implicits.
Arguments SceneRendererThreaded Obj : clear implicits.
Arguments World Obj : clear implicits.
Arguments Frame Obj : clear implicits.
Arguments Generator Obj : clear implicits.
Arguments Change Obj : clear implicits.

Arguments HostCall Obj : clear implicits.
Arguments WorkerAt Obj : clear implicits.
Arguments PassResult Obj : clear implicits.
(** ** Concrete collaborators and states, for running the model *)

(** Objects are tuples of integers, compared by value; the clock and the
    engine are given, there is one frame buffer, for the default channel. *)
Definition demo_ext (clock : nat -> Z) (engine : nat -> bool)
    (settings : UserSettings) : Externals (list Z) :=
  {| array_equal := fun a b => bool_decide (a = b);
     py_eq := fun o n => bool_decide (Some o = n);
     is_same := fun o n => bool_decide (Some o = n);
     camera_zoom_of := fun _ => None;
     perf_counter := clock;
     core_ok := engine;
     get_frame_buffer := fun _ _ name =>
       if String.eqb name "default" then Some [0] else None;
     get_resolved_image := fun t _ => Some [Z.of_nat t];
     rendermode_remap := fun _ => 1;
     filter_remap := fun _ => 1;
     radius_params := fun _ => None;
     get_user_settings := settings |}.

Definition demo_user_settings : UserSettings :=
  {| samples := 1;
     device_type := "gpu";
     device_type_plus_cpu := false;
     used_gpu_count := 1 |}.

(** A clock that advances by one unit per reading, an engine that never
    fails. *)
Definition demo : Externals (list Z) :=
  demo_ext Z.of_nat (fun _ => true) demo_user_settings.

Definition demo_settings (limits : RenderingLimits) : RenderSettings :=
  {| rendering_limits := limits;
     render_mode := "GLOBAL_ILLUMINATION";
     use_clamp_irradiance := false;
     get_max_ray_depth := fun _ => 8;
     aa_filter := "BOX";
     tone_mapping := mkToneMapping true "linear";
     white_balance := mkWhiteBalance false 0;
     gamma_correction := mkGammaCorrection true false |}.

Definition no_limits : RenderingLimits :=
  {| limits_enable := false;
     limits_type := "ITER";
     limits_iterations := 50;
     limits_time := 0 |}.

(** A session with its resolution set, as
    [set_render_resolution((640, 480))] leaves it. *)
Definition demo_world (is_production : bool) (limits : RenderingLimits)
  : World (list Z) :=
  (SceneRendererThreaded_set_render_resolution
     (Some [640; 480])
     (World_init (ext := demo)
        (SceneRenderer_init (demo_settings limits) is_production))).1.2.

(** The same viewport session with a resolution, an AOV, a region and a camera
    change queued, and a scene-sync object to take the camera. *)
Definition demo_world_pending : World (list Z) :=
  let run (c : M (Event (list Z)) (World (list Z)) unit) w := (c w).1.2 in
  run (SceneRendererThreaded_update_render_camera (Some [7]))
    (run (SceneRendererThreaded_update_render_region
            (Some [0; 1; 0; 1]))
       (run (SceneRendererThreaded_update_aov (Some [3]))
          (run (SceneRendererThreaded_update_render_resolution
                  (Some [800; 600]))
             (run (set_scene_synced (mkSceneSynced None None))
                (demo_world false no_limits))))).

(** A final render on GPU and CPU together, one sample per pass set by
    the user, and a limit of five iterations. *)
Definition mixed_user_settings : UserSettings :=
  {| samples := 1;
     device_type := "gpu";
     device_type_plus_cpu := true;
     used_gpu_count := 1 |}.

Definition mixed : Externals (list Z) :=
  demo_ext Z.of_nat (fun _ => true) mixed_user_settings.

Definition five_iterations : RenderingLimits :=
  {| limits_enable := true;
     limits_type := "ITER";
     limits_iterations := 5;
     limits_time := 0 |}.

(** A clock that is read every five seconds, and a limit of one second. *)
Definition slow_clock : Externals (list Z) :=
  demo_ext (fun k => 5 * Z.of_nat k) (fun _ => true) demo_user_settings.

Definition one_second : RenderingLimits :=
  {| limits_enable := true;
     limits_type := "TIME";
     limits_iterations := 0;
     limits_time := 1 |}.

(** A limit of twenty units of the clock [demo] reads. *)
Definition twenty_ticks : RenderingLimits :=
  {| limits_enable := true;
     limits_type := "TIME";
     limits_iterations := 0;
     limits_time := 20 |}.

(** An engine whose every call fails. *)
Definition broken : Externals (list Z) :=
  demo_ext Z.of_nat (fun _ => false) demo_user_settings.

(** A new coordinator, started; then its worker run on the broken engine
    until it leaves [run]. *)
Definition started_world : World (list Z) :=
  (start
     (World_init (ext := broken)
        (SceneRenderer_init (demo_settings no_limits) false))).1.2.

Definition crashed_world : World (list Z) :=
  match RenderThread_run (ext := broken) 2 3 0 started_world with
  | Some (_, w, _) => w
  | None => started_world
  end.


(** A new session, before any resolution is set. *)
Definition fresh_world : World (list Z) :=
  World_init (ext := demo) (SceneRenderer_init (demo_settings no_limits) false).

(** An AOV change queued on it: the renderer has no layers yet. *)
Definition aov_early_world : World (list Z) :=
  (SceneRendererThreaded_update_aov (Some [3]) fresh_world).1.2.

(** A camera change queued on a session that was given no scene-sync
    object. *)
Definition camera_early_world : World (list Z) :=
  (SceneRendererThreaded_update_render_camera (Some [7])
     (demo_world false no_limits)).1.2.

(** A region set on a session that has no resolution. *)
Definition region_only_world : World (list Z) :=
  (SceneRendererThreaded_set_render_region (Some [0; 1; 0; 1])
     fresh_world).1.2.

(** A session with its worker started, and the same session when the
    worker's first look at the inbox is done. *)
Definition running_world (limits : RenderingLimits) : World (list Z) :=
  (start (demo_world false limits)).1.2.

Definition redraw_world (limits : RenderingLimits) : World (list Z) :=
  (check_updates (ext := demo) (running_world limits)).1.2.

(** The session stopped with the redraw still to do. *)
Definition stopped_world : World (list Z) :=
  match stop (ext := demo) 1 0 (redraw_world no_limits) with
  | Some (_, w, _) => w
  | None => redraw_world no_limits
  end.

(** A session for a non-interactive render with a limit of five
    iterations. *)
Definition batch_world : World (list Z) :=
  (start_noninteractive (demo_world false five_iterations)).1.2.

(** Limits that are enabled and limit nothing: a time limit of zero. *)
Definition zero_time : RenderingLimits :=
  {| limits_enable := true;
     limits_type := "TIME";
     limits_iterations := 0;
     limits_time := 0 |}.

Definition one_iteration : RenderingLimits :=
  {| limits_enable := true;
     limits_type := "ITER";
     limits_iterations := 1;
     limits_time := 0 |}.

(** User settings with a sample count of zero. *)
Definition zero_samples : Externals (list Z) :=
  demo_ext Z.of_nat (fun _ => true)
    {| samples := 0;
       device_type := "gpu";
       device_type_plus_cpu := false;
       used_gpu_count := 0 |}.

(** A clock that does not advance. *)
Definition frozen_clock : Externals (list Z) :=
  demo_ext (fun _ => 0) (fun _ => true) demo_user_settings.

(** Render targets that have a frame buffer for every channel. *)
Definition all_channels : Externals (list Z) :=
  {| array_equal := fun a b => bool_decide (a = b);
     py_eq := fun o n => bool_decide (Some o = n);
     is_same := fun o n => bool_decide (Some o = n);
     camera_zoom_of := fun _ => None;
     perf_counter := Z.of_nat;
     core_ok := fun _ => true;
     get_frame_buffer := fun _ _ _ => Some [0];
     get_resolved_image := fun t _ => Some [Z.of_nat t];
     rendermode_remap := fun _ => 1;
     filter_remap := fun _ => 1;
     radius_params := fun _ => None;
     get_user_settings := demo_user_settings |}.

(** A session whose tone mapping is of a type the renderer does not
    know. *)
Definition filmic_settings : RenderSettings :=
  {| rendering_limits := no_limits;
     render_mode := "GLOBAL_ILLUMINATION";
     use_clamp_irradiance := false;
     get_max_ray_depth := fun _ => 8;
     aa_filter := "BOX";
     tone_mapping := mkToneMapping true "filmic";
     white_balance := mkWhiteBalance false 0;
     gamma_correction := mkGammaCorrection true false |}.

Definition filmic_world : World (list Z) :=
  (SceneRendererThreaded_set_render_resolution
     (Some [640; 480])
     (World_init (ext := demo) (SceneRenderer_init filmic_settings false))).1.2.

(** A session in the life of a host: the resolution is set and changed,
    the worker applies the change and renders twice, the image is
    fetched, and the resolution is set again. *)
Definition demo_calls : list (HostCall (list Z)) :=
  [Call_set_render_resolution (Some [640; 480]);
   Call_update_render_resolution (Some [800; 600]);
   Call_check_updates;
   Call_render 2;
   Call_get_image "default";
   Call_set_render_resolution (Some [320; 240])].

(** A limit of five hundred iterations: on GPU and CPU together, with one
    user sample, one pass in a hundred is counted. *)
Definition five_hundred_iterations : RenderingLimits :=
  {| limits_enable := true;
     limits_type := "ITER";
     limits_iterations := 500;
     limits_time := 0 |}.

(** A worker two iterations into the tick of an unlimited viewport
    render: the generator it holds and the state. *)
Definition mid_tick : Generator (list Z) * World (list Z) :=
  let '(_, _, g, w) :=
    drive (ext := demo) 2 SceneRenderer_render_proc
      (tick_entry (ext := demo) (running_world no_limits)) in
  (g, w).
Section BlockFacts.

Context {V : Type}.
Implicit Types (b : UpdateBlock V) (v cur new : V).

Lemma update_block_run b cur new :
  update_block b cur new = foldl apply_call b (update_block_calls b cur new).
Proof.
  unfold update_block, update_block_calls.
  destruct (has_value b && equal b (value b) new); [reflexivity|].
  destruct (equal b cur new); [|reflexivity].
  destruct (has_value b); reflexivity.
Qed.

Lemma update_block_equal b cur new :
  equal (update_block b cur new) = equal b.
Proof.
  unfold update_block.
  repeat match goal with |- context [if ?c then _ else _] => destruct c end;
    reflexivity.
Qed.

(** C1: the three outcomes of [update_block]: an already queued value is
    skipped and the block stays as it is; otherwise a value equal (by the
    block's predicate) to the one in effect clears the pending flag and
    stores nothing, which changes nothing when nothing was pending;
    otherwise the new value becomes the pending one, whatever was pending
    before. *)
Theorem update_block_outcomes b cur new :
  (has_value b = true /\ equal b (value b) new = true ->
     update_block b cur new = b)
  /\ (~ (has_value b = true /\ equal b (value b) new = true) ->
      equal b cur new = true ->
        has_value (update_block b cur new) = false
        /\ value (update_block b cur new) = value b
        /\ update_block_calls b cur new
           = (if has_value b then [Call_del_value] else [])
        /\ (has_value b = false -> update_block b cur new = b))
  /\ (~ (has_value b = true /\ equal b (value b) new = true) ->
      equal b cur new = false ->
        update_block b cur new = set_value b new
        /\ pending (update_block b cur new) = [new]).
Proof.
  unfold update_block, update_block_calls, pending.
  split; [|split].
  - intros [-> ->]. reflexivity.
  - intros Hq ->.
    destruct (has_value b) eqn:Hh; simpl.
    + destruct (equal b (value b) new) eqn:He; [exfalso; auto|].
      simpl. repeat split; intros; congruence.
    + rewrite Hh. repeat split; reflexivity.
  - intros Hq ->.
    destruct (has_value b) eqn:Hh; simpl.
    + destruct (equal b (value b) new) eqn:He; [exfalso; auto|].
      split; reflexivity.
    + split; reflexivity.
Qed.

End BlockFacts.

Section BlockSequences.

Context {V : Type}.
Implicit Types (b : UpdateBlock V) (calls : list (V * V)).

Lemma pending_at_most_one b : (length (pending b) <= 1)%nat.
Proof. unfold pending. destruct (has_value b); simpl; lia. Qed.

(** One [update_block] call: what is pending after it, followed by any
    later stores, ends as what was pending before it, followed by its own
    store and the later ones. *)
Lemma update_block_last b cur new (tail : list V) (v : V) :
  last (pending (update_block b cur new) ++ tail) = Some v ->
  last (pending b ++ stored_values (update_block_calls b cur new) ++ tail)
  = Some v.
Proof.
  unfold update_block, update_block_calls, pending, stored_values.
  destruct (has_value b) eqn:Hh; cbn [andb].
  - destruct (equal b (value b) new); [rewrite Hh; auto|].
    destruct (equal b cur new); cbn.
    + destruct tail as [|t tail]; [discriminate|]. auto.
    + auto.
  - destruct (equal b cur new); cbn; rewrite ?Hh; auto.
Qed.

(** After any sequence of [update_block] calls, a pending value is the one
    most recently handed to [set_value] (or the one that was pending
    before the sequence, when the sequence stored nothing). *)
Lemma update_blocks_pending b calls :
  has_value (update_blocks b calls) = true ->
  last (pending b ++ stored_values (update_blocks_calls b calls))
  = Some (value (update_blocks b calls)).
Proof.
  revert b. induction calls as [|[cur new] rest IH]; intros b Hp.
  - cbn in *. unfold pending. rewrite Hp. reflexivity.
  - cbn [update_blocks_calls fst snd].
    unfold stored_values. rewrite omap_app.
    apply update_block_last. apply (IH (update_block b cur new) Hp).
Qed.

(** Two calls with the same value in effect, the second with a value that
    differs from it: the second value is the one pending, whatever the
    first call did, when the predicate holds of equal values only. *)
Lemma update_block_twice b cur new1 new2 :
  (forall x y, equal b x y = true -> x = y) ->
  equal b cur new2 = false ->
  pending (update_block (update_block b cur new1) cur new2) = [new2].
Proof.
  intros Hsound Hne.
  unfold update_block, pending.
  destruct (has_value b) eqn:Hh; cbn [andb].
  - destruct (equal b (value b) new1) eqn:E1.
    + rewrite Hh. cbn [andb].
      destruct (equal b (value b) new2) eqn:E2.
      * rewrite Hh. apply Hsound in E2. rewrite E2. reflexivity.
      * rewrite Hne. reflexivity.
    + destruct (equal b cur new1) eqn:E3; cbn.
      * rewrite Hne. reflexivity.
      * destruct (equal b new1 new2) eqn:E4; cbn.
        -- apply Hsound in E4. rewrite E4. reflexivity.
        -- rewrite Hne. reflexivity.
  - destruct (equal b cur new1) eqn:E3; cbn.
    + rewrite Hh. cbn. rewrite Hne. reflexivity.
    + destruct (equal b new1 new2) eqn:E4; cbn.
      * apply Hsound in E4. rewrite E4. reflexivity.
      * rewrite Hne. reflexivity.
Qed.

End BlockSequences.

Section SchedulerFacts.

Context {Obj : Type} {ext : Externals Obj}.
Implicit Types (w : World Obj) (v : option Obj).

Local Open Scope py_scope.

(** What [check_updates] does, in one statement: it returns, applies the
    pending changes in a fixed order, leaves nothing pending, and raises
    the redraw flag when it applied anything. *)
Lemma check_updates_effect w :
  let ud := update_data (srt w) in
  (has_value (ud_render_resolution ud) = false ->
   has_value (ud_aov ud) = true -> render_layers (sr w) <> None) ->
  (has_value (ud_render_camera ud) = true -> scene_synced (srt w) <> None) ->
  let w' := (check_updates w).1.2 in
  (check_updates w).1.1 = Ok tt
  /\ applied (check_updates w).2
       = (if has_value (ud_render_resolution ud)
          then [Change_resolution (value (ud_render_resolution ud))]
          else if has_value (ud_aov ud)
               then [Change_aov (value (ud_aov ud))] else [])
         ++ (if has_value (ud_render_region ud)
             then [Change_region (value (ud_render_region ud))] else [])
         ++ (if has_value (ud_render_camera ud)
             then [Change_camera (value (ud_render_camera ud))] else [])
  /\ _need_scene_redraw (srt w')
       = has_value (ud_render_resolution ud) || has_value (ud_aov ud)
         || has_value (ud_render_region ud)
         || has_value (ud_render_camera ud)
         || _need_scene_redraw (srt w)
  /\ (has_value (ud_render_resolution ud) = true ->
      has_value (ud_aov ud) = true ->
        has_value (ud_aov (update_data (srt w'))) = false
        /\ aov (srt w') = value (ud_aov ud)
        /\ aov_settings (sr w') = value (ud_aov ud)
        /\ render_layers (sr w')
           = Some (mkRenderLayers (value (ud_aov ud)) (next_id w))
        /\ forall a, RenderLayers_update a ∉ (check_updates w).2)
  /\ (forall blk, has_value (block_of blk (update_data (srt w'))) = false)
  /\ (has_value (ud_render_resolution ud) = true ->
        render_resolution (srt w') = value (ud_render_resolution ud)
        /\ resolution (sr w') = value (ud_render_resolution ud))
  /\ (has_value (ud_render_region ud) = true ->
        render_region (srt w') = value (ud_render_region ud)
        /\ region (sr w') = value (ud_render_region ud)).
Proof.
  destruct ext as [ae pe ism czo pc ok gfb gri rr fr rp us].
  destruct w as [s c ths att n cr nc].
  destruct s as [it ii ip iip cg tip res reg trs rs pr aovs ti isp ui idv rt rl].
  destruct c as [nr th ev [[vg hg eg] [vr hr er] [va ha ea] [vc hc ec]]
                   rres raov rreg rcam syn sd stp].
  intros ud Hl Hs. subst ud.
  destruct hr, ha, hg, hc; cbn in Hl, Hs;
    try (destruct syn as [syn|]; [| exfalso; apply Hs; reflexivity ]);
    try (destruct rl as [l|]; [| exfalso; apply Hl; reflexivity ]);
    destruct rt as [old|].
  all: vm_compute; try destruct (czo vc).
  all: repeat split; try discriminate; try (intros []; reflexivity).
  all: intros a Ha; repeat (apply elem_of_cons in Ha as [Ha|Ha]; [discriminate|]).
  all: apply elem_of_nil in Ha; exact Ha.
Qed.

(** With nothing pending, [check_updates] does nothing. *)
Lemma check_updates_idle w :
  (forall blk, has_value (block_of blk (update_data (srt w))) = false) ->
  check_updates w = (Ok tt, w, []).
Proof.
  intros H.
  pose proof (H B_render_region) as Hg. pose proof (H B_render_resolution) as Hr.
  pose proof (H B_aov) as Ha. pose proof (H B_render_camera) as Hc.
  destruct w as [s c ths att n cr nc].
  destruct c as [nr th ev [[vg hg eg] [vr hr er] [va ha ea] [vc hc ec]]
                   rres raov rreg rcam syn sd stp].
  cbn in Hg, Hr, Ha, Hc. subst. reflexivity.
Qed.

(** Where the applied changes end up: each value that was pending is, after
    [check_updates], the value the coordinator records as current and the
    value the renderer (or the scene-sync object) holds. *)
Lemma check_updates_state w :
  let ud := update_data (srt w) in
  (has_value (ud_render_resolution ud) = false ->
   has_value (ud_aov ud) = true -> render_layers (sr w) <> None) ->
  (has_value (ud_render_camera ud) = true -> scene_synced (srt w) <> None) ->
  let w' := (check_updates w).1.2 in
  (has_value (ud_render_resolution ud) = true ->
     render_resolution (srt w') = value (ud_render_resolution ud)
     /\ resolution (sr w') = value (ud_render_resolution ud)
     /\ render_targets (sr w') = Some (next_id w)
     /\ render_layers (sr w')
        = Some (mkRenderLayers (aov_settings (sr w')) (next_id w)))
  /\ (has_value (ud_render_resolution ud) = false ->
      has_value (ud_aov ud) = true ->
        aov (srt w') = value (ud_aov ud)
        /\ aov_settings (sr w') = value (ud_aov ud)
        /\ (forall l, render_layers (sr w) = Some l ->
              render_layers (sr w')
              = Some (mkRenderLayers (value (ud_aov ud)) (layers_targets l)))
        /\ resolution (sr w') = resolution (sr w)
        /\ render_targets (sr w') = render_targets (sr w))
  /\ (has_value (ud_render_resolution ud) = false ->
      has_value (ud_aov ud) = false ->
        aov_settings (sr w') = aov_settings (sr w)
        /\ render_layers (sr w') = render_layers (sr w)
        /\ resolution (sr w') = resolution (sr w)
        /\ render_targets (sr w') = render_targets (sr w))
  /\ (has_value (ud_render_region ud) = true ->
        render_region (srt w') = value (ud_render_region ud)
        /\ region (sr w') = value (ud_render_region ud))
  /\ (has_value (ud_render_region ud) = false ->
        region (sr w') = region (sr w))
  /\ (has_value (ud_render_camera ud) = true ->
        render_camera (srt w') = value (ud_render_camera ud)
        /\ scene_synced (srt w')
           = Some (mkSceneSynced (value (ud_render_camera ud))
                     (camera_zoom_of (value (ud_render_camera ud))))
        /\ tile_image (sr w')
           = Some match camera_zoom_of (value (ud_render_camera ud)) with
                  | Some zoom => Tile_zoom zoom
                  | None => Tile_unit
                  end)
  /\ (has_value (ud_render_camera ud) = false ->
        scene_synced (srt w') = scene_synced (srt w)
        /\ tile_image (sr w') = tile_image (sr w)).
Proof.
  destruct ext as [ae pe ism czo pc ok gfb gri rr fr rp us].
  destruct w as [s c ths att n cr nc].
  destruct s as [it ii ip iip cg tip res reg trs rs pr aovs ti isp ui idv rt rl].
  destruct c as [nr th ev [[vg hg eg] [vr hr er] [va ha ea] [vc hc ec]]
                   rres raov rreg rcam syn sd stp].
  intros ud Hl Hs. subst ud.
  destruct hr, ha, hg, hc; cbn in Hl, Hs;
    try (destruct syn as [syn|]; [| exfalso; apply Hs; reflexivity ]);
    try (destruct rl as [l|]; [| exfalso; apply Hl; reflexivity ]);
    destruct rt as [old|].
  all: vm_compute; try destruct (czo vc).
  all: repeat split; try discriminate.
  all: try (intros l0 [= <-]; reflexivity).
Qed.

(** C2: [check_updates] applies what is pending in the order resolution,
    AOV, region, camera, and every applied change sets
    [need_scene_redraw]; with a resolution change and an AOV change both
    pending, the AOV value is consumed and becomes the renderer's
    [aov_settings] on the way to the resolution change, the new layers are
    built from it, and [render_layers.update] is not called. Applying is
    more than calling: afterwards every value that was pending is what the
    coordinator records and what the renderer holds (resolution with new
    targets and layers, AOV settings with updated layers, region), the
    camera is with the scene-sync object, what had no change pending is as
    before, and nothing is left pending. *)
Theorem check_updates_priority w :
  let ud := update_data (srt w) in
  (has_value (ud_render_resolution ud) = false ->
   has_value (ud_aov ud) = true -> render_layers (sr w) <> None) ->
  (has_value (ud_render_camera ud) = true -> scene_synced (srt w) <> None) ->
  (check_updates w).1.1 = Ok tt
  /\ applied (check_updates w).2
       = (if has_value (ud_render_resolution ud)
          then [Change_resolution (value (ud_render_resolution ud))]
          else if has_value (ud_aov ud)
               then [Change_aov (value (ud_aov ud))] else [])
         ++ (if has_value (ud_render_region ud)
             then [Change_region (value (ud_render_region ud))] else [])
         ++ (if has_value (ud_render_camera ud)
             then [Change_camera (value (ud_render_camera ud))] else [])
  /\ _need_scene_redraw (srt (check_updates w).1.2)
       = has_value (ud_render_resolution ud) || has_value (ud_aov ud)
         || has_value (ud_render_region ud)
         || has_value (ud_render_camera ud)
         || _need_scene_redraw (srt w)
  /\ (has_value (ud_render_resolution ud) = true ->
      has_value (ud_aov ud) = true ->
        let w' := (check_updates w).1.2 in
        has_value (ud_aov (update_data (srt w'))) = false
        /\ aov (srt w') = value (ud_aov ud)
        /\ aov_settings (sr w') = value (ud_aov ud)
        /\ render_layers (sr w')
           = Some (mkRenderLayers (value (ud_aov ud)) (next_id w))
        /\ forall a, RenderLayers_update a ∉ (check_updates w).2)
  /\ (let w' := (check_updates w).1.2 in
      (has_value (ud_render_resolution ud) = true ->
         render_resolution (srt w') = value (ud_render_resolution ud)
         /\ resolution (sr w') = value (ud_render_resolution ud)
         /\ render_targets (sr w') = Some (next_id w)
         /\ render_layers (sr w')
            = Some (mkRenderLayers (aov_settings (sr w')) (next_id w)))
      /\ (has_value (ud_render_resolution ud) = false ->
          has_value (ud_aov ud) = true ->
            aov (srt w') = value (ud_aov ud)
            /\ aov_settings (sr w') = value (ud_aov ud)
            /\ (forall l, render_layers (sr w) = Some l ->
                  render_layers (sr w')
                  = Some (mkRenderLayers (value (ud_aov ud))
                            (layers_targets l)))
            /\ resolution (sr w') = resolution (sr w)
            /\ render_targets (sr w') = render_targets (sr w))
      /\ (has_value (ud_render_resolution ud) = false ->
          has_value (ud_aov ud) = false ->
            aov_settings (sr w') = aov_settings (sr w)
            /\ render_layers (sr w') = render_layers (sr w)
            /\ resolution (sr w') = resolution (sr w)
            /\ render_targets (sr w') = render_targets (sr w))
      /\ (has_value (ud_render_region ud) = true ->
            render_region (srt w') = value (ud_render_region ud)
            /\ region (sr w') = value (ud_render_region ud))
      /\ (has_value (ud_render_region ud) = false ->
            region (sr w') = region (sr w))
      /\ (has_value (ud_render_camera ud) = true ->
            render_camera (srt w') = value (ud_render_camera ud)
            /\ scene_synced (srt w')
               = Some (mkSceneSynced (value (ud_render_camera ud))
                         (camera_zoom_of (value (ud_render_camera ud))))
            /\ tile_image (sr w')
               = Some match camera_zoom_of (value (ud_render_camera ud)) with
                      | Some zoom => Tile_zoom zoom
                      | None => Tile_unit
                      end)
      /\ (has_value (ud_render_camera ud) = false ->
            scene_synced (srt w') = scene_synced (srt w)
            /\ tile_image (sr w') = tile_image (sr w))
      /\ (forall blk, has_value (block_of blk (update_data (srt w'))) = false)).
Proof.
  intros ud Hl Hs.
  destruct (check_updates_effect w Hl Hs) as (H1 & H2 & H3 & H4 & H5 & _).
  pose proof (check_updates_state w Hl Hs) as Hst. cbv zeta in Hst.
  destruct Hst as (S1 & S2 & S3 & S4 & S5 & S6 & S7).
  split; [exact H1|]. split; [exact H2|]. split; [exact H3|].
  split; [exact H4|]. cbv zeta.
  repeat match goal with |- _ /\ _ => split end; assumption.
Qed.

End SchedulerFacts.

Lemma check_updates_priority_witness :
  applied (check_updates (ext := demo) demo_world_pending).2
  = [Change_resolution (Some [800; 600]); Change_region (Some [0; 1; 0; 1]);
     Change_camera (Some [7])]
  /\ aov_settings (sr (check_updates (ext := demo) demo_world_pending).1.2)
     = Some [3]
  /\ resolution (sr (check_updates (ext := demo) demo_world_pending).1.2)
     = Some [800; 600]
  /\ region (sr (check_updates (ext := demo) demo_world_pending).1.2)
     = Some [0; 1; 0; 1]
  /\ render_camera (srt (check_updates (ext := demo) demo_world_pending).1.2)
     = Some [7].
Proof.
  pose proof (check_updates_priority (ext := demo) demo_world_pending) as H.
  cbv zeta in H.
  destruct H as (_ & Happ & _ & Haov & Hres & _ & _ & Hreg & _ & Hcam & _).
  - vm_compute. discriminate.
  - vm_compute. discriminate.
  - repeat match goal with |- _ /\ _ => split end.
    + rewrite Happ. vm_compute. reflexivity.
    + destruct Haov as (_ & _ & -> & _); vm_compute; reflexivity.
    + destruct Hres as (_ & -> & _); vm_compute; reflexivity.
    + destruct Hreg as (_ & ->); vm_compute; reflexivity.
    + destruct Hcam as (-> & _); vm_compute; reflexivity.
Defined.

Section DeviceFacts.

Context {Obj : Type} {ext : Externals Obj}.
Implicit Types (w : World Obj) (v : option Obj).

(** Detaching the only attached target set leaves none attached. *)
Lemma filter_ne_singleton (x : nat) : filter (fun y => y <> x) [x] = [].
Proof.
  rewrite filter_cons. destruct (decide (x <> x)) as [Hn|_]; [|reflexivity].
  exfalso. apply Hn. reflexivity.
Qed.

(** C9: with a render target set attached, [update_render_resolution]
    detaches it, then builds the new set and its layers, then attaches the
    new set; after every one of these steps at most one set is attached. *)
Theorem update_render_resolution_detaches_first w v (old : nat) :
  render_targets (sr w) = Some old ->
  attached w = [old] ->
  let run := SceneRenderer_update_render_resolution v w in
  let new := next_id w in
  run.1.1 = Ok tt
  /\ run.2
     = [Called "SceneRenderer.update_render_resolution" v;
        detach_render_target old;
        RenderTargets_init new v;
        RenderLayers_init (aov_settings (sr w)) new;
        attach_render_target new]
  /\ render_targets (sr run.1.2) = Some new
  /\ resolution (sr run.1.2) = v
  /\ attached run.1.2 = [new]
  /\ attached_after (attached w) run.2 = attached run.1.2
  /\ forall k, (length (attached_after (attached w) (take k run.2)) <= 1)%nat.
Proof.
  destruct w as [s c ths att n cr nc].
  destruct s as [it ii ip iip cg tip res reg trs rs pr aovs ti isp ui idv rt rl].
  intros Hrt Hatt run new. cbn in Hrt, Hatt. subst rt att.
  cbn [sr aov_settings attached] in *.
  assert (Hrun : run
    = (Ok tt,
       mkWorld
         (mkSceneRenderer it ii ip iip cg tip v reg trs rs pr aovs ti isp ui
            idv (Some n) (Some (mkRenderLayers aovs n)))
         c ths [n] (S n) cr nc,
       [Called "SceneRenderer.update_render_resolution" v;
        detach_render_target old;
        RenderTargets_init n v;
        RenderLayers_init aovs n;
        attach_render_target n])).
  { subst run. unfold SceneRenderer_update_render_resolution, device_detach,
      device_attach.
    cbv [bind ret gets modify emit upd_sr new_object app
         sr srt threads attached next_id clock_reads native_calls
         with_sr with_attached with_next_id render_targets aov_settings
         resolution with_render_layers with_render_targets with_resolution
         im_tile im_iteration im_prepared iteration_in_progress
         cache_generated time_in_progress region time_render_start
         render_settings production_render tile_image is_production
         used_iterations iteration_divider render_layers].
    rewrite filter_ne_singleton. reflexivity. }
  rewrite Hrun. subst new. cbn [fst snd sr render_targets resolution attached].
  repeat split.
  - unfold attached_after. cbn [foldl attached_step].
    rewrite filter_ne_singleton. reflexivity.
  - intros k. unfold attached_after.
    do 5 (destruct k as [|k];
          [cbn [take foldl attached_step]; rewrite ?filter_ne_singleton;
           cbn; lia|]).
    cbn [take foldl attached_step]. rewrite filter_ne_singleton, take_nil.
    cbn. lia.
Qed.

End DeviceFacts.

Section Coalescing.

Context {Obj : Type} {ext : Externals Obj}.
Implicit Types (w : World Obj) (v : option Obj).

(** An [update_render_resolution] request only touches the resolution
    block of the inbox. *)
Lemma update_render_resolution_block w v :
  let b := ud_render_resolution (update_data (srt w)) in
  let cur := render_resolution (srt w) in
  (SceneRendererThreaded_update_render_resolution v w).1.2
  = with_srt
      (with_update_data
         (with_ud_render_resolution (update_block b cur v)
            (update_data (srt w))) (srt w)) w.
Proof. reflexivity. Qed.

(** The AOV and camera predicates never hold of a current value [None]:
    a request made while nothing is in effect is always stored. *)
Lemma aov_equal_none v : aov_equal None v = false.
Proof. reflexivity. Qed.

Lemma camera_equal_none v : camera_equal None v = false.
Proof. reflexivity. Qed.

Lemma pending_one (b : UpdateBlock (option Obj)) v :
  pending b = [v] -> has_value b = true /\ value b = v.
Proof.
  unfold pending. destruct (has_value b); [|discriminate].
  intros [= ->]. auto.
Qed.

(** C7: a block never holds more than one pending value, and after any
    sequence of [update_block] calls the pending value is the one stored
    last; so two resolution requests R1 and R2 made before the next
    [check_updates], R2 differing from the resolution in effect, leave R2
    pending, and that [check_updates] changes the resolution once, to R2,
    asks for one redraw and leaves nothing for the next [check_updates]. *)
Theorem resolution_updates_coalesce w (R1 R2 : option Obj) :
  let b := ud_render_resolution (update_data (srt w)) in
  (forall x y, equal b x y = true -> x = y) ->
  equal b (render_resolution (srt w)) R2 = false ->
  (has_value (ud_render_camera (update_data (srt w))) = true ->
   scene_synced (srt w) <> None) ->
  let w1 := (SceneRendererThreaded_update_render_resolution R1 w).1.2 in
  let w2 := (SceneRendererThreaded_update_render_resolution R2 w1).1.2 in
  let w3 := (check_updates w2).1.2 in
  (forall (V : Type) (blk : UpdateBlock V) (calls : list (V * V)),
     (length (pending (update_blocks blk calls)) <= 1)%nat
     /\ (has_value (update_blocks blk calls) = true ->
         last (pending blk ++ stored_values (update_blocks_calls blk calls))
         = Some (value (update_blocks blk calls))))
  /\ pending (ud_render_resolution (update_data (srt w2))) = [R2]
  /\ (check_updates w2).1.1 = Ok tt
  /\ resolution_changes (check_updates w2).2 = [R2]
  /\ render_resolution (srt w3) = R2
  /\ resolution (sr w3) = R2
  /\ _need_scene_redraw (srt w3) = true
  /\ check_updates w3 = (Ok tt, w3, []).
Proof.
  intros b Hsound Hne Hcam w1 w2 w3.
  split.
  { intros V blk calls. split.
    - apply pending_at_most_one.
    - apply update_blocks_pending. }
  assert (Hw2 : w2
    = with_srt
        (with_update_data
           (with_ud_render_resolution
              (update_block (update_block b (render_resolution (srt w)) R1)
                 (render_resolution (srt w)) R2)
              (update_data (srt w))) (srt w)) w).
  { subst w2 w1. rewrite !update_render_resolution_block.
    destruct w as [s [nr th ev [bg br ba bc] rres raov rreg rcam syn sd stp]
                     ths att n cr nc].
    reflexivity. }
  assert (Hp : pending (ud_render_resolution (update_data (srt w2))) = [R2]).
  { rewrite Hw2. cbn. apply update_block_twice; assumption. }
  split; [exact Hp|].
  apply pending_one in Hp as [Hh Hv].
  assert (Hl : has_value (ud_render_resolution (update_data (srt w2))) = false ->
               has_value (ud_aov (update_data (srt w2))) = true ->
               render_layers (sr w2) <> None) by (rewrite Hh; discriminate).
  assert (Hs : has_value (ud_render_camera (update_data (srt w2))) = true ->
               scene_synced (srt w2) <> None).
  { rewrite Hw2. cbn. exact Hcam. }
  destruct (check_updates_effect w2 Hl Hs)
    as (Hok & Happ & Hredraw & _ & Hnone & Hres & _).
  fold w3 in Hredraw, Hnone, Hres.
  destruct (Hres Hh) as [Hr1 Hr2].
  repeat split.
  - exact Hok.
  - unfold resolution_changes. rewrite Happ, Hh, Hv.
    destruct (has_value (ud_render_region _)), (has_value (ud_render_camera _));
      reflexivity.
  - rewrite Hr1. exact Hv.
  - rewrite Hr2. exact Hv.
  - rewrite Hredraw, Hh. reflexivity.
  - apply check_updates_idle. exact Hnone.
Qed.

End Coalescing.

Section RefineLoop.

Context {Obj : Type} {ext : Externals Obj}.
Implicit Types (w : World Obj) (f : Frame Obj) (g : Generator Obj).

(** Unfold the model, leaving arithmetic, maps and the collaborators. *)
Ltac py_eval :=
  cbv -[Z.add Z.sub Z.mul Z.quot Z.div Z.ltb Z.leb Z.eqb Z.of_nat Z.max
        core_ok perf_counter get_frame_buffer get_resolved_image
        rendermode_remap filter_remap radius_params get_user_settings
        camera_zoom_of array_equal py_eq is_same effective_samples
        lookup insert empty String.eqb
        limits_enable limits_type limits_iterations limits_time
        tm_enable tm_type wb_enable wb_color_space_value gm_enable
        gm_viewport_only rendering_limits render_mode use_clamp_irradiance
        get_max_ray_depth aa_filter tone_mapping white_balance
        gamma_correction samples device_type device_type_plus_cpu
        used_gpu_count].

(** Case analysis on the tests the evaluation is stuck on. *)
Ltac split_test :=
  match goal with
  | |- context [if ?b then _ else _] =>
      let T := type of b in unify T bool; destruct b eqn:?
  | |- context [match ?x with Some _ => _ | None => _ end] =>
      destruct x eqn:?
  end.

Ltac py_cases := py_eval; repeat (split_test; py_eval).

Lemma render_proc_render_ok f i w :
  core_ok (native_calls w) = true ->
  render_proc_render f i w
  = (Ok (Gen_suspended
           (mkFrame (f_rs f) (f_samples f) (f_time_start f)
              (f_time_local_total f
               + (perf_counter (S (S (clock_reads w)))
                  - perf_counter (S (clock_reads w))))
              (perf_counter (S (S (clock_reads w))))
              (f_render_region f) i)),
     mkWorld
       (with_im_prepared ∅
          (with_im_iteration (Some i)
             (with_im_tile (tile_image (sr w))
                (with_cache_generated true
                   (with_time_in_progress
                      (Some (perf_counter (clock_reads w) - f_time_start f))
                      (with_iteration_in_progress (Some i) (sr w)))))))
       (srt w) (threads w) (attached w) (next_id w)
       (S (S (S (clock_reads w)))) (S (native_calls w)),
     [match f_render_region f with
      | None => ContextRender
      | Some (r, res) => ContextRenderTile r res
      end]).
Proof.
  intros Hok. destruct w as [s c ths att n cr nc]. cbn in Hok.
  destruct f as [rs sm ts tl tol [[r res]|] fi];
    py_eval; rewrite Hok; reflexivity.
Qed.

(** Clamping at one hides the difference between rounding toward zero
    and rounding down. *)
Lemma quot_floor_clamp (a b : Z) :
  b <> 0 -> Z.max 1 (Z.quot a b) = Z.max 1 (a / b).
Proof.
  intros Hb.
  destruct (Z_le_gt_dec 0 a) as [Ha|Ha], (Z_lt_le_dec 0 b) as [Hb'|Hb'].
  - rewrite Z.quot_div_nonneg by lia. reflexivity.
  - assert (Z.quot a b <= 0).
    { rewrite <- (Z.opp_involutive b), Z.quot_opp_r by lia.
      pose proof (Z.quot_pos a (- b)). lia. }
    assert (a / b <= 0).
    { pose proof (Z_div_mod_eq_full a b).
      pose proof (Z.mod_neg_bound a b ltac:(lia)). nia. }
    lia.
  - assert (Z.quot a b <= 0).
    { rewrite <- (Z.opp_involutive a), Z.quot_opp_l by lia.
      pose proof (Z.quot_pos (- a) b). lia. }
    assert (a / b <= 0).
    { pose proof (Z_div_mod_eq_full a b).
      pose proof (Z.mod_pos_bound a b ltac:(lia)). nia. }
    lia.
  - rewrite <- (Z.opp_involutive a), <- (Z.opp_involutive b) at 1.
    rewrite Z.quot_opp_opp by lia.
    rewrite Z.quot_div_nonneg by lia.
    rewrite <- Z.div_opp_opp by lia. rewrite !Z.opp_involutive. reflexivity.
Qed.

(** [render_proc_samples] touches nothing but the iteration count. *)
Lemma render_proc_samples_frame (rs : RenderSettings) w :
  let run := render_proc_samples rs w in
  same_scene w run.1.2
  /\ clock_reads run.1.2 = clock_reads w
  /\ native_calls run.1.2 = native_calls w
  /\ im_prepared (sr run.1.2) = im_prepared (sr w)
  /\ run.2 = [].
Proof.
  destruct w as [s c ths att n cr nc].
  destruct s as [it ii ip iip cg tip res reg trs rs0 pr aovs ti isp ui idv rt rl].
  unfold same_scene. py_cases; repeat split.
Qed.

Lemma render_proc_samples_iter (rs : RenderSettings) w :
  limits_enable (rendering_limits rs) = true ->
  limits_type (rendering_limits rs) = "ITER" ->
  let eff := effective_samples (is_production (sr w)) get_user_settings in
  eff <> 0 ->
  (render_proc_samples rs w).1.1 = Ok eff
  /\ used_iterations (sr (render_proc_samples rs w).1.2)
     = Z.max 1 (Z.quot (limits_iterations (rendering_limits rs)
                        * samples get_user_settings) eff).
Proof.
  intros He Ht eff Heff.
  destruct w as [s c ths att n cr nc].
  destruct s as [it ii ip iip cg tip res reg trs rs0 pr aovs ti isp ui idv rt rl].
  cbn [sr is_production] in eff.
  unfold render_proc_samples. rewrite He, Ht.
  change (String.eqb "ITER" "ITER") with true. cbv iota.
  py_eval. fold eff.
  destruct (eff =? 0) eqn:E0; [apply Z.eqb_eq in E0; contradiction|].
  match goal with |- context [?q <? 1] => destruct (q <? 1) eqn:E1 end;
    cbv iota beta.
  - apply Z.ltb_lt in E1. split; [reflexivity|]. cbn. lia.
  - apply Z.ltb_ge in E1. split; [reflexivity|]. cbn. lia.
Qed.

Lemma render_proc_samples_other (rs : RenderSettings) w :
  limits_enable (rendering_limits rs) = false
  \/ String.eqb "ITER" (limits_type (rendering_limits rs)) = false ->
  render_proc_samples rs w = (Ok (samples get_user_settings), w, []).
Proof.
  unfold render_proc_samples. intros [->| ->]; [reflexivity|].
  destruct (limits_enable _); reflexivity.
Qed.

Ltac py_run Hok := repeat (py_eval; first [rewrite Hok | split_test]).

(** With a working engine, targets to clear and a resolution to scale a
    region by, the settings are applied and the cycle is ready to loop. *)
Lemma render_proc_apply_ok (rs : RenderSettings) (sm : Z) w (rt : nat) :
  (forall k, core_ok k = true) ->
  render_targets (sr w) = Some rt ->
  (region (sr w) <> None -> resolution (sr w) <> None) ->
  let run := render_proc_apply rs sm w in
  exists f,
    run.1.1 = Ok f
    /\ f_rs f = rs
    /\ f_samples f = sm
    /\ f_time_start f = perf_counter (clock_reads w)
    /\ f_i f = 0%nat
    /\ clock_reads run.1.2 = S (S (S (clock_reads w)))
    /\ used_iterations (sr run.1.2) = used_iterations (sr w)
    /\ ContextSetParameter1u "aasamples" (U_int sm) ∈ run.2.
Proof.
  intros Hok Hrt Hreg.
  destruct w as [s c ths att n cr nc].
  destruct s as [it ii ip iip cg tip res reg trs rs0 pr aovs ti isp ui idv rt0 rl].
  cbn in Hrt, Hreg. subst rt0.
  destruct reg as [r|]; [destruct res as [re|]; [|exfalso; apply Hreg; congruence]|].
  all: py_run Hok.
  all: eexists; repeat split.
  all: repeat first [apply list_elem_of_here | apply list_elem_of_further].
Qed.

Lemma render_proc_apply_frame (rs : RenderSettings) (sm : Z) w :
  let run := render_proc_apply rs sm w in
  same_scene w run.1.2
  /\ im_prepared (sr run.1.2) = im_prepared (sr w)
  /\ used_iterations (sr run.1.2) = used_iterations (sr w).
Proof.
  destruct w as [s c ths att n cr nc].
  destruct s as [it ii ip iip cg tip res reg trs rs0 pr aovs ti isp ui idv rt0 rl].
  unfold same_scene. py_cases; repeat split.
Qed.

(** The limit test reads the clock at most once and changes nothing
    else. *)
Lemma limit_reached_iter f i w :
  limits_enable (rendering_limits (f_rs f)) = true ->
  limits_type (rendering_limits (f_rs f)) = "ITER" ->
  limit_reached f i w
  = (Ok (negb (used_iterations (sr w) =? 0)
         && (used_iterations (sr w) <=? Z.of_nat i)), w, []).
Proof.
  intros He Ht. unfold limit_reached. rewrite He, Ht. reflexivity.
Qed.

Lemma limit_reached_time f i w :
  limits_enable (rendering_limits (f_rs f)) = true ->
  limits_type (rendering_limits (f_rs f)) = "TIME" ->
  limits_time (rendering_limits (f_rs f)) <> 0 ->
  limit_reached f i w
  = (Ok (limits_time (rendering_limits (f_rs f))
         <=? perf_counter (clock_reads w) - f_time_start f),
     with_clock_reads (S (clock_reads w)) w, []).
Proof.
  intros He Ht HT. unfold limit_reached. rewrite He, Ht.
  apply Z.eqb_neq in HT. rewrite HT. reflexivity.
Qed.

Lemma limit_reached_never f i w :
  limits_enable (rendering_limits (f_rs f)) = false ->
  limit_reached f i w = (Ok false, w, []).
Proof. intros He. unfold limit_reached. rewrite He. reflexivity. Qed.

(** Leaving the loop: the generator returns unless the clock reads what
    it read at the start of the cycle. *)
Lemma render_proc_finish_stop f w :
  perf_counter (clock_reads w) <> f_time_start f ->
  render_proc_finish (A := Generator Obj) f w
  = (Raise StopIteration, with_clock_reads (S (clock_reads w)) w, []).
Proof.
  intros Hne. unfold render_proc_finish, bind, time_perf_counter.
  destruct (perf_counter (clock_reads w) - f_time_start f =? 0) eqn:E.
  - apply Z.eqb_eq in E. lia.
  - reflexivity.
Qed.

(** When the clock reads at the end what it read at the start, the last
    log message of the cycle divides by zero. *)
Lemma render_proc_finish_zero f w :
  perf_counter (clock_reads w) = f_time_start f ->
  render_proc_finish (A := Generator Obj) f w
  = (Raise ZeroDivisionError, with_clock_reads (S (clock_reads w)) w, []).
Proof.
  intros He. unfold render_proc_finish, bind, time_perf_counter.
  rewrite He, Z.sub_diag. reflexivity.
Qed.

Lemma bind_ok_nil {E W A B} (c : M E W A) (k : A -> M E W B)
    (w : W) (a : A) (w' : W) :
  c w = (Ok a, w', []) -> bind c k w = k a w'.
Proof.
  intros H. unfold bind. rewrite H. destruct (k a w') as [[r w''] evs].
  reflexivity.
Qed.

(** One pass of the loop whose limit test says go on: the engine renders,
    the image cache is emptied and the generator yields. *)
Lemma render_proc_iteration_yield f i w w1 :
  limit_reached f i w = (Ok false, w1, []) ->
  core_ok (native_calls w1) = true ->
  exists f' w' ev,
    render_proc_iteration f i w = (Ok (Gen_suspended f'), w', [ev])
    /\ f_rs f' = f_rs f
    /\ f_time_start f' = f_time_start f
    /\ f_i f' = i
    /\ clock_reads w' = S (S (S (clock_reads w1)))
    /\ used_iterations (sr w') = used_iterations (sr w1)
    /\ im_prepared (sr w') = ∅
    /\ same_scene w1 w'.
Proof.
  intros Hl Hok. unfold render_proc_iteration.
  rewrite (bind_ok_nil _ _ _ _ _ Hl). cbv iota.
  rewrite (render_proc_render_ok f i w1 Hok).
  do 3 eexists. split; [reflexivity|].
  unfold same_scene. destruct w1 as [s c ths att n cr nc]. destruct s.
  cbn. repeat split.
Qed.

(** One pass of the loop whose limit test says stop. *)
Lemma render_proc_iteration_stop f i w w1 :
  limit_reached f i w = (Ok true, w1, []) ->
  perf_counter (clock_reads w1) <> f_time_start f ->
  render_proc_iteration f i w
  = (Raise StopIteration, with_clock_reads (S (clock_reads w1)) w1, []).
Proof.
  intros Hl Hne. unfold render_proc_iteration.
  rewrite (bind_ok_nil _ _ _ _ _ Hl). cbv iota.
  apply render_proc_finish_stop. exact Hne.
Qed.

(** A finished generator stays finished. *)
Lemma next_finished w :
  next (Gen_finished (Obj := Obj)) w = (Raise StopIteration, Gen_finished, w, []).
Proof. reflexivity. Qed.

Lemma drive_finished fuel w :
  drive (S fuel) (Gen_finished (Obj := Obj)) w
  = (0%nat, Some StopIteration, Gen_finished, w).
Proof. reflexivity. Qed.

(** *** Iteration limit *)

Lemma drive_iter_suspended (rs : RenderSettings) (U : Z) :
  limits_enable (rendering_limits rs) = true ->
  limits_type (rendering_limits rs) = "ITER" ->
  (forall k, core_ok k = true) ->
  (forall a b, (a < b)%nat -> perf_counter a < perf_counter b) ->
  forall (n : nat) f w (fuel : nat),
    iter_cycle rs U f w ->
    Z.of_nat (S (f_i f)) + Z.of_nat n = U ->
    (n < fuel)%nat ->
    (drive fuel (Gen_suspended f) w).1.1 = (n, Some StopIteration)
    /\ (drive fuel (Gen_suspended f) w).1.2 = Gen_finished.
Proof.
  intros He Ht Hok Hclock.
  induction n as [|n IH]; intros f w fuel (Hrs & HU & k0 & Hts & Hk0) Hn Hfuel.
  - destruct fuel as [|fuel]; [lia|].
    assert (Hl : limit_reached f (S (f_i f)) w = (Ok true, w, [])).
    { rewrite limit_reached_iter by (rewrite Hrs; assumption).
      rewrite HU.
      replace (U =? 0) with false by (symmetry; apply Z.eqb_neq; lia).
      replace (U <=? Z.of_nat (S (f_i f))) with true
        by (symmetry; apply Z.leb_le; lia).
      reflexivity. }
    cbn [drive]. unfold next.
    rewrite (render_proc_iteration_stop _ _ _ _ Hl).
    + split; reflexivity.
    + rewrite Hts. specialize (Hclock _ _ Hk0). lia.
  - destruct fuel as [|fuel]; [lia|].
    assert (Hl : limit_reached f (S (f_i f)) w = (Ok false, w, [])).
    { rewrite limit_reached_iter by (rewrite Hrs; assumption).
      rewrite HU.
      replace (U <=? Z.of_nat (S (f_i f))) with false
        by (symmetry; apply Z.leb_gt; lia).
      rewrite andb_false_r. reflexivity. }
    destruct (render_proc_iteration_yield _ _ _ _ Hl (Hok _))
      as (f' & w' & ev & Hit & Hrs' & Hts' & Hi' & Hcr & Hui & _ & _).
    cbn [drive]. unfold next. rewrite Hit.
    destruct (IH f' w' fuel) as [IH1 IH2].
    + repeat split; [congruence | congruence |].
      exists k0. split; [congruence | lia].
    + rewrite Hi'. lia.
    + lia.
    + destruct (drive fuel (Gen_suspended f') w') as [[[c e] g''] w''].
      cbn in IH1, IH2 |- *. inversion IH1; subst. split; reflexivity.
Qed.

Lemma same_scene_trans w1 w2 w3 :
  same_scene w1 w2 -> same_scene w2 w3 -> same_scene w1 w3.
Proof.
  unfold same_scene. intros H1 H2.
  repeat match goal with H : _ /\ _ |- _ => destruct H end.
  repeat split; congruence.
Qed.

(** The code before the loop as a whole. *)
Lemma render_proc_setup_ok w (rt : nat) (sm : Z) :
  (forall k, core_ok k = true) ->
  render_targets (sr w) = Some rt ->
  (region (sr w) <> None -> resolution (sr w) <> None) ->
  let rs := render_settings (sr w) in
  (render_proc_samples rs w).1.1 = Ok sm ->
  exists f w2 evs,
    render_proc_setup w = (Ok f, w2, evs)
    /\ f_rs f = rs
    /\ f_samples f = sm
    /\ f_time_start f = perf_counter (clock_reads w)
    /\ f_i f = 0%nat
    /\ clock_reads w2 = S (S (S (clock_reads w)))
    /\ used_iterations (sr w2)
       = used_iterations (sr (render_proc_samples rs w).1.2)
    /\ ContextSetParameter1u "aasamples" (U_int sm) ∈ evs
    /\ same_scene w w2
    /\ im_prepared (sr w2) = im_prepared (sr w).
Proof.
  intros Hok Hrt Hreg rs Hsm.
  destruct (render_proc_samples_frame rs w) as (Hsc & Hcr & _ & Him & Hev).
  destruct (render_proc_samples rs w) as [[r w1] evs1] eqn:Es.
  cbn in Hsm, Hsc, Hcr, Him, Hev. subst r evs1.
  pose proof Hsc as (_ & _ & _ & _ & _ & _ & _ & Hres & Hrg & _ & Hrt1 & _).
  destruct (render_proc_apply_ok rs sm w1 rt Hok) as (f & Hf).
  { congruence. }
  { rewrite Hres, Hrg. exact Hreg. }
  destruct (render_proc_apply_frame rs sm w1) as (Hsc2 & Him2 & _).
  destruct (render_proc_apply rs sm w1) as [[r2 w2] evs2] eqn:Ea.
  cbn in Hf, Hsc2, Him2.
  destruct Hf as (-> & H1 & H2 & H3 & H4 & H5 & H6 & H7).
  exists f, w2, evs2. split.
  - unfold render_proc_setup.
    rewrite (bind_ok_nil _ _ w (render_settings (sr w)) w eq_refl).
    fold rs. rewrite (bind_ok_nil _ _ _ _ _ Es). exact Ea.
  - cbn [fst snd].
    repeat match goal with |- _ /\ _ => split end;
      try congruence; try assumption.
    eapply same_scene_trans; eassumption.
Qed.

(** A cycle with an iteration limit: the iteration count the code before
    the loop computes is the number of values the generator yields, and
    then the generator is finished. *)
Lemma drive_iter_created w (rt : nat) (fuel : nat) :
  let rs := render_settings (sr w) in
  let eff := effective_samples (is_production (sr w)) get_user_settings in
  let U := Z.max 1 (Z.quot (limits_iterations (rendering_limits rs)
                            * samples get_user_settings) eff) in
  limits_enable (rendering_limits rs) = true ->
  limits_type (rendering_limits rs) = "ITER" ->
  eff <> 0 ->
  (forall k, core_ok k = true) ->
  (forall a b, (a < b)%nat -> perf_counter a < perf_counter b) ->
  render_targets (sr w) = Some rt ->
  (region (sr w) <> None -> resolution (sr w) <> None) ->
  (Z.to_nat U < fuel)%nat ->
  (drive fuel Gen_created w).1.1 = (Z.to_nat U, Some StopIteration)
  /\ (drive fuel Gen_created w).1.2 = Gen_finished.
Proof.
  intros rs eff U He Ht Heff Hok Hclock Hrt Hreg Hfuel.
  destruct (render_proc_samples_iter rs w He Ht Heff) as [Hsm HU].
  fold eff in Hsm. fold eff U in HU.
  destruct (render_proc_setup_ok w rt eff Hok Hrt Hreg Hsm)
    as (f & w2 & evs & Hsetup & Hrs & _ & Hts & Hi & Hcr & Hui & _ & _ & _).
  fold rs in Hrs, Hui. rewrite HU in Hui.
  assert (Hl : limit_reached f 0 w2 = (Ok false, w2, [])).
  { rewrite limit_reached_iter by (rewrite Hrs; assumption).
    rewrite Hui.
    replace (U <=? Z.of_nat 0) with false
      by (symmetry; apply Z.leb_gt; lia).
    rewrite andb_false_r. reflexivity. }
  destruct (render_proc_iteration_yield _ _ _ _ Hl (Hok _))
    as (f' & w' & ev & Hit & Hrs' & Hts' & Hi' & Hcr' & Hui' & _ & _).
  assert (Hnext : next Gen_created w
                  = (Ok false, Gen_suspended f', w', evs ++ [ev])).
  { unfold next, bind. rewrite Hsetup, Hit. reflexivity. }
  destruct fuel as [|fuel]; [lia|].
  cbn [drive]. rewrite Hnext.
  destruct (drive_iter_suspended rs U He Ht Hok Hclock
              (Z.to_nat U - 1) f' w' fuel) as [D1 D2].
  - repeat split; [congruence | congruence |].
    exists (clock_reads w). split; [congruence | lia].
  - rewrite Hi'. lia.
  - lia.
  - destruct (drive fuel (Gen_suspended f') w') as [[[c e] g''] w''].
    cbn in D1, D2 |- *. inversion D1; subst. split; [|reflexivity].
    f_equal. lia.
Qed.

End RefineLoop.

(** ** The float quotient of the iteration limit

    [int(a / b)] goes through a double; as long as the dividend is below
    2^53 it is the integer quotient, rounded toward zero. *)

Lemma round_half_even_bounds (n d : Z) :
  0 <= n -> 0 < d ->
  n / d <= round_half_even n d <= n / d + 1
  /\ (round_half_even n d = n / d + 1 -> d <= 2 * (n mod d)).
Proof.
  intros Hn Hd. unfold round_half_even.
  destruct (2 * (n mod d) <? d) eqn:E1.
  - split; [lia|]. intros H. lia.
  - apply Z.ltb_ge in E1.
    destruct (d <? 2 * (n mod d)); [split; [lia|intros _; exact E1]|].
    destruct (Z.even (n / d)); split; try lia; intros _; exact E1.
Qed.

Lemma round_half_even_zero (d : Z) : 0 < d -> round_half_even 0 d = 0.
Proof.
  intros Hd. unfold round_half_even.
  rewrite Z.div_0_l, Z.mod_0_l by lia.
  destruct (2 * 0 <? d) eqn:E; [reflexivity|]. apply Z.ltb_ge in E. lia.
Qed.

Lemma pow2_pos (e : Z) : 0 <= e -> 0 < 2 ^ e.
Proof. intros H. apply Z.pow_pos_nonneg; lia. Qed.

(** [quotient_log2 n d] is the [l] with [2^l <= n/d < 2^(l+1)]. *)
Lemma quotient_log2_spec (n d : Z) :
  0 < n -> 0 < d ->
  let l := quotient_log2 n d in
  (0 <= l -> d * 2 ^ l <= n)
  /\ (l < 0 -> d <= n * 2 ^ (- l))
  /\ (0 <= l + 1 -> n < d * 2 ^ (l + 1))
  /\ (l + 1 < 0 -> n * 2 ^ (- (l + 1)) < d).
Proof.
  intros Hn Hd.
  destruct (Z.log2_spec n Hn) as [Hn1 Hn2].
  destruct (Z.log2_spec d Hd) as [Hd1 Hd2].
  pose proof (Z.log2_nonneg n) as Ln. pose proof (Z.log2_nonneg d) as Ld.
  unfold quotient_log2.
  set (ln := Z.log2 n) in *. set (ld := Z.log2 d) in *.
  rewrite Z.pow_succ_r in Hn2, Hd2 by lia.
  destruct (0 <=? ln - ld) eqn:El.
  - apply Z.leb_le in El.
    assert (Hsplit : 2 ^ ln = 2 ^ ld * 2 ^ (ln - ld)).
    { rewrite <- Z.pow_add_r by lia. f_equal; lia. }
    pose proof (pow2_pos (ln - ld) El) as Hp.
    destruct (n <? d * 2 ^ (ln - ld)) eqn:Et; cbv zeta.
    + apply Z.ltb_lt in Et.
      repeat split; intros H.
      * (* d * 2^(l-1) <= n, l - 1 >= 0 *)
        assert (Hs : 2 ^ (ln - ld) = 2 * 2 ^ (ln - ld - 1)).
        { rewrite <- Z.pow_succ_r by lia. f_equal; lia. }
        pose proof (pow2_pos (ln - ld - 1) H) as Hq.
        set (P := 2 ^ (ln - ld - 1)) in *. set (A := 2 ^ ld) in *.
        set (B := 2 ^ ln) in *. set (C := 2 ^ (ln - ld)) in *.
        assert (d * P <= 2 * A * P) by (apply Z.mul_le_mono_nonneg_r; lia).
        assert (B = 2 * A * P) by (rewrite Hsplit, Hs; ring).
        lia.
      * (* l - 1 < 0: l = 0 *)
        assert (E0 : 2 ^ ln = 2 ^ ld) by (f_equal; lia).
        replace (- (ln - ld - 1)) with 1 by lia.
        change (2 ^ 1) with 2. lia.
      * replace (ln - ld - 1 + 1) with (ln - ld) by lia. exact Et.
      * lia.
    + apply Z.ltb_ge in Et.
      repeat split; intros H.
      * exact Et.
      * lia.
      * replace (ln - ld + 1) with (Z.succ (ln - ld)) by lia.
        rewrite Z.pow_succ_r by lia.
        assert (2 ^ ld * 2 ^ (ln - ld) <= d * 2 ^ (ln - ld))
          by (apply Z.mul_le_mono_nonneg_r; lia).
        lia.
      * lia.
  - apply Z.leb_gt in El.
    assert (Hsplit : 2 ^ ld = 2 ^ ln * 2 ^ (- (ln - ld))).
    { rewrite <- Z.pow_add_r by lia. f_equal; lia. }
    assert (HL : 0 <= - (ln - ld)) by lia.
    pose proof (pow2_pos _ HL) as Hp.
    destruct (n * 2 ^ (- (ln - ld)) <? d) eqn:Et; cbv zeta.
    + apply Z.ltb_lt in Et.
      repeat split; intros H; try lia.
      * replace (- (ln - ld - 1)) with (Z.succ (- (ln - ld))) by lia.
        rewrite Z.pow_succ_r by lia.
        assert (2 ^ ln * 2 ^ (- (ln - ld)) <= n * 2 ^ (- (ln - ld)))
          by (apply Z.mul_le_mono_nonneg_r; lia).
        lia.
      * replace (- (ln - ld - 1 + 1)) with (- (ln - ld)) by lia. exact Et.
    + apply Z.ltb_ge in Et.
      repeat split; intros H; try lia.
      * assert (E0 : 2 ^ ld = 2 * 2 ^ ln).
        { rewrite <- Z.pow_succ_r by lia. f_equal; lia. }
        replace (ln - ld + 1) with 0 by lia.
        change (2 ^ 0) with 1. lia.
      * assert (Hs : 2 ^ (- (ln - ld)) = 2 * 2 ^ (- (ln - ld + 1))).
        { rewrite <- Z.pow_succ_r by lia. f_equal; lia. }
        assert (HL' : 0 <= - (ln - ld + 1)) by lia.
        pose proof (pow2_pos _ HL') as Hq.
        assert (n * 2 ^ (- (ln - ld + 1)) < 2 * 2 ^ ln * 2 ^ (- (ln - ld + 1)))
          by (apply Z.mul_lt_mono_pos_r; lia).
        assert (2 ^ ld = 2 * 2 ^ ln * 2 ^ (- (ln - ld + 1)))
          by (rewrite Hsplit, Hs; ring).
        lia.
Qed.

Lemma div_between (m P k : Z) : 0 < P -> k * P <= m < (k + 1) * P -> m / P = k.
Proof.
  intros HP [H1 H2]. symmetry. apply (Z.div_unique m P k (m - k * P)); lia.
Qed.

Lemma double_of_quotient_exact (n d : Z) :
  0 <= n < 2 ^ 53 -> 0 < d ->
  let m := (double_of_quotient n d).1 in
  let e := (double_of_quotient n d).2 in
  (0 <= e -> m * 2 ^ e = n / d /\ m * 2 ^ e < 2 ^ 1024)
  /\ (e < 0 -> m / 2 ^ (- e) = n / d).
Proof.
  intros [Hn0 Hn] Hd. unfold double_of_quotient. cbn [fst snd].
  set (fl := quotient_log2 n d).
  set (e := Z.max (-1074) (fl - 52)).
  assert (Hbig : 2 ^ 53 < 2 ^ 1024) by (vm_compute; reflexivity).
  destruct (Z.eq_dec n 0) as [->|Hnz].
  { assert (Hm : (if 0 <=? e then round_half_even 0 (d * 2 ^ e)
                  else round_half_even (0 * 2 ^ (- e)) d) = 0).
    { destruct (0 <=? e) eqn:Ee.
      - apply Z.leb_le in Ee. apply round_half_even_zero.
        pose proof (pow2_pos e Ee). nia.
      - rewrite Z.mul_0_l. apply round_half_even_zero. exact Hd. }
    rewrite Hm, Z.mul_0_l. rewrite !Zdiv_0_l.
    split; intros; [split|]; lia. }
  assert (Hnpos : 0 < n) by lia.
  destruct (quotient_log2_spec n d Hnpos Hd) as (S1 & S2 & S3 & S4).
  fold fl in S1, S2, S3, S4.
  destruct (0 <=? e) eqn:Ee.
  - (* the quotient needs all 53 bits: the divisor is 1 *)
    apply Z.leb_le in Ee.
    assert (Hfl : 52 <= fl) by (subst e; lia).
    specialize (S1 ltac:(lia)).
    assert (Hp52 : 2 ^ 52 <= 2 ^ fl) by (apply Z.pow_le_mono_r; lia).
    assert (Hfl' : fl < 53).
    { apply (Z.pow_lt_mono_r_iff 2); [lia|lia|].
      pose proof (pow2_pos fl ltac:(lia)). nia. }
    assert (Hd1 : d = 1).
    { change (2 ^ 53) with (2 * 2 ^ 52) in Hn.
      assert (d * 2 ^ 52 <= d * 2 ^ fl)
        by (apply Z.mul_le_mono_nonneg_l; lia).
      assert (0 < 2 ^ 52) by (apply pow2_pos; lia). nia. }
    assert (He0 : e = 0) by (subst e; lia).
    rewrite He0, Hd1. change (2 ^ 0) with 1. rewrite !Z.mul_1_r.
    split; [|lia]. intros _.
    assert (Hr : round_half_even n 1 = n).
    { unfold round_half_even. rewrite Z.div_1_r, Z.mod_1_r. reflexivity. }
    rewrite Hr, Z.div_1_r. split; [reflexivity|lia].
  - apply Z.leb_gt in Ee. split; [lia|]. intros _.
    set (P := 2 ^ (- e)).
    assert (HP : 0 < P) by (apply pow2_pos; lia).
    set (x := n * P).
    assert (Hx0 : 0 <= x) by (subst x; nia).
    destruct (round_half_even_bounds x d Hx0 Hd) as [[Hlo Hhi] Hup].
    set (m := round_half_even x d) in *.
    set (k := n / d).
    assert (Hk1 : d * k <= n) by (apply Z.mul_div_le; lia).
    assert (Hk2 : n < d * (k + 1)).
    { pose proof (Z.mul_succ_div_gt n d Hd). fold k in H. lia. }
    assert (Hk0 : 0 <= k) by (apply Z.div_pos; lia).
    assert (Hxlo : k * P <= x / d).
    { apply Z.div_le_lower_bound; [lia|]. subst x.
      replace (d * (k * P)) with (d * k * P) by ring.
      apply Z.mul_le_mono_nonneg_r; lia. }
    assert (Hxhi : x / d < (k + 1) * P).
    { apply Z.div_lt_upper_bound; [lia|]. subst x.
      replace (d * ((k + 1) * P)) with (d * (k + 1) * P) by ring.
      apply Z.mul_lt_mono_pos_r; lia. }
    apply div_between; [exact HP|]. split; [lia|].
    destruct (Z_lt_le_dec (fl - 52) (-1074)) as [Hsub|Hnorm].
    + (* below the smallest normal number: the quotient is below one *)
      assert (HE : - e = 1074) by (subst e; lia).
      specialize (S4 ltac:(lia)).
      set (F := - (fl + 1)) in S4.
      assert (HF : 1022 <= F) by (subst F; lia).
      assert (H1022 : 2 ^ 1022 <= 2 ^ F) by (apply Z.pow_le_mono_r; lia).
      assert (Hnd : n * 2 ^ 1022 < d).
      { assert (n * 2 ^ 1022 <= n * 2 ^ F)
          by (apply Z.mul_le_mono_nonneg_l; lia).
        lia. }
      assert (HPeq : P = 2 ^ 1022 * 2 ^ 52).
      { subst P. rewrite HE. rewrite <- Z.pow_add_r by lia. reflexivity. }
      assert (H52 : 0 < 2 ^ 52) by (apply pow2_pos; lia).
      assert (H1022' : 0 < 2 ^ 1022) by (apply pow2_pos; lia).
      assert (Hk : k = 0).
      { subst k. apply Z.div_small. split; [lia|]. nia. }
      assert (Hxd : x / d < 2 ^ 52).
      { apply Z.div_lt_upper_bound; [lia|]. subst x. rewrite HPeq.
        replace (n * (2 ^ 1022 * 2 ^ 52)) with (n * 2 ^ 1022 * 2 ^ 52) by ring.
        apply Z.mul_lt_mono_pos_r; lia. }
      rewrite Hk. rewrite HPeq.
      assert (2 ^ 52 * 2 <= 2 ^ 1022 * 2 ^ 52).
      { assert (2 <= 2 ^ 1022) by (vm_compute; discriminate). nia. }
      lia.
    + (* a normal number: the rounding step is below the distance of the
         quotient to the next integer *)
      assert (HE : - e = 52 - fl) by (subst e; lia).
      assert (HdP : d < 2 * P).
      { subst P. rewrite HE.
        replace (2 * 2 ^ (52 - fl)) with (2 ^ (53 - fl)).
        2:{ rewrite <- Z.pow_succ_r by lia. f_equal; lia. }
        destruct (Z_lt_le_dec fl 0) as [Hneg|Hpos].
        - specialize (S2 Hneg).
          assert (H53 : 2 ^ (53 - fl) = 2 ^ 53 * 2 ^ (- fl)).
          { rewrite <- Z.pow_add_r by lia. f_equal; lia. }
          assert (0 < 2 ^ (- fl)) by (apply pow2_pos; lia).
          assert (n * 2 ^ (- fl) < 2 ^ 53 * 2 ^ (- fl))
            by (apply Z.mul_lt_mono_pos_r; lia).
          lia.
        - specialize (S1 Hpos).
          assert (H53 : 2 ^ 53 = 2 ^ (53 - fl) * 2 ^ fl).
          { rewrite <- Z.pow_add_r by lia. f_equal; lia. }
          assert (0 < 2 ^ fl) by (apply pow2_pos; lia).
          apply (Z.mul_lt_mono_pos_r (2 ^ fl)); lia. }
      destruct (Z.eq_dec m ((k + 1) * P)) as [Heq|Hne]; [|lia].
      exfalso.
      assert (Hm1 : m = x / d + 1) by lia.
      specialize (Hup Hm1).
      pose proof (Z.div_mod x d ltac:(lia)) as Hdm.
      assert (Hxd : x / d = (k + 1) * P - 1) by lia.
      rewrite Hxd in Hdm. subst x.
      assert (Ht : 1 <= d * (k + 1) - n) by lia.
      assert (Hmod : (n * P) mod d = d - (d * (k + 1) - n) * P) by nia.
      assert (P <= (d * (k + 1) - n) * P) by nia.
      lia.
Qed.

Lemma py_int_truediv_exact (a b : Z) :
  b <> 0 -> Z.abs a < 2 ^ 53 ->
  py_int_truediv a b = Some (Z.quot a b).
Proof.
  intros Hb Ha. unfold py_int_truediv.
  assert (Hd : 0 < Z.abs b) by lia.
  assert (Hn : 0 <= Z.abs a < 2 ^ 53) by lia.
  destruct (double_of_quotient_exact (Z.abs a) (Z.abs b) Hn Hd) as [H1 H2].
  destruct (double_of_quotient (Z.abs a) (Z.abs b)) as [m e].
  cbn [fst snd] in H1, H2.
  rewrite (Z.quot_div a b Hb).
  destruct (0 <=? e) eqn:Ee.
  - apply Z.leb_le in Ee. destruct (H1 Ee) as [-> Hlt].
    destruct (2 ^ 1024 <=? Z.abs a / Z.abs b) eqn:Eo; [|reflexivity].
    apply Z.leb_le in Eo. lia.
  - apply Z.leb_gt in Ee. rewrite (H2 Ee). reflexivity.
Qed.


(** The bound is sharp: one above 2^53 the double is the even neighbour. *)
Lemma py_int_truediv_beyond :
  py_int_truediv (2 ^ 53 + 1) 1 = Some (2 ^ 53)
  /\ Z.quot (2 ^ 53 + 1) 1 = 2 ^ 53 + 1.
Proof. vm_compute. split; reflexivity. Qed.

Section TimeLimit.

Context {Obj : Type} {ext : Externals Obj}.
Implicit Types (w : World Obj) (f : Frame Obj) (g : Generator Obj).

(** In a cycle with a time limit every pass reads the clock four times. *)
Lemma drive_time_suspended (rs : RenderSettings) (k : nat) :
  limits_enable (rendering_limits rs) = true ->
  limits_type (rendering_limits rs) = "TIME" ->
  limits_time (rendering_limits rs) <> 0 ->
  (forall j, core_ok j = true) ->
  (forall a b, (a < b)%nat -> perf_counter a < perf_counter b) ->
  forall (n : nat) f w (fuel : nat),
    clocked_cycle rs k f w ->
    (forall j, (j < n)%nat ->
       elapsed_at k (S (f_i f) + j) < limits_time (rendering_limits rs)) ->
    limits_time (rendering_limits rs) <= elapsed_at k (S (f_i f) + n) ->
    (n < fuel)%nat ->
    (drive fuel (Gen_suspended f) w).1.1 = (n, Some StopIteration)
    /\ (drive fuel (Gen_suspended f) w).1.2 = Gen_finished.
Proof.
  intros He Ht HT Hok Hclock.
  induction n as [|n IH]; intros f w fuel (Hrs & Hts & Hcr) Hlt Hge Hfuel.
  - destruct fuel as [|fuel]; [lia|].
    assert (Hl : limit_reached f (S (f_i f)) w
                 = (Ok true, with_clock_reads (S (clock_reads w)) w, [])).
    { rewrite limit_reached_time by (rewrite Hrs; assumption).
      rewrite Hrs, Hts, Hcr. unfold elapsed_at in Hge.
      rewrite Nat.add_0_r in Hge.
      replace (_ <=? _) with true by (symmetry; apply Z.leb_le; exact Hge).
      reflexivity. }
    cbn [drive]. unfold next.
    rewrite (render_proc_iteration_stop _ _ _ _ Hl).
    + split; reflexivity.
    + destruct w as [s c ths att nid cr nc]. cbn in *. rewrite Hts.
      assert (Hk : (k < S cr)%nat) by lia.
      specialize (Hclock _ _ Hk). lia.
  - destruct fuel as [|fuel]; [lia|].
    assert (Hl : limit_reached f (S (f_i f)) w
                 = (Ok false, with_clock_reads (S (clock_reads w)) w, [])).
    { rewrite limit_reached_time by (rewrite Hrs; assumption).
      rewrite Hrs, Hts, Hcr. specialize (Hlt 0%nat ltac:(lia)).
      unfold elapsed_at in Hlt. rewrite Nat.add_0_r in Hlt.
      replace (_ <=? _) with false by (symmetry; apply Z.leb_gt; exact Hlt).
      reflexivity. }
    destruct (render_proc_iteration_yield _ _ _ _ Hl (Hok _))
      as (f' & w' & ev & Hit & Hrs' & Hts' & Hi' & Hcr' & _).
    cbn [drive]. unfold next. rewrite Hit.
    destruct (IH f' w' fuel) as [IH1 IH2].
    + repeat split; [congruence | congruence |].
      rewrite Hcr', Hi'. destruct w as [s c ths att nid cr nc]. cbn in *. lia.
    + intros j Hj. rewrite Hi'.
      replace (S (S (f_i f)) + j)%nat with (S (f_i f) + S j)%nat by lia.
      apply Hlt. lia.
    + rewrite Hi'.
      replace (S (S (f_i f)) + n)%nat with (S (f_i f) + S n)%nat by lia.
      exact Hge.
    + lia.
    + destruct (drive fuel (Gen_suspended f') w') as [[[c e] g''] w''].
      cbn in IH1, IH2 |- *. inversion IH1; subst. split; reflexivity.
Qed.

(** A cycle with a time limit, from the start: the generator yields as
    long as the limit tests find less than the limit elapsed, and is
    finished by the first test that finds the limit reached. *)
Lemma drive_time_created w (rt : nat) (n fuel : nat) :
  let rs := render_settings (sr w) in
  let T := limits_time (rendering_limits rs) in
  let k := clock_reads w in
  limits_enable (rendering_limits rs) = true ->
  limits_type (rendering_limits rs) = "TIME" ->
  T <> 0 ->
  (forall j, core_ok j = true) ->
  (forall a b, (a < b)%nat -> perf_counter a < perf_counter b) ->
  render_targets (sr w) = Some rt ->
  (region (sr w) <> None -> resolution (sr w) <> None) ->
  (forall j, (j < n)%nat -> elapsed_at k j < T) ->
  T <= elapsed_at k n ->
  (n < fuel)%nat ->
  (drive fuel Gen_created w).1.1 = (n, Some StopIteration)
  /\ (drive fuel Gen_created w).1.2 = Gen_finished.
Proof.
  intros rs T k He Ht HT Hok Hclock Hrt Hreg Hlt Hge Hfuel.
  assert (Hsm : (render_proc_samples rs w).1.1 = Ok (samples get_user_settings)).
  { rewrite render_proc_samples_other; [reflexivity|].
    right. rewrite Ht. reflexivity. }
  destruct (render_proc_setup_ok w rt _ Hok Hrt Hreg Hsm)
    as (f & w2 & evs & Hsetup & Hrs & _ & Hts & Hi & Hcr & _).
  fold rs in Hrs. fold k in Hts, Hcr.
  destruct fuel as [|fuel]; [lia|].
  destruct n as [|n].
  - assert (Hl : limit_reached f 0 w2
                 = (Ok true, with_clock_reads (S (clock_reads w2)) w2, [])).
    { rewrite limit_reached_time by (rewrite Hrs; assumption).
      rewrite Hrs, Hts, Hcr. unfold elapsed_at in Hge.
      replace (k + 3 + 4 * 0)%nat with (S (S (S k))) in Hge by lia.
      fold T. replace (_ <=? _) with true by (symmetry; apply Z.leb_le; exact Hge).
      reflexivity. }
    assert (Hnext : next Gen_created w
                    = (Raise StopIteration, Gen_finished,
                       with_clock_reads (S (clock_reads
                         (with_clock_reads (S (clock_reads w2)) w2)))
                         (with_clock_reads (S (clock_reads w2)) w2),
                       evs ++ [])).
    { unfold next, bind. rewrite Hsetup.
      rewrite (render_proc_iteration_stop _ _ _ _ Hl); [reflexivity|].
      destruct w2 as [s c ths att nid cr nc]. cbn in *. rewrite Hts.
      assert (Hk : (k < S cr)%nat) by lia.
      specialize (Hclock _ _ Hk). lia. }
    cbn [drive]. rewrite Hnext. split; reflexivity.
  - assert (Hl : limit_reached f 0 w2
                 = (Ok false, with_clock_reads (S (clock_reads w2)) w2, [])).
    { rewrite limit_reached_time by (rewrite Hrs; assumption).
      rewrite Hrs, Hts, Hcr. specialize (Hlt 0%nat ltac:(lia)).
      unfold elapsed_at in Hlt.
      replace (k + 3 + 4 * 0)%nat with (S (S (S k))) in Hlt by lia.
      fold T. replace (_ <=? _) with false by (symmetry; apply Z.leb_gt; exact Hlt).
      reflexivity. }
    destruct (render_proc_iteration_yield _ _ _ _ Hl (Hok _))
      as (f' & w' & ev & Hit & Hrs' & Hts' & Hi' & Hcr' & _).
    assert (Hnext : next Gen_created w
                    = (Ok false, Gen_suspended f', w', evs ++ [ev])).
    { unfold next, bind. rewrite Hsetup, Hit. reflexivity. }
    cbn [drive]. rewrite Hnext.
    destruct (drive_time_suspended rs k He Ht HT Hok Hclock n f' w' fuel)
      as [D1 D2].
    + repeat split; [congruence | congruence |].
      rewrite Hcr', Hi'. destruct w2 as [s c ths att nid cr nc]. cbn in *. lia.
    + intros j Hj. rewrite Hi'. apply Hlt. lia.
    + rewrite Hi'. exact Hge.
    + lia.
    + destruct (drive fuel (Gen_suspended f') w') as [[[c e] g''] w''].
      cbn in D1, D2 |- *. inversion D1; subst. split; reflexivity.
Qed.

(** *** No limit *)

Lemma drive_unlimited_suspended :
  (forall j, core_ok j = true) ->
  forall (fuel : nat) f w,
    limits_enable (rendering_limits (f_rs f)) = false ->
    (drive fuel (Gen_suspended f) w).1.1 = (fuel, None).
Proof.
  intros Hok. induction fuel as [|fuel IH]; intros f w He; [reflexivity|].
  pose proof (limit_reached_never f (S (f_i f)) w He) as Hl.
  destruct (render_proc_iteration_yield _ _ _ _ Hl (Hok _))
    as (f' & w' & ev & Hit & Hrs' & _).
  cbn [drive]. unfold next. rewrite Hit.
  specialize (IH f' w'). rewrite Hrs' in IH. specialize (IH He).
  destruct (drive fuel (Gen_suspended f') w') as [[[c e] g''] w''].
  cbn in IH |- *. inversion IH; subst. reflexivity.
Qed.

Lemma drive_unlimited_created w (rt : nat) (fuel : nat) :
  limits_enable (rendering_limits (render_settings (sr w))) = false ->
  (forall j, core_ok j = true) ->
  render_targets (sr w) = Some rt ->
  (region (sr w) <> None -> resolution (sr w) <> None) ->
  (drive fuel Gen_created w).1.1 = (fuel, None).
Proof.
  intros He Hok Hrt Hreg.
  destruct fuel as [|fuel]; [reflexivity|].
  assert (Hsm : (render_proc_samples (render_settings (sr w)) w).1.1
                = Ok (samples get_user_settings)).
  { rewrite render_proc_samples_other; [reflexivity|]. left. exact He. }
  destruct (render_proc_setup_ok w rt _ Hok Hrt Hreg Hsm)
    as (f & w2 & evs & Hsetup & Hrs & _).
  assert (He' : limits_enable (rendering_limits (f_rs f)) = false)
    by (rewrite Hrs; exact He).
  pose proof (limit_reached_never f 0 w2 He') as Hl.
  destruct (render_proc_iteration_yield _ _ _ _ Hl (Hok _))
    as (f' & w' & ev & Hit & Hrs' & _).
  assert (Hnext : next Gen_created w
                  = (Ok false, Gen_suspended f', w', evs ++ [ev])).
  { unfold next, bind. rewrite Hsetup, Hit. reflexivity. }
  cbn [drive]. rewrite Hnext.
  pose proof (drive_unlimited_suspended Hok fuel f' w') as D.
  rewrite Hrs' in D. specialize (D He').
  destruct (drive fuel (Gen_suspended f') w') as [[[c e] g''] w''].
  cbn in D |- *. inversion D; subst. reflexivity.
Qed.

(** The first [next] of a cycle with a time limit yields when the code
    before the loop took less than the limit. *)
Lemma next_time_created_yield w (rt : nat) :
  let rs := render_settings (sr w) in
  let T := limits_time (rendering_limits rs) in
  limits_enable (rendering_limits rs) = true ->
  limits_type (rendering_limits rs) = "TIME" ->
  T <> 0 ->
  (forall j, core_ok j = true) ->
  render_targets (sr w) = Some rt ->
  (region (sr w) <> None -> resolution (sr w) <> None) ->
  elapsed_at (clock_reads w) 0 < T ->
  (next Gen_created w).1.1.1 = Ok false.
Proof.
  intros rs T He Ht HT Hok Hrt Hreg Hlt.
  assert (Hsm : (render_proc_samples rs w).1.1 = Ok (samples get_user_settings)).
  { rewrite render_proc_samples_other; [reflexivity|].
    right. rewrite Ht. reflexivity. }
  destruct (render_proc_setup_ok w rt _ Hok Hrt Hreg Hsm)
    as (f & w2 & evs & Hsetup & Hrs & _ & Hts & Hi & Hcr & _).
  fold rs in Hrs.
  assert (Hl : limit_reached f 0 w2
               = (Ok false, with_clock_reads (S (clock_reads w2)) w2, [])).
  { rewrite limit_reached_time by (rewrite Hrs; assumption).
    rewrite Hrs, Hts, Hcr. unfold elapsed_at in Hlt.
    replace (clock_reads w + 3 + 4 * 0)%nat
      with (S (S (S (clock_reads w)))) in Hlt by lia.
    fold T. replace (_ <=? _) with false by (symmetry; apply Z.leb_gt; exact Hlt).
    reflexivity. }
  destruct (render_proc_iteration_yield _ _ _ _ Hl (Hok _))
    as (f' & w' & ev & Hit & _).
  unfold next, bind. rewrite Hsetup, Hit. reflexivity.
Qed.

End TimeLimit.

Section Limits.

Context {Obj : Type} {ext : Externals Obj}.
Implicit Types (w : World Obj) (f : Frame Obj) (g : Generator Obj).

(** C3, as the code has it: with an 'ITER' limit a new [render_proc()]
    yields exactly [used_iterations] times and is then finished, where
    [used_iterations] is the configured limit N scaled by user samples over
    effective samples and clamped to at least one; outside production mode,
    with N at least one, that is exactly N. The product of N and the user
    samples is taken to be below 2^53, where the float quotient of the
    code is the integer quotient; the engine is taken to work and the
    clock to move between readings (the log message after the loop divides
    by the time the cycle took). *)
Theorem iteration_limit_yields w (rt : nat) (fuel : nat) :
  let rs := render_settings (sr w) in
  let N := limits_iterations (rendering_limits rs) in
  let eff := effective_samples (is_production (sr w)) get_user_settings in
  let U := Z.max 1 (Z.quot (N * samples get_user_settings) eff) in
  limits_enable (rendering_limits rs) = true ->
  limits_type (rendering_limits rs) = "ITER" ->
  eff <> 0 ->
  Z.abs (N * samples get_user_settings) < 2 ^ 53 ->
  (forall k, core_ok k = true) ->
  (forall a b, (a < b)%nat -> perf_counter a < perf_counter b) ->
  render_targets (sr w) = Some rt ->
  (region (sr w) <> None -> resolution (sr w) <> None) ->
  (Z.to_nat U < fuel)%nat ->
  (drive fuel Gen_created w).1.1 = (Z.to_nat U, Some StopIteration)
  /\ (drive fuel Gen_created w).1.2 = Gen_finished
  /\ (is_production (sr w) = false -> 1 <= N -> U = N)
  /\ py_int_truediv (N * samples get_user_settings) eff
     = Some (Z.quot (N * samples get_user_settings) eff).
Proof.
  intros rs N eff U He Ht Heff Hbound Hok Hclock Hrt Hreg Hfuel.
  destruct (drive_iter_created w rt fuel He Ht Heff Hok Hclock Hrt Hreg Hfuel)
    as [D1 D2].
  repeat split; [exact D1 | exact D2 | |].
  - intros Hp HN. subst U. revert Heff. subst eff.
    unfold effective_samples. rewrite Hp. cbn [andb].
    rewrite andb_false_r. intros Hs.
    rewrite Z.quot_mul by exact Hs. lia.
  - apply py_int_truediv_exact; assumption.
Qed.


(** C5, as the code has it: with a 'TIME' limit T other than zero the
    generator yields as long as the limit test at the top of the loop finds
    less than T elapsed since the cycle began, and is finished by the first
    test that finds T reached; it yields at least once when the code before
    the loop took less than T; a finished generator yields nothing more;
    and with no limit enabled it never finishes. The engine is taken to
    work and the clock to move between readings. *)
Theorem time_limit_yields w (rt : nat) :
  let rs := render_settings (sr w) in
  let T := limits_time (rendering_limits rs) in
  let k := clock_reads w in
  (forall j, core_ok j = true) ->
  (forall a b, (a < b)%nat -> perf_counter a < perf_counter b) ->
  render_targets (sr w) = Some rt ->
  (region (sr w) <> None -> resolution (sr w) <> None) ->
  (limits_enable (rendering_limits rs) = true ->
   limits_type (rendering_limits rs) = "TIME" ->
   T <> 0 ->
     (forall n fuel : nat,
        (forall j, (j < n)%nat -> elapsed_at k j < T) ->
        T <= elapsed_at k n ->
        (n < fuel)%nat ->
        (drive fuel Gen_created w).1.1 = (n, Some StopIteration)
        /\ (drive fuel Gen_created w).1.2 = Gen_finished)
     /\ (elapsed_at k 0 < T -> (next Gen_created w).1.1.1 = Ok false))
  /\ (forall w' : World Obj,
        next Gen_finished w' = (Raise StopIteration, Gen_finished, w', []))
  /\ (limits_enable (rendering_limits rs) = false ->
      forall fuel : nat, (drive fuel Gen_created w).1.1 = (fuel, None)).
Proof.
  intros rs T k Hok Hclock Hrt Hreg.
  split; [|split].
  - intros He Ht HT. split.
    + intros n fuel Hlt Hge Hfuel.
      exact (drive_time_created w rt n fuel He Ht HT Hok Hclock Hrt Hreg
               Hlt Hge Hfuel).
    + intros Hlt.
      exact (next_time_created_yield w rt He Ht HT Hok Hrt Hreg Hlt).
  - intros w'. reflexivity.
  - intros He fuel.
    exact (drive_unlimited_created w rt fuel He Hok Hrt Hreg).
Qed.

End Limits.

(** The engine never fails in [demo], and its clock moves at every
    reading. *)
Lemma demo_clock_strict (a b : nat) : (a < b)%nat -> Z.of_nat a < Z.of_nat b.
Proof. lia. Qed.

Lemma iteration_limit_yields_witness :
  (drive (ext := demo) 7 Gen_created (demo_world false five_iterations)).1.1
  = (5%nat, Some StopIteration).
Proof.
  pose proof (iteration_limit_yields (ext := demo)
                (demo_world false five_iterations) 0%nat 7) as H.
  cbv zeta in H.
  destruct H as (H & _ & _).
  - reflexivity.
  - reflexivity.
  - vm_compute. discriminate.
  - vm_compute. reflexivity.
  - reflexivity.
  - exact demo_clock_strict.
  - reflexivity.
  - vm_compute. discriminate.
  - vm_compute. lia.
  - exact H.
Defined.

(** A final render on GPU and CPU together with one user sample and a
    limit of five iterations yields once, not five times. *)
Lemma iteration_limit_counterexample :
  limits_iterations (rendering_limits
    (render_settings (sr (demo_world true five_iterations)))) = 5
  /\ (drive (ext := mixed) 10 Gen_created
        (demo_world true five_iterations)).1.1
     = (1%nat, Some StopIteration)
  /\ (drive (ext := mixed) 10 Gen_created
        (demo_world true five_iterations)).1.1
     <> (5%nat, Some StopIteration).
Proof.
  split; [reflexivity|].
  assert (H : (drive (ext := mixed) 10 Gen_created
                 (demo_world true five_iterations)).1.1
              = (1%nat, Some StopIteration)) by (vm_compute; reflexivity).
  split; [exact H|]. rewrite H. discriminate.
Qed.


(** With the clock [demo] reads and a limit of twenty of its units, the
    limit tests find 3, 7, 11, 15, 19 and then 23 units elapsed. *)
Lemma time_limit_yields_witness :
  (drive (ext := demo) 9 Gen_created (demo_world false twenty_ticks)).1.1
  = (5%nat, Some StopIteration).
Proof.
  pose proof (time_limit_yields (ext := demo)
                (demo_world false twenty_ticks) 0%nat) as H.
  cbv zeta in H.
  destruct H as ((H & _) & _).
  - reflexivity.
  - exact demo_clock_strict.
  - reflexivity.
  - vm_compute. discriminate.
  - reflexivity.
  - reflexivity.
  - vm_compute. discriminate.
  - apply (H 5%nat 9%nat).
    + intros j Hj. unfold elapsed_at. cbn. lia.
    + vm_compute. discriminate.
    + lia.
Defined.

(** With a limit of one second and five seconds between readings of the
    clock, the first limit test already finds the limit reached: the
    generator yields nothing. *)
Lemma time_limit_counterexample :
  limits_time (rendering_limits
    (render_settings (sr (demo_world false one_second)))) = 1
  /\ (drive (ext := slow_clock) 5 Gen_created
        (demo_world false one_second)).1.1
     = (0%nat, Some StopIteration)
  /\ (next (ext := slow_clock) Gen_created
        (demo_world false one_second)).1.1.1
     = Raise StopIteration.
Proof. vm_compute. repeat split. Qed.

Section ImageCache.

Context {Obj : Type} {ext : Externals Obj}.
Implicit Types (w : World Obj) (f : Frame Obj) (g : Generator Obj).

Ltac py_eval :=
  cbv -[Z.add Z.sub Z.mul Z.quot Z.div Z.ltb Z.leb Z.eqb Z.of_nat Z.max
        core_ok perf_counter get_frame_buffer get_resolved_image
        rendermode_remap filter_remap radius_params get_user_settings
        camera_zoom_of array_equal py_eq is_same effective_samples
        lookup insert empty String.eqb
        limits_enable limits_type limits_iterations limits_time
        tm_enable tm_type wb_enable wb_color_space_value gm_enable
        gm_viewport_only rendering_limits render_mode use_clamp_irradiance
        get_max_ray_depth aa_filter tone_mapping white_balance
        gamma_correction samples device_type device_type_plus_cpu
        used_gpu_count].

Ltac split_test :=
  match goal with
  | |- context [if ?b then _ else _] =>
      let T := type of b in unify T bool; destruct b eqn:?
  | |- context [match ?x with Some _ => _ | None => _ end] =>
      destruct x eqn:?
  end.

Ltac py_cases := py_eval; repeat (split_test; py_eval).

Lemma bind_gets {E W A B} (f : W -> A) (k : A -> M E W B) (x : W) :
  bind (gets f) k x = k (f x) x.
Proof. unfold bind, gets. destruct (k (f x) x) as [[r x'] evs]. reflexivity. Qed.

(** A cached image is returned as it is: no call is made and nothing
    changes. *)
Lemma get_image_hit w (aov_name : string) (im : Image Obj) :
  im_prepared (sr w) !! aov_name = Some im ->
  get_image aov_name w = (Ok (Some im), w, []).
Proof.
  intros H. unfold get_image. rewrite bind_gets, H. reflexivity.
Qed.

(** Without a frame buffer for the channel there is no image. *)
Lemma get_image_no_data w (aov_name : string) (rt : nat) :
  im_prepared (sr w) !! aov_name = None ->
  render_targets (sr w) = Some rt ->
  get_frame_buffer (native_calls w) rt aov_name = None ->
  get_image aov_name w = (Ok None, w, []).
Proof.
  intros Hc Hrt Hfb. unfold get_image.
  rewrite bind_gets, Hc, bind_gets, Hrt, bind_gets, Hfb. reflexivity.
Qed.

Lemma bind_step {E W A B} (c : M E W A) (k : A -> M E W B)
    (x : W) (a : A) (x' : W) (evs : list E) :
  c x = (Ok a, x', evs) -> bind c k x = emitted evs (k a x').
Proof.
  intros H. unfold bind, emitted. rewrite H.
  destruct (k a x') as [[r x''] evs']. reflexivity.
Qed.

Lemma core_call_ok (ev : Event Obj) w :
  (forall k, core_ok k = true) ->
  core_call ev w = (Ok tt, with_native_calls (S (native_calls w)) w, [ev]).
Proof. intros Hok. unfold core_call. rewrite Hok. reflexivity. Qed.

(** With a working engine and a tone-mapping type the code knows, the
    post-effect chain is rebuilt; only the engine is touched. *)
Lemma rebuild_post_effects_ok (aov_name : string) w :
  (forall k, core_ok k = true) ->
  (aov_name = "default" ->
   tone_mapping_known (tone_mapping (render_settings (sr w))) = true) ->
  exists n evs,
    rebuild_post_effects aov_name w = (Ok tt, with_native_calls n w, evs).
Proof.
  intros Hok Htm.
  assert (Htm' : String.eqb aov_name "default" = true ->
                 tone_mapping_known (tone_mapping (render_settings (sr w)))
                 = true).
  { intros Ed. apply String.eqb_eq in Ed. auto. }
  clear Htm. unfold tone_mapping_known in Htm'.
  destruct w as [s c ths att n cr nc].
  destruct s as [it ii ip iip cg tip res reg trs rs pr aovs ti isp ui idv rt0 rl].
  cbn [sr render_settings] in Htm'.
  repeat (py_eval; first [rewrite Hok | split_test]).
  all: try (specialize (Htm' eq_refl);
            repeat match goal with
                   | H : String.eqb _ _ = _ |- _ => rewrite H in Htm'
                   end;
            destruct (tm_enable (tone_mapping rs)); discriminate).
  all: do 2 eexists; reflexivity.
Qed.

(** A cache miss with a frame buffer: the image is resolved, a new image
    object is built from it, cached and returned. *)
Lemma get_image_resolve w (aov_name : string) (rt : nat) (fb : Obj)
    (layers : RenderLayers Obj) :
  im_prepared (sr w) !! aov_name = None ->
  render_targets (sr w) = Some rt ->
  render_layers (sr w) = Some layers ->
  (forall k, core_ok k = true) ->
  get_frame_buffer (native_calls w) rt aov_name = Some fb ->
  (forall t, get_resolved_image t fb <> None) ->
  (aov_name = "default" ->
   tone_mapping_known (tone_mapping (render_settings (sr w))) = true) ->
  exists raw w' evs,
    get_image aov_name w
    = (Ok (Some (mkImage (next_id w) aov_name raw)), w', evs)
    /\ sr w'
       = with_im_prepared
           (<[aov_name := mkImage (next_id w) aov_name raw]>
              (im_prepared (sr w))) (sr w)
    /\ srt w' = srt w
    /\ threads w' = threads w
    /\ attached w' = attached w
    /\ next_id w' = S (next_id w)
    /\ RenderTargets_get_resolved_image rt fb ∈ evs
    /\ prepare_image_by_layer aov_name raw ∈ evs.
Proof.
  intros Hc Hrt Hl Hok Hfb Hri Htm.
  destruct (rebuild_post_effects_ok aov_name w Hok Htm) as (n & evs & Hpe).
  unfold get_image.
  rewrite bind_gets, Hc, bind_gets, Hrt, bind_gets, Hfb.
  rewrite (bind_step _ _ _ _ _ _ Hpe).
  rewrite bind_gets.
  rewrite (bind_step _ _ _ _ _ _ (core_call_ok _ _ Hok)).
  cbn [native_calls with_native_calls].
  destruct (get_resolved_image n fb) as [raw|] eqn:Er;
    [|exfalso; eapply Hri; eassumption].
  exists raw.
  destruct w as [s c ths att nid cr nc]. cbn in Hl, Hc. 
  cbv [bind gets new_object emit upd_sr modify ret emitted with_sr
       with_native_calls with_next_id sr srt threads attached next_id
       clock_reads native_calls fst snd].
  rewrite Hl. cbv iota beta.
  cbn [im_prepared with_im_prepared]. rewrite lookup_insert_eq.
  do 2 eexists. split; [reflexivity|].
  cbn [sr srt threads attached next_id].
  repeat match goal with |- _ /\ _ => split end; try reflexivity.
  - apply elem_of_app. right. apply list_elem_of_here.
  - apply elem_of_app. right. apply list_elem_of_further, list_elem_of_here.
Qed.

(** *** Advancing the generator empties the cache *)

Lemma limit_reached_frame f (i : nat) w :
  let run := limit_reached f i w in
  (exists b, run.1.1 = Ok b)
  /\ sr run.1.2 = sr w
  /\ srt run.1.2 = srt w
  /\ threads run.1.2 = threads w
  /\ attached run.1.2 = attached w
  /\ next_id run.1.2 = next_id w.
Proof.
  destruct w as [s c ths att n cr nc]. destruct f as [rs sm ts tl tol rr fi].
  py_cases; repeat split; eexists; reflexivity.
Qed.

Lemma render_proc_finish_raises f w :
  exists e, (render_proc_finish (A := Generator Obj) f w).1.1 = Raise e.
Proof.
  unfold render_proc_finish, bind, time_perf_counter.
  destruct (_ =? 0); eexists; reflexivity.
Qed.

Lemma render_proc_render_fail f (i : nat) w :
  core_ok (native_calls w) = false ->
  (render_proc_render f i w).1.1 = Raise CoreError.
Proof.
  intros Hf. destruct w as [s c ths att n cr nc]. cbn in Hf.
  destruct f as [rs sm ts tl tol [[r res]|] fi];
    py_eval; rewrite Hf; reflexivity.
Qed.

Lemma render_proc_iteration_frame f (i : nat) w g' w' evs :
  render_proc_iteration f i w = (Ok g', w', evs) ->
  im_prepared (sr w') = ∅ /\ same_scene w w'.
Proof.
  unfold render_proc_iteration. intros H.
  destruct (limit_reached_frame f i w) as ([b Hb] & Hsr & Hsrt & Hth & Hat & Hn).
  destruct (limit_reached f i w) as [[r w1] evs1] eqn:El.
  cbn in Hb, Hsr, Hsrt, Hth, Hat, Hn. subst r.
  rewrite (bind_step _ _ _ _ _ _ El) in H.
  destruct b.
  - destruct (render_proc_finish_raises f w1) as [e He].
    destruct (render_proc_finish f w1) as [[r w2] evs2].
    cbn in He. subst r. discriminate H.
  - destruct (core_ok (native_calls w1)) eqn:Hok.
    + rewrite (render_proc_render_ok f i w1 Hok) in H.
      unfold emitted in H. cbn [fst snd] in H.
      injection H as _ <- _.
      unfold same_scene. cbn. rewrite Hsr, Hsrt, Hth, Hat, Hn.
      destruct (sr w). cbn. repeat split.
    + pose proof (render_proc_render_fail f i w1 Hok) as Hf.
      destruct (render_proc_render f i w1) as [[r w2] evs2].
      cbn in Hf. subst r. discriminate H.
Qed.

Lemma render_proc_setup_frame w :
  same_scene w (render_proc_setup w).1.2.
Proof.
  unfold render_proc_setup. rewrite bind_gets.
  set (rs := render_settings (sr w)).
  destruct (render_proc_samples_frame rs w) as (Hsc & _).
  destruct (render_proc_samples rs w) as [[[sm|e] w1] evs1] eqn:Es.
  - rewrite (bind_step _ _ _ _ _ _ Es).
    destruct (render_proc_apply_frame rs sm w1) as (Hsc2 & _).
    cbn in Hsc. unfold emitted. cbn [fst snd].
    eapply same_scene_trans; eassumption.
  - unfold bind. rewrite Es. exact Hsc.
Qed.

(** Whenever [next] yields, the image cache is empty afterwards and the
    scene is as before. *)
Lemma next_yield_frame g w (b : bool) g' w' evs :
  next g w = (Ok b, g', w', evs) ->
  im_prepared (sr w') = ∅ /\ same_scene w w'.
Proof.
  unfold next. destruct g as [|f|].
  - pose proof (render_proc_setup_frame w) as Hsc.
    unfold bind.
    destruct (render_proc_setup w) as [[[f|e] w2] evs2]; [|discriminate].
    cbn in Hsc.
    destruct (render_proc_iteration f 0 w2) as [[[g2|e] w3] evs3] eqn:Hit;
      [|discriminate].
    intros [= _ _ <- _].
    destruct (render_proc_iteration_frame _ _ _ _ _ _ Hit) as [Hc Hs].
    split; [exact Hc|]. eapply same_scene_trans; eassumption.
  - destruct (render_proc_iteration f (S (f_i f)) w) as [[[g2|e] w3] evs3] eqn:Hit;
      [|discriminate].
    intros [= _ _ <- _].
    exact (render_proc_iteration_frame _ _ _ _ _ _ Hit).
  - discriminate.
Qed.

(** C8: a cached image is returned again as the same object, with no
    call made; when the generator has advanced once more the cache is
    empty, and the next [get_image] resolves the frame buffer again and
    returns a newly built image; without a frame buffer for the channel
    [get_image] returns nothing. *)
Theorem get_image_cached_until_next w g (aov_name : string) (rt : nat)
    (fb : Obj) (layers : RenderLayers Obj) :
  (forall k, core_ok k = true) ->
  render_targets (sr w) = Some rt ->
  render_layers (sr w) = Some layers ->
  (forall t, get_frame_buffer t rt aov_name = Some fb) ->
  (forall t, get_resolved_image t fb <> None) ->
  (aov_name = "default" ->
   tone_mapping_known (tone_mapping (render_settings (sr w))) = true) ->
  im_prepared (sr w) !! aov_name = None ->
  (forall w0 (a : string) (im : Image Obj),
     im_prepared (sr w0) !! a = Some im ->
     get_image a w0 = (Ok (Some im), w0, []))
  /\ (forall w0 (a : string) (rt0 : nat),
        im_prepared (sr w0) !! a = None ->
        render_targets (sr w0) = Some rt0 ->
        get_frame_buffer (native_calls w0) rt0 a = None ->
        get_image a w0 = (Ok None, w0, []))
  /\ exists im1 w1 evs1,
       get_image aov_name w = (Ok (Some im1), w1, evs1)
       /\ RenderTargets_get_resolved_image rt fb ∈ evs1
       /\ get_image aov_name w1 = (Ok (Some im1), w1, [])
       /\ forall (b : bool) g' w2 evs,
            next g w1 = (Ok b, g', w2, evs) ->
            im_prepared (sr w2) = ∅
            /\ exists im2 w3 evs3,
                 get_image aov_name w2 = (Ok (Some im2), w3, evs3)
                 /\ img_id im2 <> img_id im1
                 /\ RenderTargets_get_resolved_image rt fb ∈ evs3
                 /\ get_image aov_name w3 = (Ok (Some im2), w3, []).
Proof.
  intros Hok Hrt Hl Hfb Hri Htm Hc.
  split; [exact get_image_hit|]. split; [exact get_image_no_data|].
  destruct (get_image_resolve w aov_name rt fb layers Hc Hrt Hl Hok
              (Hfb _) Hri Htm)
    as (raw & w1 & evs1 & Hg & Hsr & Hsrt & Hth & Hat & Hn & Hin & _).
  exists (mkImage (next_id w) aov_name raw), w1, evs1.
  assert (Hc1 : im_prepared (sr w1) !! aov_name
                = Some (mkImage (next_id w) aov_name raw)).
  { rewrite Hsr. cbn. apply lookup_insert_eq. }
  repeat match goal with |- _ /\ _ => split end.
  - exact Hg.
  - exact Hin.
  - apply get_image_hit. exact Hc1.
  - intros b g' w2 evs Hnext.
    destruct (next_yield_frame _ _ _ _ _ _ Hnext) as [He Hsc].
    split; [exact He|].
    destruct Hsc as (_ & _ & _ & Hn2 & Hrs2 & _ & _ & _ & _ & _ & Hrt2 & Hl2).
    assert (Hrt1 : render_targets (sr w1) = Some rt)
      by (rewrite Hsr; exact Hrt).
    assert (Hl1 : render_layers (sr w1) = Some layers)
      by (rewrite Hsr; exact Hl).
    assert (Hrs1 : render_settings (sr w1) = render_settings (sr w))
      by (rewrite Hsr; reflexivity).
    destruct (get_image_resolve w2 aov_name rt fb layers)
      as (raw2 & w3 & evs3 & Hg3 & Hsr3 & _ & _ & _ & _ & Hin3 & _).
    + rewrite He. apply lookup_empty.
    + congruence.
    + congruence.
    + exact Hok.
    + apply Hfb.
    + exact Hri.
    + rewrite Hrs2, Hrs1. exact Htm.
    + exists (mkImage (next_id w2) aov_name raw2), w3, evs3.
      repeat match goal with |- _ /\ _ => split end.
      * exact Hg3.
      * cbn. lia.
      * exact Hin3.
      * apply get_image_hit. rewrite Hsr3. cbn. apply lookup_insert_eq.
Qed.

End ImageCache.

Lemma get_image_cached_until_next_witness :
  exists (im1 im2 : Image (list Z)) (w1 : World (list Z)),
    (get_image (ext := demo) "default" (demo_world false no_limits)).1
    = (Ok (Some im1), w1)
    /\ (get_image (ext := demo) "default" w1).1.1 = Ok (Some im1)
    /\ (get_image (ext := demo) "default"
          (next (ext := demo) Gen_created w1).1.2).1.1 = Ok (Some im2)
    /\ img_id im2 <> img_id im1.
Proof.
  destruct (get_image_cached_until_next (ext := demo)
              (demo_world false no_limits) Gen_created "default" 0%nat [0]
              (mkRenderLayers None 0%nat))
    as (_ & _ & im1 & w1 & evs1 & Hg & _ & Hg' & Hnext).
  - reflexivity.
  - reflexivity.
  - reflexivity.
  - reflexivity.
  - intros t. discriminate.
  - reflexivity.
  - reflexivity.
  - destruct (next (ext := demo) Gen_created w1) as [[[[b|e] g'] w2] evs] eqn:En.
    + destruct (Hnext b g' w2 evs eq_refl)
        as (_ & im2 & w3 & evs3 & Hg3 & Hid & _).
      exists im1, im2, w1. rewrite Hg, Hg', En. cbn [fst snd].
      rewrite Hg3. repeat split. exact Hid.
    + exfalso. revert En. injection Hg as <- <- _.
      vm_compute. discriminate.
Defined.

Section Threads.

Context {Obj : Type} {ext : Externals Obj}.
Implicit Types (w : World Obj).

Lemma thread_exit_not_alive (tid : nat) w :
  thread_alive tid (thread_exit tid w) = false.
Proof.
  unfold thread_exit, upd_thread, thread_alive.
  destruct (threads w !! tid) as [th|] eqn:E.
  - cbn. rewrite list_lookup_insert_eq; [reflexivity|].
    eapply lookup_lt_Some; eassumption.
  - rewrite E. reflexivity.
Qed.

Lemma terminate_keeps_alive (tid : nat) w :
  thread_alive tid (RenderThread_terminate tid w) = thread_alive tid w.
Proof.
  unfold RenderThread_terminate, upd_thread, thread_alive.
  destruct (threads w !! tid) as [th|] eqn:E.
  - cbn. rewrite list_lookup_insert_eq; [reflexivity|].
    eapply lookup_lt_Some; eassumption.
  - rewrite E. reflexivity.
Qed.

Lemma after_raise {A} (evs : list (Event Obj)) (r : Run A) (e : Exn) w
    (evs' : list (Event Obj)) :
  after evs r = Some (Raise e, w, evs') ->
  exists evs'', r = Some (Raise e, w, evs'').
Proof.
  destruct r as [[[x w0] evs0]|]; [|discriminate].
  cbn. intros [= -> -> _]. eexists. reflexivity.
Qed.

(** A worker that left [run] with an exception is not alive. *)
Lemma worker_error_not_alive (fuel tick_fuel tid : nat) w (e : Exn) w'
    (evs : list (Event Obj)) :
  RenderThread_run fuel tick_fuel tid w = Some (Raise e, w', evs) ->
  thread_alive tid w' = false.
Proof.
  revert w evs. induction fuel as [|fuel IH]; intros w evs H; [discriminate|].
  cbn [RenderThread_run] in H.
  destruct (thread_terminate_event tid w); [discriminate|].
  destruct (SceneRendererThreaded_render_proc tick_fuel w)
    as [[[[[]|e1] w1] evs1]|]; [| |discriminate].
  - apply after_raise in H as [evs2 H]. eapply IH. exact H.
  - injection H as _ <- _. apply thread_exit_not_alive.
Qed.

(** C6 on the code: once the worker has left [run] with an exception,
    [is_render_completed] returns true, and [stop] returns without waiting
    for anything; but [stop] drops the thread handle, and
    [is_render_completed] called after it raises [AttributeError] where it
    should return true. *)
Theorem stop_after_crash_drops_thread (fuel tick_fuel tid : nat) w0 (e : Exn)
    w (evs : list (Event Obj)) :
  RenderThread_run fuel tick_fuel tid w0 = Some (Raise e, w, evs) ->
  thread (srt w) = Some tid ->
  is_render_completed w = (Ok true, w, [])
  /\ exists w',
       stop 0 0 w
       = Some (Ok tt, w', [Called "SceneRendererThreaded.stop" None])
       /\ stop_requested (srt w') = Some true
       /\ thread (srt w') = None
       /\ is_render_completed w' = (Raise AttributeError, w', []).
Proof.
  intros Hrun Hth.
  pose proof (worker_error_not_alive _ _ _ _ _ _ _ Hrun) as Hdead.
  split.
  - unfold is_render_completed, is_alive, bind, gets.
    rewrite Hth, Hdead. reflexivity.
  - unfold stop. cbn [srt with_srt thread with_stop_requested].
    rewrite Hth. unfold RenderThread_join.
    rewrite terminate_keeps_alive.
    replace (thread_alive tid (with_srt (with_stop_requested (Some true) (srt w)) w))
      with (thread_alive tid w) by reflexivity.
    rewrite Hdead. eexists. split; [reflexivity|].
    repeat split.
    unfold RenderThread_terminate, upd_thread.
    destruct (threads _ !! tid); reflexivity.
Qed.

End Threads.

Lemma stop_after_crash_drops_thread_witness :
  is_render_completed crashed_world = (Ok true, crashed_world, [])
  /\ exists w',
       stop (ext := broken) 0 0 crashed_world
       = Some (Ok tt, w', [Called "SceneRendererThreaded.stop" None])
       /\ stop_requested (srt w') = Some true
       /\ thread (srt w') = None
       /\ is_render_completed w' = (Raise AttributeError, w', []).
Proof.
  apply (stop_after_crash_drops_thread (ext := broken) 2 3 0 started_world
           CoreError crashed_world
           (match RenderThread_run (ext := broken) 2 3 0 started_world with
            | Some (_, _, evs) => evs
            | None => []
            end)).
  - vm_compute. reflexivity.
  - vm_compute. reflexivity.
Defined.

Lemma resolution_updates_coalesce_witness :
  let w1 :=
    (SceneRendererThreaded_update_render_resolution (Some [800; 600])
       (demo_world false no_limits)).1.2 in
  let w2 :=
    (SceneRendererThreaded_update_render_resolution (Some [1024; 768])
       w1).1.2 in
  resolution_changes (check_updates (ext := demo) w2).2
  = [Some [1024; 768]].
Proof.
  cbv zeta.
  pose proof (resolution_updates_coalesce (ext := demo)
                (demo_world false no_limits)
                (Some [800; 600]) (Some [1024; 768])) as H.
  cbv zeta in H.
  destruct H as (_ & _ & _ & H & _).
  - intros x y Hxy. apply (bool_decide_eq_true_1 (x = y)). exact Hxy.
  - vm_compute. reflexivity.
  - vm_compute. discriminate.
  - exact H.
Defined.

Lemma update_render_resolution_detaches_first_witness :
  attached
    (SceneRenderer_update_render_resolution (Some [800; 600])
       (demo_world false no_limits)).1.2
  = [1%nat].
Proof.
  pose proof (update_render_resolution_detaches_first
                (demo_world false no_limits) (Some [800; 600]) 0%nat) as H.
  cbv zeta in H.
  destruct H as (_ & _ & _ & _ & H & _).
  - reflexivity.
  - reflexivity.
  - exact H.
Defined.

Section BlockExtras.

Context {V : Type}.
Implicit Types (b : UpdateBlock V) (cur new : V).

(** X1: repeating an [update_block] call changes nothing: the second of
    two calls with the same arguments leaves the block as the first left
    it, whatever the block's predicate is. *)
Theorem update_block_idempotent b cur new :
  update_block (update_block b cur new) cur new = update_block b cur new.
Proof.
  destruct b as [v h e]. unfold update_block. cbn.
  destruct h; cbn.
  - destruct (e v new) eqn:E1; cbn.
    + rewrite E1. reflexivity.
    + destruct (e cur new) eqn:E2; cbn.
      * rewrite E2. reflexivity.
      * destruct (e new new); [reflexivity|]. rewrite E2. reflexivity.
  - destruct (e cur new) eqn:E2; cbn.
    + rewrite E2. reflexivity.
    + destruct (e new new); [reflexivity|]. rewrite E2. reflexivity.
Qed.

(** A request followed by a request for the value in effect leaves
    nothing pending, when the predicate holds of equal values only and of
    the value in effect with itself. *)
Lemma update_block_revert b cur new :
  (forall x y, equal b x y = true -> x = y) ->
  equal b cur cur = true ->
  new <> cur ->
  pending (update_block (update_block b cur new) cur cur) = [].
Proof.
  intros Hsound Hrefl Hne.
  assert (Hcn : equal b cur new = false).
  { destruct (equal b cur new) eqn:E; [|reflexivity].
    apply Hsound in E. congruence. }
  assert (Hnc : equal b new cur = false).
  { destruct (equal b new cur) eqn:E; [|reflexivity].
    apply Hsound in E. congruence. }
  destruct b as [v h e]. unfold update_block, pending in *. cbn in *.
  rewrite Hcn.
  destruct h; cbn.
  - destruct (e v new) eqn:E1; cbn.
    + apply Hsound in E1. subst v. rewrite Hnc, Hrefl. reflexivity.
    + rewrite Hnc, Hrefl. reflexivity.
  - rewrite Hnc, Hrefl. reflexivity.
Qed.

End BlockExtras.

Section UpdateExtras.

Context {Obj : Type} {ext : Externals Obj}.
Implicit Types (w : World Obj) (v : option Obj).

(** What [check_updates] never touches, whether it returns or raises: the
    thread, the stop flag, the pacing delay, the clock, the engine, the
    image cache and the render settings; and without a resolution change
    pending also the resolution, the render targets and the device. *)
Lemma check_updates_frame w :
  let w' := (check_updates w).1.2 in
  stop_requested (srt w') = stop_requested (srt w)
  /\ sleep_delay (srt w') = sleep_delay (srt w)
  /\ thread (srt w') = thread (srt w)
  /\ threads w' = threads w
  /\ clock_reads w' = clock_reads w
  /\ native_calls w' = native_calls w
  /\ im_prepared (sr w') = im_prepared (sr w)
  /\ render_settings (sr w') = render_settings (sr w)
  /\ is_production (sr w') = is_production (sr w)
  /\ used_iterations (sr w') = used_iterations (sr w)
  /\ (has_value (ud_render_resolution (update_data (srt w))) = false ->
        resolution (sr w') = resolution (sr w)
        /\ render_targets (sr w') = render_targets (sr w)
        /\ attached w' = attached w
        /\ next_id w' = next_id w)
  /\ (has_value (ud_render_region (update_data (srt w))) = false ->
        region (sr w') = region (sr w)).
Proof.
  destruct ext as [ae pe ism czo pc ok gfb gri rr fr rp us].
  destruct w as [s c ths att n cr nc].
  destruct s as [it ii ip iip cg tip res reg trs rs pr aovs ti isp ui idv rt rl].
  destruct c as [nr th ev [[vg hg eg] [vr hr er] [va ha ea] [vc hc ec]]
                   rres raov rreg rcam syn sd stp].
  destruct hr;
    [destruct rt as [old|]; destruct ha
    |destruct ha; [destruct rl as [l|]|]];
    destruct hg; (destruct hc; [destruct syn as [syn|]|]).
  all: vm_compute; try destruct (czo vc).
  all: repeat split; try discriminate.
Qed.

(** X2: a successful [check_updates] leaves nothing pending, and a second
    [check_updates] right after it does nothing at all. *)
Theorem check_updates_consumes w :
  let ud := update_data (srt w) in
  (has_value (ud_render_resolution ud) = false ->
   has_value (ud_aov ud) = true -> render_layers (sr w) <> None) ->
  (has_value (ud_render_camera ud) = true -> scene_synced (srt w) <> None) ->
  let w' := (check_updates w).1.2 in
  (check_updates w).1.1 = Ok tt
  /\ inbox_empty w'
  /\ check_updates w' = (Ok tt, w', []).
Proof.
  intros ud Hl Hs w'.
  destruct (check_updates_effect w Hl Hs) as (Hok & _ & _ & _ & Hnone & _).
  repeat split.
  - exact Hok.
  - exact Hnone.
  - apply check_updates_idle. exact Hnone.
Qed.

(** X3: an AOV change that is pending while the renderer has no layers yet
    (no resolution was ever set) makes [check_updates] raise
    [AttributeError]: the AOV value is consumed and already assigned to the
    renderer, the redraw flag is not set, and the region and camera blocks
    are not looked at. *)
Theorem check_updates_aov_without_layers w :
  let ud := update_data (srt w) in
  has_value (ud_render_resolution ud) = false ->
  has_value (ud_aov ud) = true ->
  render_layers (sr w) = None ->
  let w' := (check_updates w).1.2 in
  (check_updates w).1.1 = Raise AttributeError
  /\ (check_updates w).2 = [Called "UpdateBlock.pop_value" None]
  /\ pending (ud_aov (update_data (srt w'))) = []
  /\ aov (srt w') = value (ud_aov ud)
  /\ aov_settings (sr w') = value (ud_aov ud)
  /\ _need_scene_redraw (srt w') = _need_scene_redraw (srt w)
  /\ ud_render_region (update_data (srt w')) = ud_render_region ud
  /\ ud_render_camera (update_data (srt w')) = ud_render_camera ud.
Proof.
  destruct ext as [ae pe ism czo pc ok gfb gri rr fr rp us].
  destruct w as [s c ths att n cr nc].
  destruct s as [it ii ip iip cg tip res reg trs rs pr aovs ti isp ui idv rt rl].
  destruct c as [nr th ev [[vg hg eg] [vr hr er] [va ha ea] [vc hc ec]]
                   rres raov rreg rcam syn sd stp].
  intros ud Hr Ha Hl. cbn in Hr, Ha, Hl. subst hr ha rl ud.
  vm_compute. repeat split.
Qed.

(** X4: a camera change that is pending while no scene-sync object was
    given makes [check_updates] raise [AttributeError] after the changes
    before it were applied: the camera value is consumed and recorded as
    the current camera, and the redraw flag is set only for the other
    changes. *)
Theorem check_updates_camera_without_scene_synced w :
  let ud := update_data (srt w) in
  (has_value (ud_render_resolution ud) = false ->
   has_value (ud_aov ud) = true -> render_layers (sr w) <> None) ->
  has_value (ud_render_camera ud) = true ->
  scene_synced (srt w) = None ->
  let w' := (check_updates w).1.2 in
  (check_updates w).1.1 = Raise AttributeError
  /\ applied (check_updates w).2
     = (if has_value (ud_render_resolution ud)
        then [Change_resolution (value (ud_render_resolution ud))]
        else if has_value (ud_aov ud)
             then [Change_aov (value (ud_aov ud))] else [])
       ++ (if has_value (ud_render_region ud)
           then [Change_region (value (ud_render_region ud))] else [])
  /\ inbox_empty w'
  /\ render_camera (srt w') = value (ud_render_camera ud)
  /\ _need_scene_redraw (srt w')
     = has_value (ud_render_resolution ud) || has_value (ud_aov ud)
       || has_value (ud_render_region ud) || _need_scene_redraw (srt w).
Proof.
  destruct ext as [ae pe ism czo pc ok gfb gri rr fr rp us].
  destruct w as [s c ths att n cr nc].
  destruct s as [it ii ip iip cg tip res reg trs rs pr aovs ti isp ui idv rt rl].
  destruct c as [nr th ev [[vg hg eg] [vr hr er] [va ha ea] [vc hc ec]]
                   rres raov rreg rcam syn sd stp].
  intros ud Hl Hc Hs. cbn in Hl, Hc, Hs. subst hc syn ud.
  unfold inbox_empty.
  destruct hr;
    [destruct rt as [old|]; destruct ha
    |destruct ha; [destruct rl as [l|]; [|exfalso; apply Hl; reflexivity]|]];
    destruct hg.
  all: vm_compute.
  all: repeat split; try (intros []; reflexivity).
Qed.

(** X5: a resolution request followed, before the next [check_updates], by
    a request for the resolution in effect cancels out: nothing is pending
    for the resolution, and that [check_updates] changes neither the
    resolution nor the render targets nor what is attached to the device. *)
Theorem resolution_revert_cancels w (R : option Obj) :
  let b := ud_render_resolution (update_data (srt w)) in
  let cur := render_resolution (srt w) in
  let ud := update_data (srt w) in
  (forall x y, equal b x y = true -> x = y) ->
  equal b cur cur = true ->
  R <> cur ->
  (has_value (ud_aov ud) = true -> render_layers (sr w) <> None) ->
  (has_value (ud_render_camera ud) = true -> scene_synced (srt w) <> None) ->
  let w1 := (SceneRendererThreaded_update_render_resolution R w).1.2 in
  let w2 := (SceneRendererThreaded_update_render_resolution cur w1).1.2 in
  let w3 := (check_updates w2).1.2 in
  pending (ud_render_resolution (update_data (srt w2))) = []
  /\ (check_updates w2).1.1 = Ok tt
  /\ resolution_changes (check_updates w2).2 = []
  /\ resolution (sr w3) = resolution (sr w)
  /\ render_targets (sr w3) = render_targets (sr w)
  /\ attached w3 = attached w.
Proof.
  intros b cur ud Hsound Hrefl Hne Hl Hcam w1 w2 w3.
  assert (Hw2 : w2
    = with_srt
        (with_update_data
           (with_ud_render_resolution
              (update_block (update_block b cur R) cur cur)
              (update_data (srt w))) (srt w)) w).
  { subst w2 w1. rewrite !update_render_resolution_block.
    destruct w as [s [nr th ev [bg br ba bc] rres raov rreg rcam syn sd stp]
                     ths att n cr nc].
    reflexivity. }
  assert (Hp : pending (ud_render_resolution (update_data (srt w2))) = []).
  { rewrite Hw2. cbn. apply update_block_revert; assumption. }
  assert (Hh : has_value (ud_render_resolution (update_data (srt w2))) = false).
  { unfold pending in Hp.
    destruct (has_value (ud_render_resolution (update_data (srt w2))));
      [discriminate Hp|reflexivity]. }
  assert (Hl2 : has_value (ud_render_resolution (update_data (srt w2))) = false ->
                has_value (ud_aov (update_data (srt w2))) = true ->
                render_layers (sr w2) <> None).
  { intros _. rewrite Hw2. cbn. exact Hl. }
  assert (Hs2 : has_value (ud_render_camera (update_data (srt w2))) = true ->
                scene_synced (srt w2) <> None).
  { rewrite Hw2. cbn. exact Hcam. }
  destruct (check_updates_effect w2 Hl2 Hs2) as (Hok & Happ & _).
  pose proof (check_updates_frame w2)
    as (_ & _ & _ & _ & _ & _ & _ & _ & _ & _ & Hres & _).
  destruct (Hres Hh) as (H1 & H2 & H3 & _). fold w3 in H1, H2, H3.
  repeat split.
  - exact Hp.
  - exact Hok.
  - unfold resolution_changes. rewrite Happ, Hh.
    destruct (has_value (ud_aov _)), (has_value (ud_render_region _)),
      (has_value (ud_render_camera _)); reflexivity.
  - rewrite H1, Hw2. reflexivity.
  - rewrite H2, Hw2. reflexivity.
  - rewrite H3, Hw2. reflexivity.
Qed.

(** An [update_render_region] request only touches the region block. *)
Lemma update_render_region_block w v :
  let b := ud_render_region (update_data (srt w)) in
  let cur := render_region (srt w) in
  (SceneRendererThreaded_update_render_region v w).1.2
  = with_srt
      (with_update_data
         (with_ud_render_region (update_block b cur v)
            (update_data (srt w))) (srt w)) w.
Proof. reflexivity. Qed.

(** X6: [set_render_region(R)] records R as the region in effect, so an
    [update_render_region(R)] after it queues nothing, and cancels a
    different region that was pending. *)
Theorem set_then_update_render_region w (R : option Obj) :
  let b := ud_render_region (update_data (srt w)) in
  equal b R R = true ->
  (has_value b = true -> equal b (value b) R = false) ->
  let w1 := (SceneRendererThreaded_set_render_region R w).1.2 in
  let w2 := (SceneRendererThreaded_update_render_region R w1).1.2 in
  region (sr w1) = R
  /\ render_region (srt w1) = R
  /\ pending (ud_render_region (update_data (srt w2))) = []
  /\ region (sr w2) = R.
Proof.
  intros b Hrefl Hne w1 w2.
  subst w2. rewrite update_render_region_block.
  destruct w as [s [nr th ev [bg br ba bc] rres raov rreg rcam syn sd stp]
                   ths att n cr nc].
  cbn in b, Hrefl, Hne. subst b w1.
  destruct bg as [vg hg eg]. cbn in Hrefl, Hne.
  cbn. unfold update_block, pending. cbn.
  destruct hg; cbn.
  - rewrite (Hne eq_refl), Hrefl. repeat split.
  - rewrite Hrefl. repeat split.
Qed.

(** X7: [set_aov(A)] hands A to the renderer but does not record it as
    the AOV in effect, and leaves the coordinator as it is: an
    [update_aov(A)] after it does what it would have done without it, and
    on a coordinator that never applied an AOV it queues A, although the
    renderer already has it. *)
Theorem set_then_update_aov w (A : option Obj) :
  let w1 := (SceneRendererThreaded_set_aov A w).1.2 in
  let w2 := (SceneRendererThreaded_update_aov A w1).1.2 in
  aov_settings (sr w1) = A
  /\ srt w1 = srt w
  /\ srt w2 = srt (SceneRendererThreaded_update_aov A w).1.2
  /\ (aov (srt w) = None ->
      has_value (ud_aov (update_data (srt w))) = false ->
      equal (ud_aov (update_data (srt w))) = aov_equal ->
      pending (ud_aov (update_data (srt w2))) = [A]).
Proof.
  destruct w as [s [nr th ev [bg br [va ha ea] bc] rres raov rreg rcam syn sd stp]
                   ths att n cr nc].
  destruct s. cbn. repeat split.
  intros -> -> ->. reflexivity.
Qed.

End UpdateExtras.

Section ThreadExtras.

Context {Obj : Type} {ext : Externals Obj}.
Implicit Types (w : World Obj).

Lemma terminate_sets_event (tid : nat) w :
  thread_alive tid w = true ->
  thread_terminate_event tid (RenderThread_terminate tid w) = true.
Proof.
  unfold RenderThread_terminate, upd_thread, thread_alive,
    thread_terminate_event.
  destruct (threads w !! tid) as [th|] eqn:E; [|discriminate].
  intros _. cbn. rewrite list_lookup_insert_eq; [reflexivity|].
  eapply lookup_lt_Some; eassumption.
Qed.

(** What [stop] comes to: the flag is raised, the worker told to
    terminate, and the handle dropped; a worker that is alive and between
    two ticks leaves [run] at its next look at the terminate event. *)
Lemma stop_result (fuel tick_fuel : nat) w :
  stop fuel tick_fuel w
  = let w1 := with_srt (with_stop_requested (Some true) (srt w)) w in
    match thread (srt w) with
    | None => Some (Ok tt, w1, [Called "SceneRendererThreaded.stop" None])
    | Some tid =>
        let w2 := RenderThread_terminate tid w1 in
        if thread_alive tid w then
          match fuel with
          | O => None
          | S _ =>
              Some (Ok tt,
                    with_srt (with_thread None (srt w2)) (thread_exit tid w2),
                    [Called "SceneRendererThreaded.stop" None])
          end
        else
          Some (Ok tt, with_srt (with_thread None (srt w2)) w2,
                [Called "SceneRendererThreaded.stop" None])
    end.
Proof.
  unfold stop. cbn [srt with_srt thread with_stop_requested].
  destruct (thread (srt w)) as [tid|]; [|reflexivity].
  unfold RenderThread_join. rewrite terminate_keeps_alive.
  replace (thread_alive tid (with_srt (with_stop_requested (Some true) (srt w)) w))
    with (thread_alive tid w) by reflexivity.
  destruct (thread_alive tid w) eqn:Ha; [|reflexivity].
  destruct fuel as [|fuel]; [reflexivity|].
  cbn [RenderThread_run].
  rewrite terminate_sets_event by exact Ha.
  unfold thread_exit, upd_thread. cbn.
  destruct (threads _ !! tid); reflexivity.
Qed.

(** X8: [stop] is idempotent: once it has returned, another [stop] returns
    at once, whatever the fuel, and leaves the state as it is. *)
Theorem stop_idempotent (fuel tick_fuel fuel' tick_fuel' : nat) w
    (r : Res unit) w' (evs : list (Event Obj)) :
  stop fuel tick_fuel w = Some (r, w', evs) ->
  r = Ok tt
  /\ thread (srt w') = None
  /\ stop_requested (srt w') = Some true
  /\ stop fuel' tick_fuel' w'
     = Some (Ok tt, w', [Called "SceneRendererThreaded.stop" None]).
Proof.
  rewrite stop_result. cbv zeta.
  destruct w as [s c ths att n cr nc]. 
  destruct c as [nr th ev ud rres raov rreg rcam syn sd stp].
  cbn [srt thread].
  destruct th as [tid|].
  - destruct (thread_alive tid _) eqn:Ha.
    + destruct fuel as [|fuel]; [discriminate|].
      intros [= <- <- <-]. rewrite stop_result.
      unfold thread_exit, RenderThread_terminate, upd_thread. cbn.
      destruct (ths !! tid) as [t|]; cbn;
        [destruct (<[tid:=_]> ths !! tid); cbn|]; repeat split.
    + intros [= <- <- <-]. rewrite stop_result.
      unfold thread_exit, RenderThread_terminate, upd_thread. cbn.
      destruct (ths !! tid) as [t|]; cbn; repeat split.
  - intros [= <- <- <-]. rewrite stop_result. cbn. repeat split.
Qed.

(** X10: [_start] does not look at a worker that is already running. On a
    coordinator started twice without a [stop] in between the handle is
    the second worker's; [stop] ends that one, and the first worker stays
    alive, never told to terminate and out of the coordinator's reach. *)
Theorem start_twice_leaks_worker (s : SceneRenderer Obj)
    (c : SceneRendererThreaded Obj) (att : list nat) (n cr nc : nat)
    (fuel tick_fuel : nat) :
  let w := mkWorld s c [] att n cr nc in
  let w2 := (start (start w).1.2).1.2 in
  thread (srt w2) = Some 1%nat
  /\ thread_alive 0 w2 = true
  /\ exists w3,
       stop (S fuel) tick_fuel w2
       = Some (Ok tt, w3, [Called "SceneRendererThreaded.stop" None])
       /\ thread (srt w3) = None
       /\ thread_alive 1 w3 = false
       /\ thread_alive 0 w3 = true
       /\ thread_terminate_event 0 w3 = false.
Proof.
  intros w w2. split; [reflexivity|]. split; [reflexivity|].
  rewrite stop_result. cbv zeta.
  eexists. split; [reflexivity|]. repeat split.
Qed.

End ThreadExtras.

Section TickExtras.

Context {Obj : Type} {ext : Externals Obj}.
Implicit Types (w : World Obj) (f : Frame Obj) (g : Generator Obj).

Ltac py_eval :=
  cbv -[Z.add Z.sub Z.mul Z.quot Z.div Z.ltb Z.leb Z.eqb Z.of_nat Z.max
        core_ok perf_counter get_frame_buffer get_resolved_image
        rendermode_remap filter_remap radius_params get_user_settings
        camera_zoom_of array_equal py_eq is_same effective_samples
        lookup insert empty String.eqb
        limits_enable limits_type limits_iterations limits_time
        tm_enable tm_type wb_enable wb_color_space_value gm_enable
        gm_viewport_only rendering_limits render_mode use_clamp_irradiance
        get_max_ray_depth aa_filter tone_mapping white_balance
        gamma_correction samples device_type device_type_plus_cpu
        used_gpu_count].

Ltac split_test :=
  match goal with
  | |- context [if ?b then _ else _] =>
      let T := type of b in unify T bool; destruct b eqn:?
  | |- context [match ?x with Some _ => _ | None => _ end] =>
      destruct x eqn:?
  end.

Ltac py_cases := py_eval; repeat (split_test; py_eval).

(** *** The generator never touches the coordinator *)

Lemma render_proc_render_scene f (i : nat) w :
  same_scene w (render_proc_render f i w).1.2.
Proof.
  destruct (core_ok (native_calls w)) eqn:Hok.
  - rewrite (render_proc_render_ok f i w Hok). unfold same_scene.
    destruct w as [s c ths att n cr nc]. destruct s. cbn. repeat split.
  - destruct w as [s c ths att n cr nc]. cbn in Hok.
    destruct s as [it ii ip iip cg tip res reg trs rs0 pr aovs ti isp ui idv rt0 rl].
    destruct f as [rs sm ts tl tol [[r re]|] fi].
    all: unfold same_scene; py_eval; rewrite Hok; cbn; repeat split.
Qed.

Lemma render_proc_finish_scene f w :
  same_scene w (render_proc_finish (A := Generator Obj) f w).1.2.
Proof.
  unfold render_proc_finish, bind, time_perf_counter.
  destruct w as [s c ths att n cr nc]. unfold same_scene.
  destruct (_ =? 0); cbn; repeat split.
Qed.

Lemma render_proc_iteration_scene f (i : nat) w :
  same_scene w (render_proc_iteration f i w).1.2.
Proof.
  unfold render_proc_iteration.
  destruct (limit_reached_frame f i w) as ([b Hb] & Hsr & Hsrt & Hth & Hat & Hn).
  destruct (limit_reached f i w) as [[r w1] evs1] eqn:El.
  cbn in Hb, Hsr, Hsrt, Hth, Hat, Hn. subst r.
  rewrite (bind_step _ _ _ _ _ _ El).
  assert (H1 : same_scene w w1).
  { unfold same_scene. rewrite Hsr, Hsrt, Hth, Hat, Hn. repeat split. }
  destruct b; unfold emitted; cbn [fst snd].
  - pose proof (render_proc_finish_scene f w1) as H2.
    destruct (render_proc_finish f w1) as [[r2 w2] evs2].
    eapply same_scene_trans; eassumption.
  - pose proof (render_proc_render_scene f i w1) as H2.
    destruct (render_proc_render f i w1) as [[r2 w2] evs2].
    eapply same_scene_trans; eassumption.
Qed.

Lemma next_same_scene g w : same_scene w (next g w).1.2.
Proof.
  unfold next. destruct g as [|f|].
  - pose proof (render_proc_setup_frame w) as Hsc.
    unfold bind.
    destruct (render_proc_setup w) as [[[f|e] w2] evs2]; cbn in Hsc.
    + pose proof (render_proc_iteration_scene f 0 w2) as Hit.
      destruct (render_proc_iteration f 0 w2) as [[[g2|e] w3] evs3];
        cbn in Hit |- *; eapply same_scene_trans; eassumption.
    + exact Hsc.
  - pose proof (render_proc_iteration_scene f (S (f_i f)) w) as Hit.
    destruct (render_proc_iteration f (S (f_i f)) w) as [[[g2|e] w3] evs3];
      exact Hit.
  - cbn. unfold same_scene. repeat split.
Qed.

(** *** The tick and the generator *)

Lemma steady_srt w w' : srt w' = srt w -> steady w -> steady w'.
Proof.
  unfold steady, inbox_empty. intros ->. exact (fun H => H).
Qed.

(** In a steady state the loop of the tick is the generator driven to its
    end: it returns when the generator does, setting the completion event,
    raises what the generator raises, and goes on as long as the generator
    yields. *)
Lemma render_proc_loop_drive (fuel : nat) :
  forall g w (n : nat) (e : option Exn) g' w',
    steady w ->
    drive fuel g w = (n, e, g', w') ->
    match e with
    | Some StopIteration =>
        exists evs,
          render_proc_loop fuel g w = Some (Ok tt, render_completed w', evs)
    | Some x =>
        exists evs, render_proc_loop fuel g w = Some (Raise x, w', evs)
    | None => render_proc_loop fuel g w = None
    end
    /\ srt w' = srt w.
Proof.
  induction fuel as [|fuel IH]; intros g w n e g' w' Hst Hd.
  - cbn in Hd. injection Hd as <- <- <- <-. split; reflexivity.
  - pose proof Hst as (Hin & Hnr & Hstop & Hsd).
    cbn [drive] in Hd. cbn [render_proc_loop].
    rewrite Hstop, (check_updates_idle w Hin), Hnr.
    pose proof (next_same_scene g w) as Hsc.
    destruct (next g w) as [[[r g1] w1] evs1].
    cbn in Hsc. destruct Hsc as (Hsrt & _).
    destruct r as [b|x].
    + destruct (drive fuel g1 w1) as [[[n1 e1] g2] w2] eqn:Hd1.
      injection Hd as <- <- <- <-.
      destruct (IH g1 w1 n1 e1 g2 w2 (steady_srt _ _ Hsrt Hst) Hd1)
        as [Hl Hs2].
      split; [|congruence].
      rewrite Hsrt.
      destruct (sleep_delay (srt w)) as [d|]; [|congruence].
      destruct e1 as [x|]; [|rewrite Hl; reflexivity].
      destruct x; destruct Hl as [evs Hl]; rewrite Hl; eexists; reflexivity.
    + injection Hd as <- <- <- <-. split; [|exact Hsrt].
      destruct x; eexists; reflexivity.
Qed.

Lemma check_updates_steady w :
  let ud := update_data (srt w) in
  (has_value (ud_render_resolution ud) = false ->
   has_value (ud_aov ud) = true -> render_layers (sr w) <> None) ->
  (has_value (ud_render_camera ud) = true -> scene_synced (srt w) <> None) ->
  stop_requested (srt w) = Some false ->
  sleep_delay (srt w) <> None ->
  steady (tick_entry w).
Proof.
  intros ud Hl Hs Hstop Hsd. unfold tick_entry.
  set (w1 := (check_updates w).1.2).
  destruct (check_updates_effect w Hl Hs) as (_ & _ & _ & _ & Hnone & _).
  destruct (check_updates_frame w) as (Hst & Hd & _).
  fold w1 in Hnone, Hst, Hd. cbv zeta. clearbody w1.
  destruct w1 as [s c ths att n cr nc].
  destruct c as [nr th ev ud1 rres raov rreg rcam syn sd stp].
  cbn in *. unfold steady, inbox_empty. cbn.
  repeat split; try assumption; congruence.
Qed.

Lemma tick_unfold (fuel : nat) w :
  (check_updates w).1.1 = Ok tt ->
  _need_scene_redraw (srt (check_updates w).1.2) = true ->
  SceneRendererThreaded_render_proc fuel w
  = after (check_updates w).2 (render_proc_loop fuel SceneRenderer_render_proc
                                 (tick_entry w)).
Proof.
  unfold SceneRendererThreaded_render_proc, tick_entry.
  destruct (check_updates w) as [[r w1] evs1]. cbn [fst snd].
  intros -> ->. reflexivity.
Qed.

(** X11: a tick that finds nothing pending and no redraw wanted does
    nothing at all; a worker in that state keeps ticking without changing
    anything, and does not leave [run] before it is told to terminate. *)
Theorem idle_tick_does_nothing (fuel tick_fuel tid : nat) w :
  inbox_empty w ->
  _need_scene_redraw (srt w) = false ->
  SceneRendererThreaded_render_proc tick_fuel w = Some (Ok tt, w, [])
  /\ (thread_terminate_event tid w = false ->
      RenderThread_run fuel tick_fuel tid w = None).
Proof.
  intros Hin Hnr.
  assert (Ht : SceneRendererThreaded_render_proc tick_fuel w
               = Some (Ok tt, w, [])).
  { unfold SceneRendererThreaded_render_proc.
    rewrite (check_updates_idle w Hin), Hnr. reflexivity. }
  split; [exact Ht|]. intros Hte.
  induction fuel as [|fuel IH]; [reflexivity|].
  cbn [RenderThread_run]. rewrite Hte, Ht. cbn [after].
  rewrite IH. reflexivity.
Qed.

(** X12: a tick that takes a redraw request while [stop_requested] is set
    renders nothing: it clears the request, sets the completion event and
    returns, so the request is lost. *)
Theorem tick_stop_requested (fuel : nat) w :
  inbox_empty w ->
  _need_scene_redraw (srt w) = true ->
  stop_requested (srt w) = Some true ->
  exists w',
    SceneRendererThreaded_render_proc (S fuel) w = Some (Ok tt, w', [])
    /\ _need_scene_redraw (srt w') = false
    /\ render_completed_event (srt w') = true
    /\ sr w' = sr w
    /\ native_calls w' = native_calls w.
Proof.
  intros Hin Hnr Hstop.
  unfold SceneRendererThreaded_render_proc.
  rewrite (check_updates_idle w Hin), Hnr. cbn [negb render_proc_loop].
  destruct w as [s c ths att n cr nc]. cbn in Hstop |- *. rewrite Hstop.
  eexists. split; [reflexivity|]. repeat split.
Qed.

(** X13: a tick that has a redraw to do runs one whole refine cycle: when
    the generator, driven from the state the updates left, yields [n]
    times and returns, the tick returns with the completion event set and
    the redraw request cleared, in the state the generator ended in. *)
Theorem tick_renders_to_completion (fuel n : nat) w g' wf :
  let ud := update_data (srt w) in
  (has_value (ud_render_resolution ud) = false ->
   has_value (ud_aov ud) = true -> render_layers (sr w) <> None) ->
  (has_value (ud_render_camera ud) = true -> scene_synced (srt w) <> None) ->
  _need_scene_redraw (srt (check_updates w).1.2) = true ->
  stop_requested (srt w) = Some false ->
  sleep_delay (srt w) <> None ->
  drive fuel SceneRenderer_render_proc (tick_entry w)
  = (n, Some StopIteration, g', wf) ->
  exists evs,
    SceneRendererThreaded_render_proc fuel w
    = Some (Ok tt, render_completed wf, (check_updates w).2 ++ evs)
    /\ render_completed_event (srt (render_completed wf)) = true
    /\ _need_scene_redraw (srt (render_completed wf)) = false
    /\ inbox_empty (render_completed wf).
Proof.
  intros ud Hl Hs Hnr Hstop Hsd Hd.
  destruct (check_updates_effect w Hl Hs) as (Hok & _).
  pose proof (check_updates_steady w Hl Hs Hstop Hsd) as Hst.
  destruct (render_proc_loop_drive fuel _ _ _ _ _ _ Hst Hd) as [[evs Hloop] Hsrt].
  rewrite (tick_unfold fuel w Hok Hnr), Hloop. cbn [after].
  exists evs. split; [reflexivity|].
  destruct Hst as (Hin & Hnr' & _).
  unfold inbox_empty in *. unfold render_completed. cbn.
  rewrite Hsrt. repeat split; assumption.
Qed.

(** X14: an exception out of the generator other than its return goes out
    of the tick as it is, and the completion event stays clear. *)
Theorem tick_failure_propagates (fuel n : nat) w (x : Exn) g' wf :
  let ud := update_data (srt w) in
  (has_value (ud_render_resolution ud) = false ->
   has_value (ud_aov ud) = true -> render_layers (sr w) <> None) ->
  (has_value (ud_render_camera ud) = true -> scene_synced (srt w) <> None) ->
  _need_scene_redraw (srt (check_updates w).1.2) = true ->
  stop_requested (srt w) = Some false ->
  sleep_delay (srt w) <> None ->
  drive fuel SceneRenderer_render_proc (tick_entry w) = (n, Some x, g', wf) ->
  x <> StopIteration ->
  exists evs,
    SceneRendererThreaded_render_proc fuel w
    = Some (Raise x, wf, (check_updates w).2 ++ evs)
    /\ render_completed_event (srt wf) = false.
Proof.
  intros ud Hl Hs Hnr Hstop Hsd Hd Hx.
  destruct (check_updates_effect w Hl Hs) as (Hok & _).
  pose proof (check_updates_steady w Hl Hs Hstop Hsd) as Hst.
  destruct (render_proc_loop_drive fuel _ _ _ _ _ _ Hst Hd) as [Hloop Hsrt].
  rewrite (tick_unfold fuel w Hok Hnr).
  assert (Hl' : exists evs, render_proc_loop fuel SceneRenderer_render_proc
                              (tick_entry w) = Some (Raise x, wf, evs)).
  { destruct x; try exact Hloop. congruence. }
  destruct Hl' as [evs Hl']. rewrite Hl'. cbn [after].
  exists evs. split; [reflexivity|].
  rewrite Hsrt. unfold tick_entry. reflexivity.
Qed.

End TickExtras.

Section GeneratorExtras.

Context {Obj : Type} {ext : Externals Obj}.
Implicit Types (w : World Obj) (f : Frame Obj) (g : Generator Obj).

Ltac py_eval :=
  cbv -[Z.add Z.sub Z.mul Z.quot Z.div Z.ltb Z.leb Z.eqb Z.of_nat Z.max
        core_ok perf_counter get_frame_buffer get_resolved_image
        rendermode_remap filter_remap radius_params get_user_settings
        camera_zoom_of array_equal py_eq is_same effective_samples
        lookup insert empty String.eqb
        limits_enable limits_type limits_iterations limits_time
        tm_enable tm_type wb_enable wb_color_space_value gm_enable
        gm_viewport_only rendering_limits render_mode use_clamp_irradiance
        get_max_ray_depth aa_filter tone_mapping white_balance
        gamma_correction samples device_type device_type_plus_cpu
        used_gpu_count].

Ltac split_test :=
  match goal with
  | |- context [if ?b then _ else _] =>
      let T := type of b in unify T bool; destruct b eqn:?
  | |- context [match ?x with Some _ => _ | None => _ end] =>
      destruct x eqn:?
  end.

Ltac py_run Hok := repeat (py_eval; first [rewrite Hok | split_test]).

(** *** Limits that never stop the cycle *)

Lemma limit_reached_off f (i : nat) w :
  limit_off (f_rs f) = true ->
  limit_reached f i w = (Ok false, w, []).
Proof.
  unfold limit_off, limit_reached. cbv zeta.
  set (l := rendering_limits (f_rs f)).
  destruct (limits_enable l); [|reflexivity].
  destruct (String.eqb "TIME" (limits_type l)).
  - destruct (limits_time l =? 0); cbn; [reflexivity|discriminate].
  - destruct (String.eqb "ITER" (limits_type l)); cbn;
      [discriminate|reflexivity].
Qed.

Lemma limit_off_not_iter (rs : RenderSettings) :
  limit_off rs = true ->
  limits_enable (rendering_limits rs) = false
  \/ String.eqb "ITER" (limits_type (rendering_limits rs)) = false.
Proof.
  unfold limit_off. cbv zeta. set (l := rendering_limits rs). intros H.
  destruct (limits_enable l); [right|left; reflexivity].
  destruct (String.eqb "TIME" (limits_type l)) eqn:Et.
  - apply String.eqb_eq in Et. rewrite <- Et. reflexivity.
  - destruct (String.eqb "ITER" (limits_type l)); cbn in H;
      [discriminate H|reflexivity].
Qed.

Lemma drive_off_suspended :
  (forall j, core_ok j = true) ->
  forall (fuel : nat) f w,
    limit_off (f_rs f) = true ->
    (drive fuel (Gen_suspended f) w).1.1 = (fuel, None).
Proof.
  intros Hok. induction fuel as [|fuel IH]; intros f w He; [reflexivity|].
  pose proof (limit_reached_off f (S (f_i f)) w He) as Hl.
  destruct (render_proc_iteration_yield _ _ _ _ Hl (Hok _))
    as (f' & w' & ev & Hit & Hrs' & _).
  cbn [drive]. unfold next. rewrite Hit.
  specialize (IH f' w'). rewrite Hrs' in IH. specialize (IH He).
  destruct (drive fuel (Gen_suspended f') w') as [[[c e] g''] w''].
  cbn in IH |- *. inversion IH; subst. reflexivity.
Qed.

Lemma drive_off_created w (rt : nat) (fuel : nat) :
  limit_off (render_settings (sr w)) = true ->
  (forall j, core_ok j = true) ->
  render_targets (sr w) = Some rt ->
  (region (sr w) <> None -> resolution (sr w) <> None) ->
  (drive fuel Gen_created w).1.1 = (fuel, None).
Proof.
  intros He Hok Hrt Hreg.
  destruct fuel as [|fuel]; [reflexivity|].
  assert (Hsm : (render_proc_samples (render_settings (sr w)) w).1.1
                = Ok (samples get_user_settings)).
  { rewrite render_proc_samples_other; [reflexivity|].
    apply limit_off_not_iter. exact He. }
  destruct (render_proc_setup_ok w rt _ Hok Hrt Hreg Hsm)
    as (f & w2 & evs & Hsetup & Hrs & _).
  assert (He' : limit_off (f_rs f) = true) by (rewrite Hrs; exact He).
  pose proof (limit_reached_off f 0 w2 He') as Hl.
  destruct (render_proc_iteration_yield _ _ _ _ Hl (Hok _))
    as (f' & w' & ev & Hit & Hrs' & _).
  assert (Hnext : next Gen_created w
                  = (Ok false, Gen_suspended f', w', evs ++ [ev])).
  { unfold next, bind. rewrite Hsetup, Hit. reflexivity. }
  cbn [drive]. rewrite Hnext.
  pose proof (drive_off_suspended Hok fuel f' w') as D.
  rewrite Hrs' in D. specialize (D He').
  destruct (drive fuel (Gen_suspended f') w') as [[[c e] g''] w''].
  cbn in D |- *. inversion D; subst. reflexivity.
Qed.

(** X15: limits that are enabled do not always limit: with a time limit of
    zero, or a limit type that is neither 'TIME' nor 'ITER', the cycle
    goes on like one with limits disabled; every [next] yields. *)
Theorem limit_off_never_stops w (rt : nat) (fuel : nat) :
  limit_off (render_settings (sr w)) = true ->
  (forall j, core_ok j = true) ->
  render_targets (sr w) = Some rt ->
  (region (sr w) <> None -> resolution (sr w) <> None) ->
  (drive fuel SceneRenderer_render_proc w).1.1 = (fuel, None).
Proof.
  intros He Hok Hrt Hreg. exact (drive_off_created w rt fuel He Hok Hrt Hreg).
Qed.

(** *** Cycles that cannot start *)

Lemma render_proc_samples_returns (rs : RenderSettings) w :
  (limits_enable (rendering_limits rs) = true ->
   limits_type (rendering_limits rs) = "ITER" ->
   effective_samples (is_production (sr w)) get_user_settings <> 0) ->
  exists sm, (render_proc_samples rs w).1.1 = Ok sm.
Proof.
  intros H.
  destruct (limits_enable (rendering_limits rs)) eqn:He.
  - destruct (String.eqb "ITER" (limits_type (rendering_limits rs))) eqn:Et.
    + apply String.eqb_eq in Et. symmetry in Et.
      destruct (render_proc_samples_iter rs w He Et (H eq_refl Et)) as [Hs _].
      eexists. exact Hs.
    + rewrite render_proc_samples_other by (right; exact Et).
      eexists. reflexivity.
  - rewrite render_proc_samples_other by (left; exact He).
    eexists. reflexivity.
Qed.

Lemma render_proc_apply_no_targets (rs : RenderSettings) (sm : Z) w :
  (forall k, core_ok k = true) ->
  render_targets (sr w) = None ->
  (region (sr w) <> None -> resolution (sr w) <> None) ->
  let run := render_proc_apply rs sm w in
  run.1.1 = Raise AttributeError
  /\ render_calls run.2 = 0%nat
  /\ ContextSetParameter1u "aasamples" (U_int sm) ∈ run.2.
Proof.
  intros Hok Hrt Hreg.
  destruct w as [s c ths att n cr nc].
  destruct s as [it ii ip iip cg tip res reg trs rs0 pr aovs ti isp ui idv rt0 rl].
  cbn in Hrt, Hreg. subst rt0.
  destruct reg as [r|]; [destruct res as [re|]; [|exfalso; apply Hreg; congruence]|].
  all: py_run Hok.
  all: repeat split.
  all: repeat first [apply list_elem_of_here | apply list_elem_of_further].
Qed.

Lemma render_proc_apply_no_resolution (rs : RenderSettings) (sm : Z) w
    (r : Obj) :
  region (sr w) = Some r ->
  resolution (sr w) = None ->
  let run := render_proc_apply rs sm w in
  run.1.1 = Raise TypeError
  /\ run.2 = []
  /\ native_calls run.1.2 = native_calls w.
Proof.
  intros Hrg Hres.
  destruct w as [s c ths att n cr nc].
  destruct s as [it ii ip iip cg tip res reg trs rs0 pr aovs ti isp ui idv rt0 rl].
  cbn in Hrg, Hres. subst reg res.
  py_eval. repeat split.
Qed.

Lemma next_created_raises w (x : Exn) w' (evs : list (Event Obj)) :
  render_proc_setup w = (Raise x, w', evs) ->
  next Gen_created w = (Raise x, Gen_finished, w', evs).
Proof. intros H. unfold next, bind. rewrite H. reflexivity. Qed.

Lemma render_proc_setup_apply w (sm : Z) w1 :
  render_proc_samples (render_settings (sr w)) w = (Ok sm, w1, []) ->
  render_proc_setup w = render_proc_apply (render_settings (sr w)) sm w1.
Proof.
  intros Hs. unfold render_proc_setup. rewrite bind_gets.
  apply bind_ok_nil. exact Hs.
Qed.

(** The sample count is there, and the renderer as it was but for the
    iteration count. *)
Lemma render_proc_samples_run w :
  (limits_enable (rendering_limits (render_settings (sr w))) = true ->
   limits_type (rendering_limits (render_settings (sr w))) = "ITER" ->
   effective_samples (is_production (sr w)) get_user_settings <> 0) ->
  exists sm w1,
    render_proc_samples (render_settings (sr w)) w = (Ok sm, w1, [])
    /\ same_scene w w1
    /\ native_calls w1 = native_calls w.
Proof.
  intros H.
  destruct (render_proc_samples_returns _ w H) as [sm Hsm].
  destruct (render_proc_samples_frame (render_settings (sr w)) w)
    as (Hsc & _ & Hnc & _ & Hev).
  destruct (render_proc_samples _ w) as [[r w1] evs1].
  cbn in Hsm, Hsc, Hnc, Hev. subst r evs1.
  exists sm, w1. split; [reflexivity|split; assumption].
Qed.

(** X16: a cycle started on a renderer that has no render targets (no
    resolution was ever set) fails at the clearing of the targets, with
    [AttributeError]: by then the settings have been handed to the engine,
    nothing is rendered, and the generator is finished. *)
Theorem render_without_targets w :
  (forall k, core_ok k = true) ->
  render_targets (sr w) = None ->
  (region (sr w) <> None -> resolution (sr w) <> None) ->
  (limits_enable (rendering_limits (render_settings (sr w))) = true ->
   limits_type (rendering_limits (render_settings (sr w))) = "ITER" ->
   effective_samples (is_production (sr w)) get_user_settings <> 0) ->
  let run := next SceneRenderer_render_proc w in
  run.1.1.1 = Raise AttributeError
  /\ run.1.1.2 = Gen_finished
  /\ render_calls run.2 = 0%nat
  /\ (exists sm, ContextSetParameter1u "aasamples" (U_int sm) ∈ run.2)
  /\ (next run.1.1.2 run.1.2).1.1.1 = Raise StopIteration.
Proof.
  intros Hok Hrt Hreg Hs.
  destruct (render_proc_samples_run w Hs) as (sm & w1 & Hsm & Hsc & _).
  pose proof Hsc as (_ & _ & _ & _ & _ & _ & _ & Hres & Hrg & _ & Hrt1 & _).
  destruct (render_proc_apply_no_targets (render_settings (sr w)) sm w1 Hok)
    as (Hr & Hn & Hin).
  { congruence. }
  { rewrite Hres, Hrg. exact Hreg. }
  pose proof (render_proc_setup_apply w sm w1 Hsm) as Hsetup.
  destruct (render_proc_apply _ sm w1) as [[r w2] evs2].
  cbn in Hr, Hn, Hin. subst r.
  unfold SceneRenderer_render_proc. cbv zeta.
  rewrite (next_created_raises w _ _ _ Hsetup). cbn [fst snd].
  repeat split; try assumption. exists sm. exact Hin.
Qed.

(** X17: a cycle started with a region set and no resolution fails with
    [TypeError] where the region is scaled, before anything is handed to
    the engine. *)
Theorem render_region_without_resolution w (r : Obj) :
  region (sr w) = Some r ->
  resolution (sr w) = None ->
  (limits_enable (rendering_limits (render_settings (sr w))) = true ->
   limits_type (rendering_limits (render_settings (sr w))) = "ITER" ->
   effective_samples (is_production (sr w)) get_user_settings <> 0) ->
  let run := next SceneRenderer_render_proc w in
  run.1.1.1 = Raise TypeError
  /\ run.1.1.2 = Gen_finished
  /\ run.2 = []
  /\ native_calls run.1.2 = native_calls w.
Proof.
  intros Hreg Hres Hs.
  destruct (render_proc_samples_run w Hs) as (sm & w1 & Hsm & Hsc & Hnc).
  pose proof Hsc as (_ & _ & _ & _ & _ & _ & _ & Hres1 & Hrg1 & _).
  destruct (render_proc_apply_no_resolution (render_settings (sr w)) sm w1 r)
    as (Hr & He & Hn).
  { congruence. }
  { congruence. }
  pose proof (render_proc_setup_apply w sm w1 Hsm) as Hsetup.
  destruct (render_proc_apply _ sm w1) as [[r2 w2] evs2].
  cbn in Hr, He, Hn. subst r2 evs2.
  unfold SceneRenderer_render_proc. cbv zeta.
  rewrite (next_created_raises w _ _ _ Hsetup). cbn [fst snd].
  repeat split. congruence.
Qed.

(** X18: with an iteration limit and an effective sample count of zero
    the rescaling of the limit divides by zero: the first [next] raises
    [ZeroDivisionError] with nothing done. *)
Theorem render_zero_samples w :
  limits_enable (rendering_limits (render_settings (sr w))) = true ->
  limits_type (rendering_limits (render_settings (sr w))) = "ITER" ->
  effective_samples (is_production (sr w)) get_user_settings = 0 ->
  next SceneRenderer_render_proc w
  = (Raise ZeroDivisionError, Gen_finished, w, []).
Proof.
  intros He Ht Heff. apply next_created_raises.
  unfold render_proc_setup. rewrite bind_gets.
  unfold render_proc_samples. rewrite He, Ht.
  change (String.eqb "ITER" "ITER") with true. cbv iota.
  unfold bind at 1. unfold bind at 1. unfold gets at 1. cbv beta iota.
  rewrite Heff. reflexivity.
Qed.

(** X19: the cycle ends with a log line that divides by the time the
    cycle took. A generator that has reached its iteration limit while the
    clock still reads what it read at the start of the cycle does not
    return: its [next] raises [ZeroDivisionError]. *)
Theorem finish_zero_elapsed f w :
  limits_enable (rendering_limits (f_rs f)) = true ->
  limits_type (rendering_limits (f_rs f)) = "ITER" ->
  used_iterations (sr w) <> 0 ->
  used_iterations (sr w) <= Z.of_nat (S (f_i f)) ->
  perf_counter (clock_reads w) = f_time_start f ->
  next (Gen_suspended f) w
  = (Raise ZeroDivisionError, Gen_finished,
     with_clock_reads (S (clock_reads w)) w, []).
Proof.
  intros He Ht Hu Hle Hclock.
  pose proof (limit_reached_iter f (S (f_i f)) w He Ht) as Hl.
  assert (Hb : negb (used_iterations (sr w) =? 0)
               && (used_iterations (sr w) <=? Z.of_nat (S (f_i f))) = true).
  { apply andb_true_intro. split.
    - apply negb_true_iff, Z.eqb_neq. exact Hu.
    - apply Z.leb_le. exact Hle. }
  rewrite Hb in Hl.
  unfold next, render_proc_iteration.
  rewrite (bind_ok_nil _ _ _ _ _ Hl). cbv iota.
  rewrite (render_proc_finish_zero f w Hclock). reflexivity.
Qed.

End GeneratorExtras.

Section ImageExtras.

Context {Obj : Type} {ext : Externals Obj}.
Implicit Types (w : World Obj).

Ltac py_eval :=
  cbv -[Z.add Z.sub Z.mul Z.quot Z.div Z.ltb Z.leb Z.eqb Z.of_nat Z.max
        core_ok perf_counter get_frame_buffer get_resolved_image
        rendermode_remap filter_remap radius_params get_user_settings
        camera_zoom_of array_equal py_eq is_same effective_samples
        lookup insert empty String.eqb
        limits_enable limits_type limits_iterations limits_time
        tm_enable tm_type wb_enable wb_color_space_value gm_enable
        gm_viewport_only rendering_limits render_mode use_clamp_irradiance
        get_max_ray_depth aa_filter tone_mapping white_balance
        gamma_correction samples device_type device_type_plus_cpu
        used_gpu_count].

Ltac split_test :=
  match goal with
  | |- context [if ?b then _ else _] =>
      let T := type of b in unify T bool; destruct b eqn:?
  | |- context [match ?x with Some _ => _ | None => _ end] =>
      destruct x eqn:?
  end.

Ltac py_cases := py_eval; repeat (split_test; py_eval).

Lemma bind_raises {E W A B} (c : M E W A) (k : A -> M E W B)
    (x : W) (e : Exn) (x' : W) (evs : list E) :
  c x = (Raise e, x', evs) -> bind c k x = (Raise e, x', evs).
Proof. intros H. unfold bind. rewrite H. reflexivity. Qed.

(** Rebuilding the post-effect chain touches the engine only, whether it
    succeeds or not. *)
Lemma rebuild_post_effects_frame (aov_name : string) w :
  exists n, (rebuild_post_effects aov_name w).1.2 = with_native_calls n w.
Proof.
  destruct w as [s c ths att n cr nc].
  destruct s as [it ii ip iip cg tip res reg trs rs pr aovs ti isp ui idv rt0 rl].
  py_cases; eexists; reflexivity.
Qed.

(** What [get_image] leaves alone, whether it returns or raises. *)
Lemma get_image_frame (aov_name : string) w :
  let run := get_image aov_name w in
  (forall other, other <> aov_name ->
     im_prepared (sr run.1.2) !! other = im_prepared (sr w) !! other)
  /\ (forall x, run.1.1 = Ok x -> x = im_prepared (sr run.1.2) !! aov_name)
  /\ (forall e, run.1.1 = Raise e ->
        im_prepared (sr run.1.2) = im_prepared (sr w))
  /\ srt run.1.2 = srt w
  /\ render_targets (sr run.1.2) = render_targets (sr w)
  /\ render_layers (sr run.1.2) = render_layers (sr w)
  /\ attached run.1.2 = attached w.
Proof.
  unfold get_image. rewrite bind_gets.
  destruct (im_prepared (sr w) !! aov_name) as [im|] eqn:Ec.
  { cbn. repeat split; try discriminate. intros x [= <-]. symmetry. exact Ec. }
  rewrite bind_gets.
  destruct (render_targets (sr w)) as [rt|] eqn:Ert.
  2:{ cbn. repeat split; try discriminate. exact Ert. }
  rewrite bind_gets.
  destruct (get_frame_buffer (native_calls w) rt aov_name) as [fb|].
  2:{ cbn. repeat split; try discriminate; try assumption.
      intros x [= <-]. symmetry. exact Ec. }
  destruct (rebuild_post_effects_frame aov_name w) as [n Hn].
  destruct (rebuild_post_effects aov_name w) as [[[[]|e] w1] evs1] eqn:Epe;
    cbn in Hn; subst w1.
  2:{ rewrite (bind_raises _ _ _ _ _ _ Epe). cbn.
      repeat split; try discriminate; try assumption; reflexivity. }
  rewrite (bind_step _ _ _ _ _ _ Epe). rewrite bind_gets.
  destruct w as [s c ths att nid cr nc]. cbn in Ec, Ert.
  destruct s as [it ii ip iip cg tip res reg trs rs pr aovs ti isp ui idv rt0 rl].
  cbn in Ec, Ert. subst rt0.
  unfold core_call, emitted.
  cbv [bind gets new_object emit upd_sr modify ret raise with_sr
       with_native_calls with_next_id sr srt threads attached next_id
       clock_reads native_calls fst snd im_prepared with_im_prepared
       render_targets render_layers].
  destruct (core_ok n);
    [destruct (get_resolved_image n fb) as [raw|]; [destruct rl as [l|]|]|].
  all: cbv [bind gets new_object emit upd_sr modify ret raise with_sr
       with_native_calls with_next_id sr srt threads attached next_id
       clock_reads native_calls fst snd im_prepared with_im_prepared
       render_targets render_layers].
  all: repeat match goal with |- _ /\ _ => split end;
    try reflexivity; try discriminate.
  all: try (intros other Hne; rewrite lookup_insert_ne by congruence;
            reflexivity).
  all: try (intros x [= <-]; try rewrite lookup_insert_eq; try rewrite Ec;
            reflexivity).
Qed.

(** X20: [get_image] changes the image cache at the channel asked for and
    nowhere else; what it returns is what the cache then holds for that
    channel; and when it raises, the cache is as it was. *)
Theorem get_image_cache_frame (aov_name : string) w :
  let run := get_image aov_name w in
  (forall other, other <> aov_name ->
     im_prepared (sr run.1.2) !! other = im_prepared (sr w) !! other)
  /\ (forall x, run.1.1 = Ok x -> x = im_prepared (sr run.1.2) !! aov_name)
  /\ (forall e, run.1.1 = Raise e ->
        im_prepared (sr run.1.2) = im_prepared (sr w))
  /\ render_targets (sr run.1.2) = render_targets (sr w)
  /\ render_layers (sr run.1.2) = render_layers (sr w).
Proof.
  destruct (get_image_frame aov_name w) as (H1 & H2 & H3 & _ & H4 & H5 & _).
  repeat split; assumption.
Qed.

Lemma rebuild_post_effects_aov (aov_name : string) w :
  aov_name <> "default" ->
  (forall k, core_ok k = true) ->
  rebuild_post_effects aov_name w
  = (Ok tt, with_native_calls (S (S (native_calls w))) w,
     [PostEffect_start_update;
      PostEffect_enable "POST_EFFECT_NORMALIZATION"]).
Proof.
  intros Hne Hok. unfold rebuild_post_effects.
  apply String.eqb_neq in Hne. rewrite Hne.
  rewrite (bind_step _ _ _ _ _ _ (core_call_ok _ _ Hok)).
  rewrite (bind_step _ _ _ _ _ _ (core_call_ok _ _ Hok)).
  destruct w as [s c ths att nid cr nc]. reflexivity.
Qed.

(** X21: for a channel other than the default one, [get_image] enables
    normalization and nothing else before it resolves the frame buffer:
    tone mapping, white balance and gamma are left out, whatever the
    settings say. *)
Theorem get_image_aov_normalization_only (aov_name : string) w (rt : nat)
    (fb : Obj) :
  aov_name <> "default" ->
  im_prepared (sr w) !! aov_name = None ->
  render_targets (sr w) = Some rt ->
  get_frame_buffer (native_calls w) rt aov_name = Some fb ->
  (forall k, core_ok k = true) ->
  exists rest,
    (get_image aov_name w).2
    = [PostEffect_start_update;
       PostEffect_enable "POST_EFFECT_NORMALIZATION";
       RenderTargets_get_resolved_image rt fb] ++ rest
    /\ (rest = [] \/ exists raw, rest = [prepare_image_by_layer aov_name raw]).
Proof.
  intros Hne Hc Hrt Hfb Hok.
  unfold get_image.
  rewrite bind_gets, Hc, bind_gets, Hrt, bind_gets, Hfb.
  rewrite (bind_step _ _ _ _ _ _ (rebuild_post_effects_aov _ w Hne Hok)).
  rewrite bind_gets.
  rewrite (bind_step _ _ _ _ _ _ (core_call_ok _ _ Hok)).
  cbn [native_calls with_native_calls].
  destruct w as [s c ths att nid cr nc]. cbn [native_calls].
  destruct (get_resolved_image (S (S nc)) fb) as [raw|];
    [destruct (render_layers s) as [l|] eqn:El|].
  all: cbv [bind gets new_object emit upd_sr modify ret raise emitted with_sr
       with_native_calls with_next_id sr srt threads attached next_id
       clock_reads native_calls fst snd].
  all: try rewrite El; cbv iota beta; cbn [app].
  - eexists. split; [reflexivity|]. right. eexists. reflexivity.
  - eexists. split; [reflexivity|]. left. reflexivity.
  - eexists. split; [reflexivity|]. left. reflexivity.
Qed.

(** X22: with tone mapping enabled and of a type the code does not know,
    [get_image] of the default channel fails on its assertion after the
    chain update was started and normalization enabled: the frame buffer
    is not resolved and nothing is cached. *)
Theorem get_image_unknown_tone_mapping w (rt : nat) (fb : Obj) :
  tone_mapping_known (tone_mapping (render_settings (sr w))) = false ->
  im_prepared (sr w) !! "default" = None ->
  render_targets (sr w) = Some rt ->
  get_frame_buffer (native_calls w) rt "default" = Some fb ->
  (forall k, core_ok k = true) ->
  get_image "default" w
  = (Raise AssertionError,
     with_native_calls (S (S (native_calls w))) w,
     [PostEffect_start_update;
      PostEffect_enable "POST_EFFECT_NORMALIZATION"]).
Proof.
  intros Htm Hc Hrt Hfb Hok.
  unfold get_image.
  rewrite bind_gets, Hc, bind_gets, Hrt, bind_gets, Hfb.
  apply bind_raises.
  unfold rebuild_post_effects.
  rewrite (bind_step _ _ _ _ _ _ (core_call_ok _ _ Hok)).
  rewrite (bind_step _ _ _ _ _ _ (core_call_ok _ _ Hok)).
  change (String.eqb "default" "default") with true. cbv iota.
  rewrite bind_gets.
  unfold tone_mapping_known in Htm.
  destruct w as [s c ths att nid cr nc]. cbn [sr] in Htm.
  cbn [sr with_native_calls native_calls].
  unfold update_tone_mapping.
  destruct (tm_enable (tone_mapping (render_settings s))); [|discriminate].
  destruct (String.eqb _ "simplified"); [discriminate|].
  destruct (String.eqb _ "linear"); [discriminate|].
  destruct (String.eqb _ "non_linear"); [discriminate|].
  reflexivity.
Qed.

End ImageExtras.

Section DeviceExtras.

Context {Obj : Type} {ext : Externals Obj}.
Implicit Types (w : World Obj) (v : option Obj).

(** A resolution change that [check_updates] applies detaches the target
    set the renderer held and attaches the new one, whatever else is
    pending. *)
Lemma check_updates_resolution_device w :
  has_value (ud_render_resolution (update_data (srt w))) = true ->
  let w' := (check_updates w).1.2 in
  render_targets (sr w') = Some (next_id w)
  /\ attached w'
     = match render_targets (sr w) with
       | Some old => filter (fun x => x <> old) (attached w)
       | None => attached w
       end ++ [next_id w].
Proof.
  destruct ext as [ae pe ism czo pc ok gfb gri rr fr rp us].
  destruct w as [s c ths att n cr nc].
  destruct s as [it ii ip iip cg tip res reg trs rs pr aovs ti isp ui idv rt rl].
  destruct c as [nr th ev [[vg hg eg] [vr hr er] [va ha ea] [vc hc ec]]
                   rres raov rreg rcam syn sd stp].
  intros Hr. cbn in Hr. subst hr.
  destruct rt as [old|]; destruct ha; destruct hg;
    (destruct hc; [destruct syn as [syn|]|]).
  all: vm_compute; try destruct (czo vc).
  all: split; reflexivity.
Qed.

Lemma update_render_resolution_attached v w :
  targets_attached w ->
  targets_attached (SceneRenderer_update_render_resolution v w).1.2.
Proof.
  unfold targets_attached.
  destruct w as [s c ths att n cr nc].
  destruct s as [it ii ip iip cg tip res reg trs rs pr aovs ti isp ui idv rt rl].
  cbn [attached sr render_targets]. intros ->.
  destruct rt as [old|]; cbn; repeat case_decide; try reflexivity;
    exfalso; auto.
Qed.

Lemma set_render_resolution_attached v w :
  targets_attached w ->
  targets_attached (SceneRendererThreaded_set_render_resolution v w).1.2.
Proof.
  unfold targets_attached.
  destruct w as [s c ths att n cr nc].
  destruct s as [it ii ip iip cg tip res reg trs rs pr aovs ti isp ui idv rt rl].
  cbn [attached sr render_targets]. intros ->.
  destruct rt as [old|]; cbn; repeat case_decide; try reflexivity;
    exfalso; auto.
Qed.

Lemma check_updates_attached w :
  targets_attached w -> targets_attached (check_updates w).1.2.
Proof.
  unfold targets_attached. intros Ha.
  destruct (has_value (ud_render_resolution (update_data (srt w)))) eqn:Hr.
  - destruct (check_updates_resolution_device w Hr) as [-> ->].
    rewrite Ha. destruct (render_targets (sr w)) as [old|];
      rewrite ?filter_ne_singleton; reflexivity.
  - pose proof (check_updates_frame w)
      as (_ & _ & _ & _ & _ & _ & _ & _ & _ & _ & Hres & _).
    destruct (Hres Hr) as (_ & -> & -> & _). exact Ha.
Qed.

Lemma drive_same_scene (fuel : nat) :
  forall (g : Generator Obj) w, same_scene w (drive fuel g w).2.
Proof.
  induction fuel as [|fuel IH]; intros g w.
  - cbn. unfold same_scene. repeat split.
  - cbn [drive]. pose proof (next_same_scene g w) as Hn.
    destruct (next g w) as [[[r g1] w1] evs1]. cbn in Hn.
    destruct r as [b|e].
    + specialize (IH g1 w1).
      destruct (drive fuel g1 w1) as [[[n e] g2] w2]. cbn in IH |- *.
      eapply same_scene_trans; eassumption.
    + exact Hn.
Qed.

Lemma run_call_attached (c : HostCall Obj) w :
  targets_attached w -> targets_attached (run_call c w).
Proof.
  destruct c as [v|v|v|v|v|v|v|s| |name|n]; cbn [run_call].
  - apply set_render_resolution_attached.
  - exact (fun H => H).
  - exact (fun H => H).
  - exact (fun H => H).
  - exact (fun H => H).
  - exact (fun H => H).
  - exact (fun H => H).
  - exact (fun H => H).
  - apply check_updates_attached.
  - unfold targets_attached.
    destruct (get_image_frame name w) as (_ & _ & _ & _ & -> & _ & ->).
    exact (fun H => H).
  - unfold targets_attached.
    destruct (drive_same_scene n SceneRenderer_render_proc w)
      as (_ & _ & -> & _ & _ & _ & _ & _ & _ & _ & -> & _).
    exact (fun H => H).
Qed.

Lemma SceneRenderer_del_detaches w :
  targets_attached w ->
  let w' := (SceneRenderer_del w).1.2 in
  attached w' = []
  /\ render_targets (sr w') = None
  /\ render_layers (sr w') = None.
Proof.
  unfold targets_attached.
  destruct w as [s c ths att n cr nc].
  destruct s as [it ii ip iip cg tip res reg trs rs pr aovs ti isp ui idv rt rl].
  cbn [attached sr render_targets]. intros ->.
  destruct rt as [old|]; cbn; repeat case_decide; repeat split;
    exfalso; auto.
Qed.

(** X23: the render device has exactly the target set of the renderer
    attached, or none when the renderer has none: this holds of a new
    session, every call of the host and every step of the worker keeps it,
    calls that raise included, and [__del__] then leaves nothing
    attached. *)
Theorem device_holds_current_targets (cs : list (HostCall Obj)) w :
  targets_attached w ->
  targets_attached (run_calls cs w)
  /\ (length (attached (run_calls cs w)) <= 1)%nat
  /\ attached (SceneRenderer_del (run_calls cs w)).1.2 = []
  /\ render_targets (sr (SceneRenderer_del (run_calls cs w)).1.2) = None.
Proof.
  intros H.
  assert (Hinv : targets_attached (run_calls cs w)).
  { revert w H. unfold run_calls.
    induction cs as [|c cs IH]; intros w H; [exact H|].
    cbn [foldl]. apply IH, run_call_attached, H. }
  destruct (SceneRenderer_del_detaches _ Hinv) as (Hd1 & Hd2 & _).
  repeat split; try assumption.
  unfold targets_attached in Hinv. rewrite Hinv.
  destruct (render_targets _); cbn; lia.
Qed.

End DeviceExtras.

Section CycleExtras.

Context {Obj : Type} {ext : Externals Obj}.
Implicit Types (w : World Obj) (g : Generator Obj).

(** *** The completion event *)

(** Every change [check_updates] applies clears the completion event. *)
Lemma check_updates_completion w :
  let ud := update_data (srt w) in
  (has_value (ud_render_resolution ud) = false ->
   has_value (ud_aov ud) = true -> render_layers (sr w) <> None) ->
  (has_value (ud_render_camera ud) = true -> scene_synced (srt w) <> None) ->
  render_completed_event (srt (check_updates w).1.2)
  = if has_value (ud_render_resolution ud) || has_value (ud_aov ud)
       || has_value (ud_render_region ud) || has_value (ud_render_camera ud)
    then false else render_completed_event (srt w).
Proof.
  destruct ext as [ae pe ism czo pc ok gfb gri rr fr rp us].
  destruct w as [s c ths att n cr nc].
  destruct s as [it ii ip iip cg tip res reg trs rs pr aovs ti isp ui idv rt rl].
  destruct c as [nr th ev [[vg hg eg] [vr hr er] [va ha ea] [vc hc ec]]
                   rres raov rreg rcam syn sd stp].
  intros ud Hl Hs. subst ud.
  destruct hr, ha, hg, hc; cbn in Hl, Hs;
    try (destruct syn as [syn|]; [| exfalso; apply Hs; reflexivity ]);
    try (destruct rl as [l|]; [| exfalso; apply Hl; reflexivity ]);
    destruct rt as [old|].
  all: vm_compute; try destruct (czo vc).
  all: reflexivity.
Qed.

(** X24: once [check_updates] has applied a change, the host that asks a
    coordinator with a live worker whether the render is completed is told
    no, whatever the completion event said before. *)
Theorem applied_update_clears_completion w (tid : nat) (blk : BlockId) :
  let ud := update_data (srt w) in
  (has_value (ud_render_resolution ud) = false ->
   has_value (ud_aov ud) = true -> render_layers (sr w) <> None) ->
  (has_value (ud_render_camera ud) = true -> scene_synced (srt w) <> None) ->
  has_value (block_of blk ud) = true ->
  thread (srt w) = Some tid ->
  thread_alive tid w = true ->
  let w' := (check_updates w).1.2 in
  render_completed_event (srt w') = false
  /\ is_render_completed w' = (Ok false, w', []).
Proof.
  intros ud Hl Hs Hb Hth Ha w'.
  assert (Hc : render_completed_event (srt w') = false).
  { subst w'. rewrite (check_updates_completion w Hl Hs). fold ud.
    destruct blk; cbn in Hb; rewrite Hb; rewrite ?orb_true_r; reflexivity. }
  split; [exact Hc|].
  destruct (check_updates_frame w) as (_ & _ & Hth' & Hths & _).
  fold w' in Hth', Hths.
  clearbody w'.
  unfold is_render_completed, is_alive, bind, gets.
  rewrite Hth', Hth. unfold thread_alive in Ha |- *. rewrite Hths, Ha.
  cbn [negb]. rewrite Hc. reflexivity.
Qed.

(** *** The non-interactive render *)

Lemma render_noninteractive_loop_drive (fuel : nat) :
  forall g w (n : nat) (e : option Exn) g' w',
    stop_requested (srt w) = Some false ->
    drive fuel g w = (n, e, g', w') ->
    match e with
    | Some StopIteration =>
        exists evs,
          render_noninteractive_loop fuel g w
          = Some (Ok tt, render_completed w', evs)
    | Some x =>
        exists evs,
          render_noninteractive_loop fuel g w = Some (Raise x, w', evs)
    | None => render_noninteractive_loop fuel g w = None
    end
    /\ srt w' = srt w.
Proof.
  induction fuel as [|fuel IH]; intros g w n e g' w' Hstop Hd.
  - cbn in Hd. injection Hd as <- <- <- <-. split; reflexivity.
  - cbn [drive] in Hd. cbn [render_noninteractive_loop].
    pose proof (next_same_scene g w) as Hsc.
    destruct (next g w) as [[[r g1] w1] evs1].
    cbn in Hsc. destruct Hsc as (Hsrt & _).
    destruct r as [b|x].
    + destruct (drive fuel g1 w1) as [[[n1 e1] g2] w2] eqn:Hd1.
      injection Hd as <- <- <- <-.
      assert (Hstop1 : stop_requested (srt w1) = Some false) by congruence.
      destruct (IH g1 w1 n1 e1 g2 w2 Hstop1 Hd1) as [Hl Hs2].
      split; [|congruence].
      rewrite Hstop1.
      destruct e1 as [x|]; [|rewrite Hl; reflexivity].
      destruct x; destruct Hl as [evs Hl]; rewrite Hl; eexists; reflexivity.
    + injection Hd as <- <- <- <-. split; [|exact Hsrt].
      destruct x; eexists; reflexivity.
Qed.

(** X25: [render_proc_noninteractive] looks at [stop_requested] only after
    the generator has been advanced: called with the flag already set it
    still applies the settings and renders one iteration before it sets
    the completion event and returns. *)
Theorem noninteractive_stop_renders_once (fuel : nat) w (b : bool) g1 w1
    (evs : list (Event Obj)) :
  stop_requested (srt w) = Some true ->
  next SceneRenderer_render_proc
    (with_srt (with_render_completed_event false (srt w)) w)
  = (Ok b, g1, w1, evs) ->
  render_proc_noninteractive (S fuel) w
  = Some (Ok tt, render_completed w1, evs)
  /\ render_completed_event (srt (render_completed w1)) = true
  /\ im_prepared (sr w1) = ∅.
Proof.
  intros Hstop Hn.
  destruct (next_yield_frame _ _ _ _ _ _ Hn) as [Hc (Hsrt & _)].
  unfold render_proc_noninteractive. cbn [render_noninteractive_loop].
  rewrite Hn, Hsrt. cbn [srt with_srt stop_requested
                         with_render_completed_event].
  destruct w as [s c ths att n cr nc]. cbn in Hstop |- *.
  destruct c. cbn in Hstop |- *. rewrite Hstop. repeat split. exact Hc.
Qed.

(** X26: [render_proc_noninteractive] drives one refine cycle to its end
    without looking at the inbox: when the generator yields [n] times and
    returns, the call returns with the completion event set, and what was
    pending is still pending. *)
Theorem noninteractive_renders_to_limit (fuel n : nat) w g' wf :
  stop_requested (srt w) = Some false ->
  drive fuel SceneRenderer_render_proc
    (with_srt (with_render_completed_event false (srt w)) w)
  = (n, Some StopIteration, g', wf) ->
  exists evs,
    render_proc_noninteractive fuel w
    = Some (Ok tt, render_completed wf, evs)
    /\ render_completed_event (srt (render_completed wf)) = true
    /\ update_data (srt (render_completed wf)) = update_data (srt w)
    /\ _need_scene_redraw (srt (render_completed wf))
       = _need_scene_redraw (srt w).
Proof.
  intros Hstop Hd.
  assert (Hstop0 : stop_requested
            (srt (with_srt (with_render_completed_event false (srt w)) w))
          = Some false).
  { destruct w as [s c ths att k cr nc]. destruct c. exact Hstop. }
  destruct (render_noninteractive_loop_drive fuel _ _ _ _ _ _ Hstop0 Hd)
    as [[evs Hloop] Hsrt].
  exists evs. unfold render_proc_noninteractive. rewrite Hloop.
  split; [reflexivity|].
  unfold render_completed. cbn. rewrite Hsrt.
  destruct w as [s c ths att k cr nc]. destruct c. repeat split.
Qed.

(** *** A whole tick *)

(** The renderer the loop of a tick starts from, when the tick has no
    resolution change to apply. *)
Lemma tick_entry_renderer w :
  has_value (ud_render_resolution (update_data (srt w))) = false ->
  render_settings (sr (tick_entry w)) = render_settings (sr w)
  /\ is_production (sr (tick_entry w)) = is_production (sr w)
  /\ render_targets (sr (tick_entry w)) = render_targets (sr w)
  /\ resolution (sr (tick_entry w)) = resolution (sr w).
Proof.
  intros Hr.
  destruct (check_updates_frame w)
    as (_ & _ & _ & _ & _ & _ & _ & Hrs & Hip & _ & Hres & _).
  destruct (Hres Hr) as (H1 & H2 & _).
  unfold tick_entry. cbn [sr with_srt]. repeat split; assumption.
Qed.

(** X27: a tick with a redraw to do and an iteration limit in force
    returns: it renders the iterations of the limit, sets the completion
    event and leaves the redraw request cleared and nothing pending. The
    product of the limit and the user samples is taken to be below 2^53,
    where the float quotient of the code is the integer quotient. *)
Theorem tick_iteration_limit (fuel : nat) w (rt : nat) :
  let ud := update_data (srt w) in
  let rs := render_settings (sr w) in
  let eff := effective_samples (is_production (sr w)) get_user_settings in
  let U := Z.max 1 (Z.quot (limits_iterations (rendering_limits rs)
                            * samples get_user_settings) eff) in
  has_value (ud_render_resolution ud) = false ->
  (has_value (ud_aov ud) = true -> render_layers (sr w) <> None) ->
  (has_value (ud_render_camera ud) = true -> scene_synced (srt w) <> None) ->
  has_value (ud_aov ud) || has_value (ud_render_region ud)
  || has_value (ud_render_camera ud) || _need_scene_redraw (srt w) = true ->
  stop_requested (srt w) = Some false ->
  sleep_delay (srt w) <> None ->
  render_targets (sr w) = Some rt ->
  resolution (sr w) <> None ->
  limits_enable (rendering_limits rs) = true ->
  limits_type (rendering_limits rs) = "ITER" ->
  eff <> 0 ->
  Z.abs (limits_iterations (rendering_limits rs) * samples get_user_settings)
  < 2 ^ 53 ->
  (forall k, core_ok k = true) ->
  (forall a b, (a < b)%nat -> perf_counter a < perf_counter b) ->
  (Z.to_nat U < fuel)%nat ->
  exists wf evs,
    SceneRendererThreaded_render_proc fuel w = Some (Ok tt, wf, evs)
    /\ render_completed_event (srt wf) = true
    /\ _need_scene_redraw (srt wf) = false
    /\ inbox_empty wf
    /\ (drive fuel SceneRenderer_render_proc (tick_entry w)).1.1.1
       = Z.to_nat U
    /\ py_int_truediv
         (limits_iterations (rendering_limits rs) * samples get_user_settings)
         eff
       = Some (Z.quot (limits_iterations (rendering_limits rs)
                       * samples get_user_settings) eff).
Proof.
  intros ud rs eff U Hr Hl Hs Hany Hstop Hsd Hrt Hres He Ht Heff Hbound Hok
    Hclock Hfuel.
  assert (Hl' : has_value (ud_render_resolution ud) = false ->
                has_value (ud_aov ud) = true -> render_layers (sr w) <> None)
    by (intros _; exact Hl).
  destruct (check_updates_effect w Hl' Hs) as (Hcok & _ & Hflag & _).
  fold ud in Hflag. rewrite Hr in Hflag. cbn [orb] in Hflag.
  rewrite Hany in Hflag.
  pose proof (check_updates_steady w Hl' Hs Hstop Hsd) as Hst.
  destruct (tick_entry_renderer w Hr) as (Ers & Eip & Ert & Eres).
  destruct (drive_iter_created (tick_entry w) rt fuel) as [Hd1 Hd2].
  { rewrite Ers. exact He. }
  { rewrite Ers. exact Ht. }
  { rewrite Eip. exact Heff. }
  { exact Hok. }
  { exact Hclock. }
  { rewrite Ert. exact Hrt. }
  { intros _. rewrite Eres. exact Hres. }
  { rewrite Ers, Eip. exact Hfuel. }
  rewrite Ers, Eip in Hd1. fold rs eff U in Hd1.
  unfold SceneRenderer_render_proc in *.
  destruct (drive fuel Gen_created (tick_entry w)) as [[[n e] g'] wf] eqn:Hd.
  cbn in Hd1, Hd2. injection Hd1 as -> ->.
  destruct (render_proc_loop_drive fuel _ _ _ _ _ _ Hst Hd)
    as [[evs Hloop] Hsrt].
  exists (render_completed wf), ((check_updates w).2 ++ evs).
  rewrite (tick_unfold fuel w Hcok Hflag).
  unfold SceneRenderer_render_proc. rewrite Hloop. cbn [after].
  split; [reflexivity|].
  destruct Hst as (Hin & Hnr & _).
  unfold inbox_empty in *. unfold render_completed. cbn.
  rewrite Hsrt. repeat split; try assumption.
  apply py_int_truediv_exact; assumption.
Qed.

(** X28: without a limit in force a tick with a redraw to do does not
    return on its own: the loop goes on rendering for as long as the host
    neither requests a stop nor queues a change. *)
Theorem tick_unlimited_runs_on (fuel : nat) w (rt : nat) :
  let ud := update_data (srt w) in
  has_value (ud_render_resolution ud) = false ->
  (has_value (ud_aov ud) = true -> render_layers (sr w) <> None) ->
  (has_value (ud_render_camera ud) = true -> scene_synced (srt w) <> None) ->
  has_value (ud_aov ud) || has_value (ud_render_region ud)
  || has_value (ud_render_camera ud) || _need_scene_redraw (srt w) = true ->
  stop_requested (srt w) = Some false ->
  sleep_delay (srt w) <> None ->
  render_targets (sr w) = Some rt ->
  resolution (sr w) <> None ->
  limit_off (render_settings (sr w)) = true ->
  (forall k, core_ok k = true) ->
  SceneRendererThreaded_render_proc fuel w = None.
Proof.
  intros ud Hr Hl Hs Hany Hstop Hsd Hrt Hres Hoff Hok.
  assert (Hl' : has_value (ud_render_resolution ud) = false ->
                has_value (ud_aov ud) = true -> render_layers (sr w) <> None)
    by (intros _; exact Hl).
  destruct (check_updates_effect w Hl' Hs) as (Hcok & _ & Hflag & _).
  fold ud in Hflag. rewrite Hr in Hflag. cbn [orb] in Hflag.
  rewrite Hany in Hflag.
  pose proof (check_updates_steady w Hl' Hs Hstop Hsd) as Hst.
  destruct (tick_entry_renderer w Hr) as (Ers & Eip & Ert & Eres).
  pose proof (drive_off_created (tick_entry w) rt fuel) as Hd1.
  rewrite Ers, Ert, Eres in Hd1.
  specialize (Hd1 Hoff Hok Hrt (fun _ => Hres)).
  destruct (drive fuel Gen_created (tick_entry w)) as [[[n e] g'] wf] eqn:Hd.
  cbn in Hd1. injection Hd1 as -> ->.
  destruct (render_proc_loop_drive fuel _ _ _ _ _ _ Hst Hd) as [Hloop _].
  rewrite (tick_unfold fuel w Hcok Hflag).
  unfold SceneRenderer_render_proc. rewrite Hloop. reflexivity.
Qed.

End CycleExtras.

Section TileExtras.

Context {Obj : Type} {ext : Externals Obj}.
Implicit Types (w : World Obj) (f : Frame Obj) (g : Generator Obj).

Ltac py_eval :=
  cbv -[Z.add Z.sub Z.mul Z.quot Z.div Z.ltb Z.leb Z.eqb Z.of_nat Z.max
        core_ok perf_counter get_frame_buffer get_resolved_image
        rendermode_remap filter_remap radius_params get_user_settings
        camera_zoom_of array_equal py_eq is_same effective_samples
        lookup insert empty String.eqb
        limits_enable limits_type limits_iterations limits_time
        tm_enable tm_type wb_enable wb_color_space_value gm_enable
        gm_viewport_only rendering_limits render_mode use_clamp_irradiance
        get_max_ray_depth aa_filter tone_mapping white_balance
        gamma_correction samples device_type device_type_plus_cpu
        used_gpu_count].

Ltac split_test :=
  match goal with
  | |- context [if ?b then _ else _] =>
      let T := type of b in unify T bool; destruct b eqn:?
  | |- context [match ?x with Some _ => _ | None => _ end] =>
      destruct x eqn:?
  end.

Ltac py_cases := py_eval; repeat (split_test; py_eval).

(** The tile of the renderer follows the zoom of the camera that
    [check_updates] hands to the scene-sync object. *)
Lemma check_updates_tile w :
  let ud := update_data (srt w) in
  (has_value (ud_render_resolution ud) = false ->
   has_value (ud_aov ud) = true -> render_layers (sr w) <> None) ->
  (has_value (ud_render_camera ud) = true -> scene_synced (srt w) <> None) ->
  let w' := (check_updates w).1.2 in
  tile_image (sr w')
  = (if has_value (ud_render_camera ud)
     then Some match camera_zoom_of (value (ud_render_camera ud)) with
               | Some zoom => Tile_zoom zoom
               | None => Tile_unit
               end
     else tile_image (sr w))
  /\ (has_value (ud_render_camera ud) = true ->
      render_camera (srt w') = value (ud_render_camera ud)
      /\ scene_synced (srt w')
         = Some (mkSceneSynced (value (ud_render_camera ud))
                   (camera_zoom_of (value (ud_render_camera ud))))).
Proof.
  destruct ext as [ae pe ism czo pc ok gfb gri rr fr rp us].
  destruct w as [s c ths att n cr nc].
  destruct s as [it ii ip iip cg tip res reg trs rs pr aovs ti isp ui idv rt rl].
  destruct c as [nr th ev [[vg hg eg] [vr hr er] [va ha ea] [vc hc ec]]
                   rres raov rreg rcam syn sd stp].
  intros ud Hl Hs. subst ud.
  destruct hr, ha, hg, hc; cbn in Hl, Hs;
    try (destruct syn as [syn|]; [| exfalso; apply Hs; reflexivity ]);
    try (destruct rl as [l|]; [| exfalso; apply Hl; reflexivity ]);
    destruct rt as [old|].
  all: vm_compute; try destruct (czo vc).
  all: repeat split; try discriminate.
Qed.

(** X29: a camera change applied by [check_updates] sets the tile of the
    renderer from the zoom the scene-sync object then reports: the pair of
    that zoom, or the unit tile when it reports none; without a camera
    change the tile stays. *)
Theorem camera_change_sets_tile w :
  let ud := update_data (srt w) in
  (has_value (ud_render_resolution ud) = false ->
   has_value (ud_aov ud) = true -> render_layers (sr w) <> None) ->
  (has_value (ud_render_camera ud) = true -> scene_synced (srt w) <> None) ->
  let w' := (check_updates w).1.2 in
  (has_value (ud_render_camera ud) = true ->
     render_camera (srt w') = value (ud_render_camera ud)
     /\ tile_image (sr w')
        = Some match camera_zoom_of (value (ud_render_camera ud)) with
               | Some zoom => Tile_zoom zoom
               | None => Tile_unit
               end)
  /\ (has_value (ud_render_camera ud) = false ->
      tile_image (sr w') = tile_image (sr w)).
Proof.
  intros ud Hl Hs w'.
  destruct (check_updates_tile w Hl Hs) as (Ht & Hc). fold ud w' in Ht, Hc.
  split.
  - intros Hh. destruct (Hc Hh) as (Hcam & _). rewrite Hh in Ht.
    split; assumption.
  - intros Hh. rewrite Hh in Ht. exact Ht.
Qed.

(** *** The tile and the iteration of the image *)

Lemma render_proc_samples_tile (rs : RenderSettings) w :
  tile_image (sr (render_proc_samples rs w).1.2) = tile_image (sr w).
Proof.
  destruct w as [s c ths att n cr nc].
  destruct s as [it ii ip iip cg tip res reg trs rs0 pr aovs ti isp ui idv rt rl].
  py_cases; reflexivity.
Qed.

Lemma render_proc_apply_tile (rs : RenderSettings) (sm : Z) w :
  tile_image (sr (render_proc_apply rs sm w).1.2) = tile_image (sr w).
Proof.
  destruct w as [s c ths att n cr nc].
  destruct s as [it ii ip iip cg tip res reg trs rs0 pr aovs ti isp ui idv rt0 rl].
  py_cases; reflexivity.
Qed.

Lemma render_proc_setup_tile w :
  tile_image (sr (render_proc_setup w).1.2) = tile_image (sr w).
Proof.
  unfold render_proc_setup. rewrite bind_gets.
  set (rs := render_settings (sr w)).
  pose proof (render_proc_samples_tile rs w) as Hs.
  destruct (render_proc_samples rs w) as [[[sm|e] w1] evs1] eqn:Es.
  - rewrite (bind_step _ _ _ _ _ _ Es).
    pose proof (render_proc_apply_tile rs sm w1) as Ha.
    unfold emitted. cbn [fst snd] in *. congruence.
  - unfold bind. rewrite Es. exact Hs.
Qed.

Lemma render_proc_iteration_tile f (i : nat) w g' w' evs :
  render_proc_iteration f i w = (Ok g', w', evs) ->
  im_tile (sr w') = tile_image (sr w)
  /\ tile_image (sr w') = tile_image (sr w)
  /\ im_iteration (sr w') = Some i
  /\ iteration_in_progress (sr w') = Some i
  /\ exists f', g' = Gen_suspended f' /\ f_i f' = i.
Proof.
  unfold render_proc_iteration. intros H.
  destruct (limit_reached_frame f i w) as ([b Hb] & Hsr & _).
  destruct (limit_reached f i w) as [[r w1] evs1] eqn:El.
  cbn in Hb, Hsr. subst r.
  rewrite (bind_step _ _ _ _ _ _ El) in H.
  destruct b.
  - destruct (render_proc_finish_raises f w1) as [e He].
    destruct (render_proc_finish f w1) as [[r w2] evs2].
    cbn in He. subst r. discriminate H.
  - destruct (core_ok (native_calls w1)) eqn:Hok.
    + rewrite (render_proc_render_ok f i w1 Hok) in H.
      unfold emitted in H. cbn [fst snd] in H.
      injection H as <- <- _.
      cbn. rewrite Hsr. destruct (sr w). cbn. repeat split.
      eexists. split; reflexivity.
    + pose proof (render_proc_render_fail f i w1 Hok) as Hf.
      destruct (render_proc_render f i w1) as [[r w2] evs2].
      cbn in Hf. subst r. discriminate H.
Qed.

(** X30: whenever the generator yields, the tile that [get_image_tile]
    returns is the tile the renderer had when the iteration was rendered,
    and the image carries the number of the iteration: 0 for the first
    [next] of a generator, one more for every later one. *)
Theorem next_yield_image_tile g w (b : bool) g' w' (evs : list (Event Obj)) :
  next g w = (Ok b, g', w', evs) ->
  get_image_tile w' = (Ok (tile_image (sr w)), w', [])
  /\ tile_image (sr w') = tile_image (sr w)
  /\ im_iteration (sr w')
     = Some match g with
            | Gen_suspended f => S (f_i f)
            | _ => 0%nat
            end
  /\ exists f', g' = Gen_suspended f'
                /\ im_iteration (sr w') = Some (f_i f').
Proof.
  unfold next, get_image_tile, gets. destruct g as [|f|].
  - pose proof (render_proc_setup_tile w) as Hsc.
    unfold bind.
    destruct (render_proc_setup w) as [[[f|e] w2] evs2]; [|discriminate].
    cbn in Hsc.
    destruct (render_proc_iteration f 0 w2) as [[[g2|e] w3] evs3] eqn:Hit;
      [|discriminate].
    intros [= _ <- <- _].
    destruct (render_proc_iteration_tile _ _ _ _ _ _ Hit)
      as (H1 & H2 & H3 & _ & f' & -> & H5).
    rewrite H1, H2, H3, Hsc. repeat split.
    exists f'. rewrite H5. split; reflexivity.
  - destruct (render_proc_iteration f (S (f_i f)) w) as [[[g2|e] w3] evs3] eqn:Hit;
      [|discriminate].
    intros [= _ <- <- _].
    destruct (render_proc_iteration_tile _ _ _ _ _ _ Hit)
      as (H1 & H2 & H3 & _ & f' & -> & H5).
    rewrite H1, H2, H3. repeat split.
    exists f'. rewrite H5. split; reflexivity.
  - discriminate.
Qed.

End TileExtras.

Section FirstCheck.

Context {Obj : Type} {ext : Externals Obj}.
Implicit Types (w : World Obj) (v : option Obj).

(** As long as the region block is as constructed, a [check_updates] that
    returns pops it: the region [None] goes to the renderer, whatever
    region was set before, and the redraw flag is raised. *)
Lemma check_updates_region_as_constructed w :
  let ud := update_data (srt w) in
  region_as_constructed w ->
  (has_value (ud_render_resolution ud) = false ->
   has_value (ud_aov ud) = true -> render_layers (sr w) <> None) ->
  (has_value (ud_render_camera ud) = true -> scene_synced (srt w) <> None) ->
  let w' := (check_updates w).1.2 in
  (check_updates w).1.1 = Ok tt
  /\ Change_region None ∈ applied (check_updates w).2
  /\ pending (ud_render_region (update_data (srt w'))) = []
  /\ region (sr w') = None
  /\ render_region (srt w') = None
  /\ _need_scene_redraw (srt w') = true.
Proof.
  intros ud [Hh Hv] Hl Hs w'.
  destruct (check_updates_effect w Hl Hs)
    as (Hok & Happ & Hflag & _ & Hnone & _ & Hreg).
  fold ud in Happ, Hflag, Hreg. fold w' in Hflag, Hnone, Hreg.
  fold ud in Hh, Hv.
  destruct (Hreg Hh) as [Hr1 Hr2]. rewrite Hv in Hr1, Hr2.
  repeat match goal with |- _ /\ _ => split end.
  - exact Hok.
  - rewrite Happ, Hh, Hv. apply elem_of_app. right.
    apply elem_of_app. left. apply list_elem_of_here.
  - pose proof (Hnone B_render_region) as Hp. cbn [block_of] in Hp.
    unfold pending. rewrite Hp. reflexivity.
  - exact Hr2.
  - exact Hr1.
  - rewrite Hflag, Hh. rewrite orb_true_r. reflexivity.
Qed.

Lemma run_call_region_block (c : HostCall Obj) w :
  leaves_region_block c = true ->
  ud_render_region (update_data (srt (run_call c w)))
  = ud_render_region (update_data (srt w)).
Proof.
  destruct c as [v|v|v|v|v|v|v|s| |name|n]; cbn [run_call leaves_region_block];
    intros Hc; try discriminate Hc.
  - destruct w as [s c ths att k cr nc].
    destruct s as [it ii ip iip cg tip res reg trs rs pr aovs ti isp ui idv rt rl].
    destruct rt; reflexivity.
  - reflexivity.
  - reflexivity.
  - reflexivity.
  - reflexivity.
  - reflexivity.
  - reflexivity.
  - destruct (get_image_frame name w) as (_ & _ & _ & -> & _). reflexivity.
  - destruct (drive_same_scene n SceneRenderer_render_proc w) as (-> & _).
    reflexivity.
Qed.

Lemma run_calls_region_block (cs : list (HostCall Obj)) w :
  forallb leaves_region_block cs = true ->
  ud_render_region (update_data (srt (run_calls cs w)))
  = ud_render_region (update_data (srt w)).
Proof.
  unfold run_calls. revert w.
  induction cs as [|c cs IH]; intros w H; [reflexivity|].
  cbn [forallb] in H. apply andb_prop in H as [Hc Hcs].
  cbn [foldl]. rewrite (IH _ Hcs). apply run_call_region_block. exact Hc.
Qed.


End FirstCheck.



Section StopFrom.

Context {Obj : Type} {ext : Externals Obj}.
Implicit Types (w : World Obj) (g : Generator Obj) (p : WorkerAt Obj).

Ltac py_eval :=
  cbv -[Z.add Z.sub Z.mul Z.quot Z.div Z.ltb Z.leb Z.eqb Z.of_nat Z.max
        core_ok perf_counter get_frame_buffer get_resolved_image
        rendermode_remap filter_remap radius_params get_user_settings
        camera_zoom_of array_equal py_eq is_same effective_samples
        lookup insert empty String.eqb
        limits_enable limits_type limits_iterations limits_time
        tm_enable tm_type wb_enable wb_color_space_value gm_enable
        gm_viewport_only rendering_limits render_mode use_clamp_irradiance
        get_max_ray_depth aa_filter tone_mapping white_balance
        gamma_correction samples device_type device_type_plus_cpu
        used_gpu_count].

Ltac split_test :=
  match goal with
  | |- context [if ?b then _ else _] =>
      let T := type of b in unify T bool; destruct b eqn:?
  | |- context [match ?x with Some _ => _ | None => _ end] =>
      destruct x eqn:?
  end.

Ltac py_cases := py_eval; repeat (split_test; py_eval).

(** *** Render calls of one pass *)

Lemma render_calls_app (a b : list (Event Obj)) :
  render_calls (a ++ b) = (render_calls a + render_calls b)%nat.
Proof. unfold render_calls. rewrite List.filter_app, length_app. reflexivity. Qed.

Lemma check_updates_no_render w : render_calls (check_updates w).2 = 0%nat.
Proof.
  destruct ext as [ae pe ism czo pc ok gfb gri rr fr rp us].
  destruct w as [s c ths att n cr nc].
  destruct s as [it ii ip iip cg tip res reg trs rs pr aovs ti isp ui idv rt rl].
  destruct c as [nr th ev [[vg hg eg] [vr hr er] [va ha ea] [vc hc ec]]
                   rres raov rreg rcam syn sd stp].
  destruct hr; [destruct rt as [old|]; destruct ha
               |destruct ha; [destruct rl as [l|]|]];
    destruct hg; (destruct hc; [destruct syn as [syn|]|]).
  all: vm_compute; try destruct (czo vc).
  all: reflexivity.
Qed.

Lemma render_proc_setup_no_render w :
  render_calls (render_proc_setup w).2 = 0%nat.
Proof.
  unfold render_proc_setup. rewrite bind_gets.
  set (rs := render_settings (sr w)).
  destruct (render_proc_samples_frame rs w) as (_ & _ & _ & _ & Hev).
  destruct (render_proc_samples rs w) as [[[sm|e] w1] evs1] eqn:Es;
    cbn in Hev; subst evs1.
  - rewrite (bind_ok_nil _ _ _ _ _ Es).
    destruct w1 as [s c ths att n cr nc].
    destruct s as [it ii ip iip cg tip res reg trs rs0 pr aovs ti isp ui idv rt0 rl].
    unfold render_calls. py_cases; reflexivity.
  - unfold bind. rewrite Es. reflexivity.
Qed.

Lemma render_proc_iteration_render_calls (f : Frame Obj) (i : nat) w :
  (render_calls (render_proc_iteration f i w).2 <= 1)%nat.
Proof.
  destruct w as [s c ths att n cr nc].
  destruct s as [it ii ip iip cg tip res reg trs rs0 pr aovs ti isp ui idv rt0 rl].
  destruct f as [rs sm ts tl tol [[r re]|] fi].
  all: unfold render_calls; py_cases; cbn; lia.
Qed.

Lemma next_render_calls g w : (render_calls (next g w).2 <= 1)%nat.
Proof.
  unfold next. destruct g as [|f|].
  - pose proof (render_proc_setup_no_render w) as Hs.
    unfold bind.
    destruct (render_proc_setup w) as [[[f|e] w2] evs2];
      cbn -[render_calls] in Hs.
    + pose proof (render_proc_iteration_render_calls f 0 w2) as Hi.
      destruct (render_proc_iteration f 0 w2) as [[[g2|e] w3] evs3];
        cbn -[render_calls] in Hi |- *; rewrite render_calls_app; lia.
    + cbn -[render_calls]. lia.
  - pose proof (render_proc_iteration_render_calls f (S (f_i f)) w) as Hi.
    destruct (render_proc_iteration f (S (f_i f)) w) as [[[g2|e] w3] evs3];
      exact Hi.
  - cbn. lia.
Qed.

(** *** The worker leaving its tick *)

(** One pass leaves the thread and the stop flag alone, and renders at
    most once. *)
Lemma render_proc_pass_frame g w :
  let pass := render_proc_pass g w in
  stop_requested (srt pass.1.2) = stop_requested (srt w)
  /\ thread (srt pass.1.2) = thread (srt w)
  /\ threads pass.1.2 = threads w
  /\ (render_calls pass.2 <= 1)%nat.
Proof.
  unfold render_proc_pass.
  destruct (check_updates_frame w) as (Hs & _ & Ht & Hths & _).
  pose proof (check_updates_no_render w) as Hr.
  destruct (check_updates w) as [[[[]|e] w1] evs1];
    cbn -[render_calls] in Hs, Ht, Hths, Hr |- *.
  2:{ repeat split; try assumption. lia. }
  destruct (_need_scene_redraw (srt w1)).
  { cbn -[render_calls]. repeat split; try assumption. lia. }
  pose proof (next_same_scene g w1) as (Hsrt & Hths2 & _).
  pose proof (next_render_calls g w1) as Hr2.
  destruct (next g w1) as [[[r g'] w2] evs2].
  cbn -[render_calls] in Hsrt, Hths2, Hr2.
  assert (Hall : stop_requested (srt w2) = stop_requested (srt w)
                 /\ thread (srt w2) = thread (srt w)
                 /\ threads w2 = threads w
                 /\ (render_calls (evs1 ++ evs2) <= 1)%nat).
  { rewrite Hsrt, Hths2, render_calls_app. repeat split; try assumption. lia. }
  destruct r as [b|[]]; try destruct (sleep_delay (srt w2)); exact Hall.
Qed.

Lemma thread_exit_frame (tid : nat) w :
  sr (thread_exit tid w) = sr w
  /\ srt (thread_exit tid w) = srt w
  /\ attached (thread_exit tid w) = attached w
  /\ thread_terminate_event tid (thread_exit tid w)
     = thread_terminate_event tid w.
Proof.
  unfold thread_exit, upd_thread, thread_terminate_event.
  destruct (threads w !! tid) as [th|] eqn:E.
  - cbn. rewrite list_lookup_insert_eq; [repeat split|].
    eapply lookup_lt_Some; eassumption.
  - rewrite E. repeat split.
Qed.

Lemma terminate_frame (tid : nat) w :
  sr (RenderThread_terminate tid w) = sr w
  /\ srt (RenderThread_terminate tid w) = srt w
  /\ attached (RenderThread_terminate tid w) = attached w.
Proof.
  unfold RenderThread_terminate, upd_thread.
  destruct (threads w !! tid); repeat split.
Qed.

(** A worker whose terminate event is set leaves [run] at its next look
    at it. *)
Lemma run_after_terminate (fuel tick_fuel tid : nat) w :
  thread_terminate_event tid w = true ->
  RenderThread_run (S fuel) tick_fuel tid w
  = Some (Ok tt, thread_exit tid w, []).
Proof. intros H. cbn [RenderThread_run]. rewrite H. reflexivity. Qed.

(** [stop_from] once the worker is out of its tick. *)
Lemma stop_from_leaves (fuel tick_fuel tid : nat) p w
    (r : Res unit) (x : World Obj) (evs : list (Event Obj)) :
  thread (srt w) = Some tid ->
  thread_alive tid w = true ->
  let w2 :=
    RenderThread_terminate tid
      (with_srt (with_stop_requested (Some true) (srt w)) w) in
  tick_from tick_fuel p w2 = Some (r, x, evs) ->
  threads x = threads w2 ->
  stop_from (S fuel) tick_fuel p w
  = Some (Ok tt,
          with_srt (with_thread None (srt (thread_exit tid x)))
            (thread_exit tid x),
          Called "SceneRendererThreaded.stop" None :: evs).
Proof.
  intros Hth Ha w2 Htick Hths.
  assert (Ha1 : thread_alive tid
                  (with_srt (with_stop_requested (Some true) (srt w)) w)
                = true) by exact Ha.
  assert (Ha2 : thread_alive tid w2 = true).
  { subst w2. rewrite terminate_keeps_alive. exact Ha1. }
  assert (Hte : thread_terminate_event tid x = true).
  { unfold thread_terminate_event. rewrite Hths.
    exact (terminate_sets_event tid _ Ha1). }
  unfold stop_from. cbv zeta.
  cbn [srt with_srt thread with_stop_requested]. rewrite Hth.
  fold w2. rewrite Ha2. unfold RenderThread_run_from. rewrite Htick.
  destruct r as [[]|e].
  - rewrite (run_after_terminate fuel tick_fuel tid x Hte).
    cbn [after]. rewrite app_nil_r. reflexivity.
  - reflexivity.
Qed.


End StopFrom.

(** ** The statements above on concrete sessions *)

Lemma check_updates_consumes_witness :
  check_updates (ext := demo)
    (check_updates (ext := demo) demo_world_pending).1.2
  = (Ok tt, (check_updates (ext := demo) demo_world_pending).1.2, []).
Proof.
  pose proof (check_updates_consumes (ext := demo) demo_world_pending) as H.
  cbv zeta in H.
  destruct H as (_ & _ & H).
  - vm_compute. discriminate.
  - vm_compute. discriminate.
  - exact H.
Defined.

Lemma check_updates_aov_without_layers_witness :
  (check_updates (ext := demo) aov_early_world).1.1 = Raise AttributeError
  /\ aov_settings (sr (check_updates (ext := demo) aov_early_world).1.2)
     = Some [3].
Proof.
  pose proof (check_updates_aov_without_layers (ext := demo) aov_early_world)
    as H.
  cbv zeta in H.
  destruct H as (H1 & _ & _ & _ & H2 & _).
  - reflexivity.
  - reflexivity.
  - reflexivity.
  - split; [exact H1|exact H2].
Defined.

Lemma check_updates_camera_without_scene_synced_witness :
  (check_updates (ext := demo) camera_early_world).1.1 = Raise AttributeError
  /\ render_camera (srt (check_updates (ext := demo) camera_early_world).1.2)
     = Some [7].
Proof.
  pose proof (check_updates_camera_without_scene_synced (ext := demo)
                camera_early_world) as H.
  cbv zeta in H.
  destruct H as (H1 & _ & _ & H2 & _).
  - vm_compute. discriminate.
  - reflexivity.
  - reflexivity.
  - split; [exact H1|exact H2].
Defined.

Lemma resolution_revert_cancels_witness :
  let w1 :=
    (SceneRendererThreaded_update_render_resolution (Some [800; 600])
       (demo_world false no_limits)).1.2 in
  let w2 :=
    (SceneRendererThreaded_update_render_resolution (Some [640; 480])
       w1).1.2 in
  resolution_changes (check_updates (ext := demo) w2).2 = []
  /\ attached (check_updates (ext := demo) w2).1.2 = [0%nat].
Proof.
  cbv zeta.
  pose proof (resolution_revert_cancels (ext := demo)
                (demo_world false no_limits) (Some [800; 600])) as H.
  cbv zeta in H.
  destruct H as (_ & _ & H1 & _ & _ & H2).
  - intros x y Hxy. apply (bool_decide_eq_true_1 (x = y)). exact Hxy.
  - vm_compute. reflexivity.
  - vm_compute. discriminate.
  - vm_compute. discriminate.
  - vm_compute. discriminate.
  - split; [exact H1|exact H2].
Defined.

Lemma set_then_update_render_region_witness :
  let w1 :=
    (SceneRendererThreaded_set_render_region (Some [0; 1; 0; 1])
       (demo_world false no_limits)).1.2 in
  pending
    (ud_render_region
       (update_data
          (srt (SceneRendererThreaded_update_render_region
                  (Some [0; 1; 0; 1]) w1).1.2)))
  = [].
Proof.
  cbv zeta.
  pose proof (set_then_update_render_region
                (demo_world false no_limits) (Some [0; 1; 0; 1])) as H.
  cbv zeta in H.
  destruct H as (_ & _ & H & _).
  - vm_compute. reflexivity.
  - vm_compute. reflexivity.
  - exact H.
Defined.

Lemma stop_idempotent_witness :
  stop (ext := demo) 0 0 stopped_world
  = Some (Ok tt, stopped_world, [Called "SceneRendererThreaded.stop" None]).
Proof.
  destruct (stop_idempotent (ext := demo) 1 0 0 0 (redraw_world no_limits)
              (Ok tt) stopped_world
              [Called "SceneRendererThreaded.stop" None])
    as (_ & _ & _ & H).
  - vm_compute. reflexivity.
  - exact H.
Defined.

Lemma idle_tick_does_nothing_witness :
  SceneRendererThreaded_render_proc (ext := demo) 3
    (tick_entry (ext := demo) (running_world no_limits))
  = Some (Ok tt, tick_entry (ext := demo) (running_world no_limits), [])
  /\ RenderThread_run (ext := demo) 4 3 0
       (tick_entry (ext := demo) (running_world no_limits)) = None.
Proof.
  destruct (idle_tick_does_nothing (ext := demo) 4 3 0
              (tick_entry (ext := demo) (running_world no_limits)))
    as (H1 & H2).
  - intros []; reflexivity.
  - reflexivity.
  - split; [exact H1|]. apply H2. reflexivity.
Defined.

Lemma tick_stop_requested_witness :
  exists w',
    SceneRendererThreaded_render_proc (ext := demo) 1 stopped_world
    = Some (Ok tt, w', [])
    /\ render_completed_event (srt w') = true
    /\ native_calls w' = native_calls stopped_world.
Proof.
  destruct (tick_stop_requested (ext := demo) 0 stopped_world)
    as (w' & H1 & _ & H2 & _ & H3).
  - intros []; reflexivity.
  - reflexivity.
  - reflexivity.
  - exists w'. repeat split; assumption.
Defined.

Lemma tick_renders_to_completion_witness :
  exists wf evs,
    SceneRendererThreaded_render_proc (ext := demo) 7
      (running_world five_iterations)
    = Some (Ok tt, wf, evs)
    /\ render_completed_event (srt wf) = true.
Proof.
  destruct (drive (ext := demo) 7 SceneRenderer_render_proc
              (tick_entry (ext := demo) (running_world five_iterations)))
    as [[[n e] g'] wf] eqn:Hd.
  assert (He : e = Some StopIteration).
  { revert Hd. vm_compute. intros [= _ <- _ _]. reflexivity. }
  subst e.
  destruct (tick_renders_to_completion (ext := demo) 7 n
              (running_world five_iterations) g' wf)
    as (evs & H1 & H2 & _).
  - vm_compute. discriminate.
  - vm_compute. discriminate.
  - reflexivity.
  - reflexivity.
  - vm_compute. discriminate.
  - exact Hd.
  - eexists _, _. split; [exact H1|exact H2].
Defined.

Lemma tick_failure_propagates_witness :
  exists wf evs,
    SceneRendererThreaded_render_proc (ext := broken) 3 started_world
    = Some (Raise CoreError, wf, evs)
    /\ render_completed_event (srt wf) = false.
Proof.
  destruct (drive (ext := broken) 3 SceneRenderer_render_proc
              (tick_entry (ext := broken) started_world))
    as [[[n e] g'] wf] eqn:Hd.
  assert (He : e = Some CoreError).
  { revert Hd. vm_compute. intros [= _ <- _ _]. reflexivity. }
  subst e.
  destruct (tick_failure_propagates (ext := broken) 3 n started_world
              CoreError g' wf)
    as (evs & H1 & H2).
  - vm_compute. discriminate.
  - vm_compute. discriminate.
  - reflexivity.
  - reflexivity.
  - vm_compute. discriminate.
  - exact Hd.
  - discriminate.
  - eexists _, _. split; [exact H1|exact H2].
Defined.

Lemma limit_off_never_stops_witness :
  (drive (ext := demo) 9 SceneRenderer_render_proc
     (demo_world false zero_time)).1.1
  = (9%nat, None).
Proof.
  apply (limit_off_never_stops (ext := demo) (demo_world false zero_time)
           0%nat 9).
  - reflexivity.
  - reflexivity.
  - reflexivity.
  - vm_compute. discriminate.
Defined.

Lemma render_without_targets_witness :
  (next (ext := demo) SceneRenderer_render_proc fresh_world).1.1.1
  = Raise AttributeError
  /\ render_calls (next (ext := demo) SceneRenderer_render_proc fresh_world).2
     = 0%nat.
Proof.
  pose proof (render_without_targets (ext := demo) fresh_world) as H.
  cbv zeta in H.
  destruct H as (H1 & _ & H2 & _).
  - reflexivity.
  - reflexivity.
  - vm_compute. intros H. exfalso. apply H. reflexivity.
  - vm_compute. discriminate.
  - split; [exact H1|exact H2].
Defined.

Lemma render_region_without_resolution_witness :
  (next (ext := demo) SceneRenderer_render_proc region_only_world).1.1.1
  = Raise TypeError
  /\ (next (ext := demo) SceneRenderer_render_proc region_only_world).2 = [].
Proof.
  pose proof (render_region_without_resolution (ext := demo)
                region_only_world [0; 1; 0; 1]) as H.
  cbv zeta in H.
  destruct H as (H1 & _ & H2 & _).
  - reflexivity.
  - reflexivity.
  - vm_compute. discriminate.
  - split; [exact H1|exact H2].
Defined.

Lemma render_zero_samples_witness :
  next (ext := zero_samples) SceneRenderer_render_proc
    (demo_world false five_iterations)
  = (Raise ZeroDivisionError, Gen_finished,
     demo_world false five_iterations, []).
Proof.
  apply (render_zero_samples (ext := zero_samples)
           (demo_world false five_iterations)).
  - reflexivity.
  - reflexivity.
  - reflexivity.
Defined.

Lemma finish_zero_elapsed_witness :
  let first :=
    next (ext := frozen_clock) SceneRenderer_render_proc
      (demo_world false one_iteration) in
  first.1.1.1 = Ok false
  /\ (next (ext := frozen_clock) first.1.1.2 first.1.2).1.1.1
     = Raise ZeroDivisionError.
Proof.
  cbv zeta.
  destruct (next (ext := frozen_clock) SceneRenderer_render_proc
              (demo_world false one_iteration))
    as [[[r g] w1] evs] eqn:En.
  vm_compute in En. injection En as <- <- <- _. cbn [fst snd].
  split; [reflexivity|].
  match goal with
  | |- context [next (Gen_suspended ?f) ?w] =>
      rewrite (finish_zero_elapsed (ext := frozen_clock) f w)
  end.
  - reflexivity.
  - reflexivity.
  - reflexivity.
  - vm_compute. discriminate.
  - vm_compute. discriminate.
  - reflexivity.
Defined.

Lemma get_image_aov_normalization_only_witness :
  (get_image (ext := all_channels) "depth" (demo_world false no_limits)).2
  = [PostEffect_start_update;
     PostEffect_enable "POST_EFFECT_NORMALIZATION";
     RenderTargets_get_resolved_image 0 [0];
     prepare_image_by_layer "depth" [2]].
Proof.
  destruct (get_image_aov_normalization_only (ext := all_channels) "depth"
              (demo_world false no_limits) 0%nat [0])
    as (rest & H & _).
  - discriminate.
  - reflexivity.
  - reflexivity.
  - reflexivity.
  - reflexivity.
  - rewrite H. revert H. vm_compute. intros [= <-]. reflexivity.
Defined.

Lemma get_image_unknown_tone_mapping_witness :
  (get_image (ext := demo) "default" filmic_world).1.1 = Raise AssertionError.
Proof.
  rewrite (get_image_unknown_tone_mapping (ext := demo) filmic_world 0%nat [0]).
  - reflexivity.
  - reflexivity.
  - reflexivity.
  - reflexivity.
  - reflexivity.
  - reflexivity.
Defined.

Lemma device_holds_current_targets_witness :
  targets_attached (run_calls (ext := demo) demo_calls fresh_world)
  /\ attached
       (SceneRenderer_del
          (run_calls (ext := demo) demo_calls fresh_world)).1.2 = [].
Proof.
  destruct (device_holds_current_targets (ext := demo) demo_calls fresh_world)
    as (H1 & _ & H2 & _).
  - reflexivity.
  - split; [exact H1|exact H2].
Defined.

Lemma applied_update_clears_completion_witness :
  is_render_completed
    (check_updates (ext := demo) (running_world no_limits)).1.2
  = (Ok false, (check_updates (ext := demo) (running_world no_limits)).1.2, []).
Proof.
  pose proof (applied_update_clears_completion (ext := demo)
                (running_world no_limits) 0%nat B_render_region) as H.
  cbv zeta in H.
  destruct H as (_ & H).
  - vm_compute. discriminate.
  - vm_compute. discriminate.
  - reflexivity.
  - reflexivity.
  - reflexivity.
  - exact H.
Defined.

Lemma noninteractive_stop_renders_once_witness :
  exists w1 evs,
    render_proc_noninteractive (ext := demo) 1 stopped_world
    = Some (Ok tt, render_completed w1, evs)
    /\ render_calls evs = 1%nat.
Proof.
  destruct (next (ext := demo) SceneRenderer_render_proc
              (with_srt (with_render_completed_event false (srt stopped_world))
                 stopped_world))
    as [[[r g1] w1] evs] eqn:Hn.
  assert (Hr : r = Ok false /\ render_calls evs = 1%nat).
  { revert Hn. vm_compute. intros [= <- _ _ <-]. split; reflexivity. }
  destruct Hr as [-> Hc].
  destruct (noninteractive_stop_renders_once (ext := demo) 0 stopped_world
              false g1 w1 evs)
    as (H & _).
  - reflexivity.
  - exact Hn.
  - exists w1, evs. split; [exact H|exact Hc].
Defined.

Lemma noninteractive_renders_to_limit_witness :
  exists wf evs,
    render_proc_noninteractive (ext := demo) 7 batch_world
    = Some (Ok tt, render_completed wf, evs)
    /\ pending (ud_render_region (update_data (srt (render_completed wf))))
       = [None].
Proof.
  destruct (drive (ext := demo) 7 SceneRenderer_render_proc
              (with_srt (with_render_completed_event false (srt batch_world))
                 batch_world))
    as [[[n e] g'] wf] eqn:Hd.
  assert (He : e = Some StopIteration).
  { revert Hd. vm_compute. intros [= _ <- _ _]. reflexivity. }
  subst e.
  destruct (noninteractive_renders_to_limit (ext := demo) 7 n batch_world
              g' wf)
    as (evs & H1 & _ & H2 & _).
  - reflexivity.
  - exact Hd.
  - exists wf, evs. split; [exact H1|]. rewrite H2. reflexivity.
Defined.

Lemma tick_iteration_limit_witness :
  exists wf evs,
    SceneRendererThreaded_render_proc (ext := demo) 7
      (running_world five_iterations)
    = Some (Ok tt, wf, evs)
    /\ inbox_empty wf.
Proof.
  destruct (tick_iteration_limit (ext := demo) 7
              (running_world five_iterations) 0%nat)
    as (wf & evs & H1 & _ & _ & H2 & _).
  - reflexivity.
  - vm_compute. discriminate.
  - vm_compute. discriminate.
  - reflexivity.
  - reflexivity.
  - vm_compute. discriminate.
  - reflexivity.
  - vm_compute. discriminate.
  - reflexivity.
  - reflexivity.
  - vm_compute. discriminate.
  - vm_compute. reflexivity.
  - reflexivity.
  - exact demo_clock_strict.
  - vm_compute. lia.
  - exists wf, evs. split; [exact H1|exact H2].
Defined.

Lemma tick_unlimited_runs_on_witness :
  SceneRendererThreaded_render_proc (ext := demo) 9 (running_world no_limits)
  = None.
Proof.
  apply (tick_unlimited_runs_on (ext := demo) 9 (running_world no_limits)
           0%nat).
  - reflexivity.
  - vm_compute. discriminate.
  - vm_compute. discriminate.
  - reflexivity.
  - reflexivity.
  - vm_compute. discriminate.
  - reflexivity.
  - vm_compute. discriminate.
  - reflexivity.
  - reflexivity.
Defined.

Lemma camera_change_sets_tile_witness :
  tile_image (sr (check_updates (ext := demo) demo_world_pending).1.2)
  = Some Tile_unit.
Proof.
  pose proof (camera_change_sets_tile (ext := demo) demo_world_pending) as H.
  cbv zeta in H.
  destruct H as (H & _).
  - vm_compute. discriminate.
  - vm_compute. discriminate.
  - destruct (H eq_refl) as (_ & ->). reflexivity.
Defined.

Lemma next_yield_image_tile_witness :
  im_iteration
    (sr (next (ext := demo) SceneRenderer_render_proc
           (demo_world false no_limits)).1.2)
  = Some 0%nat.
Proof.
  destruct (next (ext := demo) SceneRenderer_render_proc
              (demo_world false no_limits))
    as [[[r g'] w'] evs] eqn:Hn.
  assert (Hr : r = Ok false).
  { revert Hn. vm_compute. intros [= <- _ _ _]. reflexivity. }
  subst r.
  destruct (next_yield_image_tile (ext := demo) _ _ _ _ _ _ Hn)
    as (_ & _ & H & _).
  exact H.
Defined.

